(** * Telraam data collector: merge, storage and collection pipeline

    A shallow embedding of [src/services/Storage.ts], [src/collector.ts] and
    [src/services/PathManager.ts], together with models of the collaborators
    whose sources are not available ([DataMerger], [FileService], the API
    client) and of Node's POSIX [path], and the properties of the
    collection-merge pipeline. *)

From Stdlib Require Import Ascii String QArith.
From stdpp Require Import gmap strings list fin_maps sorting pretty.

Local Open Scope string_scope.
Local Open Scope list_scope.
Local Open Scope nat_scope.

(** ** Lexicographic order on strings and on (date, hour) keys *)

Definition str_le (s1 s2 : string) : Prop := String.leb s1 s2 = true.

#[global] Instance str_le_dec s1 s2 : Decision (str_le s1 s2).
Proof. unfold str_le. apply _. Defined.

(** The natural key of a reading is the pair (date, hour). *)
Definition ReadingKey : Type := string * nat.

Definition key_leb (k1 k2 : ReadingKey) : bool :=
  match String.compare k1.1 k2.1 with
  | Lt => true
  | Eq => Nat.leb k1.2 k2.2
  | Gt => false
  end.

Definition key_le (k1 k2 : ReadingKey) : Prop := key_leb k1 k2 = true.

#[global] Instance key_le_dec k1 k2 : Decision (key_le k1 k2).
Proof. unfold key_le. apply _. Defined.

(** Strictly earlier: an earlier date, or the same date and an earlier hour. *)
Definition key_lt (k1 k2 : ReadingKey) : Prop :=
  String.ltb k1.1 k2.1 = true ∨ (k1.1 = k2.1 ∧ k1.2 < k2.2).

Definition str_lt (s1 s2 : string) : Prop := String.ltb s1 s2 = true.

(** ** Generic keyed merge

    Modelled from the spec: the merge scheme of [DataMerger], whose source is
    missing. A map keyed by the natural key is filled from [existing], every
    item of [incoming], in order, overwrites the entry at its key, and the
    values are returned sorted ascending by key. *)

Section KeyedMerge.
Context {K : Type} `{Countable K} {V : Type}.
Variable key : V → K.
Variable le : relation K.
Context `{∀ k1 k2, Decision (le k1 k2)}.

(** [map.set(key(v), v)] for every [v] of [l], in order. *)
Definition setAll (l : list V) (m : gmap K V) : gmap K V :=
  foldl (λ acc v, <[key v := v]> acc) m l.

(** [Array.from(map.values()).sort(byKey)]. *)
Definition sortedValues (m : gmap K V) : list V :=
  merge_sort (λ a b, le (key a) (key b)) (map_to_list m).*2.

Definition mergeByKey (existing incoming : list V) : list V :=
  sortedValues (setAll incoming (setAll existing ∅)).

(** The last item of [l] that carries key [k]. *)
Definition lastWithKey (k : K) (l : list V) : option V :=
  last (filter (λ v, key v = k) l).

(** The items of [l] that carry key [k]. *)
Definition withKey (k : K) (l : list V) : list V :=
  filter (λ v, key v = k) l.

(** Every value of the map is stored under its own key. *)
Definition keyed (m : gmap K V) : Prop := ∀ k v, m !! k = Some v → key v = k.
End KeyedMerge.

(** ** Data model

    Modelled from the spec: the records of types.ts, whose source is missing;
    the fields follow the spec's data model and the JSON layout of the
    README. Counts are integers, uptime and v85 rationals. *)

(** The twelve counting fields shared by hourly readings and daily rollups. *)
Record Counts := {
  heavy : Z; car : Z; bike : Z; pedestrian : Z;
  heavy_lft : Z; car_lft : Z; bike_lft : Z; pedestrian_lft : Z;
  heavy_rgt : Z; car_rgt : Z; bike_rgt : Z; pedestrian_rgt : Z
}.

Definition counts_zero : Counts :=
  {| heavy := 0; car := 0; bike := 0; pedestrian := 0;
     heavy_lft := 0; car_lft := 0; bike_lft := 0; pedestrian_lft := 0;
     heavy_rgt := 0; car_rgt := 0; bike_rgt := 0; pedestrian_rgt := 0 |}%Z.

Definition counts_add (a b : Counts) : Counts :=
  {| heavy := heavy a + heavy b; car := car a + car b;
     bike := bike a + bike b; pedestrian := pedestrian a + pedestrian b;
     heavy_lft := heavy_lft a + heavy_lft b; car_lft := car_lft a + car_lft b;
     bike_lft := bike_lft a + bike_lft b;
     pedestrian_lft := pedestrian_lft a + pedestrian_lft b;
     heavy_rgt := heavy_rgt a + heavy_rgt b; car_rgt := car_rgt a + car_rgt b;
     bike_rgt := bike_rgt a + bike_rgt b;
     pedestrian_rgt := pedestrian_rgt a + pedestrian_rgt b |}%Z.

Module TrafficDataPoint.
Record t := {
  date : string;
  hour : nat;
  uptime : Q;
  counts : Counts;
  direction : Z;
  timezone : string;
  v85 : option Q
}.
Definition key (p : t) : ReadingKey := (date p, hour p).
End TrafficDataPoint.

Module DailyEntry.
Record t := {
  date : string;
  totals : Counts;
  uptime : Q;
  hours_covered : nat
}.
End DailyEntry.

Module MonthlyData.
Record t := {
  device_id : string;
  month : string;
  data : list TrafficDataPoint.t;
  lastUpdated : string
}.
End MonthlyData.

Module DailyData.
Record t := {
  device_id : string;
  month : string;
  days : list DailyEntry.t;
  lastUpdated : string
}.
End DailyData.

Module DeviceConfig.
Record t := { id : string; name : string; location : string }.
End DeviceConfig.

Module DeviceMetadata.
Record t := {
  id : string;
  name : string;
  location : string;
  lastUpdated : string;
  totalDataPoints : nat
}.
End DeviceMetadata.

Module CollectionResult.
Record t := {
  deviceId : string;
  success : bool;
  dataPointsCollected : nat;
  lastUpdated : option string;
  error : option string
}.
End CollectionResult.

Module CollectionSummary.
Record t := {
  totalDevices : nat;
  successfulDevices : nat;
  failedDevices : nat;
  results : list CollectionResult.t;
  startTime : string;
  endTime : string
}.
End CollectionSummary.

(** ** DataMerger *)

(** The date parser of the JavaScript runtime: [getTime s] is
    [new Date(s).getTime()], with [None] standing for [NaN] (an unparseable
    date). The pipeline is stated for any parser. *)
Class JsDate := getTime : string → option Z.

(** A parser for the documented date-only form [YYYY-MM-DD], giving
    milliseconds since the epoch at UTC midnight; it serves the worked
    instances. *)
Definition digitVal (c : ascii) : option Z :=
  let n := nat_of_ascii c in
  if (48 <=? n) && (n <=? 57) then Some (Z.of_nat (n - 48)) else None.

Fixpoint digitsVal (acc : Z) (s : string) : option Z :=
  match s with
  | EmptyString => Some acc
  | String c s' =>
      match digitVal c with
      | Some d => digitsVal (10 * acc + d)%Z s'
      | None => None
      end
  end.

Definition daysFromCivil (y m d : Z) : Z :=
  (let y' := if m <=? 2 then y - 1 else y in
   let era := y' / 400 in
   let yoe := y' - era * 400 in
   let mp := if m >? 2 then m - 3 else m + 9 in
   let doy := (153 * mp + 2) / 5 + d - 1 in
   let doe := yoe * 365 + yoe / 4 - yoe / 100 + doy in
   era * 146097 + doe - 719468)%Z.

Definition isoDateTime (s : string) : option Z :=
  if (String.length s =? 10) && (substring 4 1 s =? "-")%string
     && (substring 7 1 s =? "-")%string
  then
    match digitsVal 0 (substring 0 4 s), digitsVal 0 (substring 5 2 s),
          digitsVal 0 (substring 8 2 s) with
    | Some y, Some m, Some d =>
        if ((1 <=? m) && (m <=? 12) && (1 <=? d) && (d <=? 31))%Z
        then Some (daysFromCivil y m d * 86400000)%Z
        else None
    | _, _, _ => None
    end
  else None.

Module DataMerger.
Import TrafficDataPoint.

(** Modelled from the spec: [DataMerger.mergeDataPoints] (the spec's
    [mergeReadings]). The source of [DataMerger.ts] is missing. A map keyed
    by (date, hour) is built from [existing]; every item of [incoming], in
    order, overwrites the entry at its key; all entries are returned sorted
    ascending by (date, hour). *)
Definition mergeReadings (existing incoming : list TrafficDataPoint.t)
  : list TrafficDataPoint.t :=
  mergeByKey TrafficDataPoint.key key_le existing incoming.

(** Modelled from the spec: the call in [Storage.saveMonthlyData] passes the
    device id first; it does not take part in the merge. *)
Definition mergeDataPoints (deviceId : string)
    (existing incoming : list TrafficDataPoint.t) : list TrafficDataPoint.t :=
  mergeReadings existing incoming.

(** Modelled from the spec: the two halves of [merge(X, X) == sort(dedupe(X))]. *)
Definition dedupe (l : list TrafficDataPoint.t) : gmap ReadingKey TrafficDataPoint.t :=
  setAll TrafficDataPoint.key l ∅.
Definition sort (m : gmap ReadingKey TrafficDataPoint.t) : list TrafficDataPoint.t :=
  sortedValues TrafficDataPoint.key key_le m.

(** Modelled from the spec: [DataMerger.mergeDailyEntries], the same
    last-write-wins merge with the date as key, sorted ascending by date. *)
Definition mergeDailyEntries (existing incoming : list DailyEntry.t)
  : list DailyEntry.t :=
  mergeByKey DailyEntry.date str_le existing incoming.

(** [Map.get(k).push(p)], creating the group at the end when [k] is new:
    a JS [Map] iterates in insertion order. *)
Fixpoint groupPush {A} (k : string) (p : A) (groups : list (string * list A))
  : list (string * list A) :=
  match groups with
  | [] => [(k, [p])]
  | (k', ps) :: rest =>
      if (k' =? k)%string then (k', ps ++ [p]) :: rest
      else (k', ps) :: groupPush k p rest
  end.

(** Modelled from the spec: [DataMerger.groupByMonth]. The month key is the
    first 7 characters of [date]; order within a group is the order of
    arrival; a reading whose date does not parse is skipped. *)
Definition groupByMonth `{JsDate} (readings : list TrafficDataPoint.t)
  : list (string * list TrafficDataPoint.t) :=
  foldl (λ groups p,
           match getTime (date p) with
           | Some _ => groupPush (substring 0 7 (date p)) p groups
           | None => groups
           end) [] readings.

(** The sum of the sizes of the groups. *)
Definition groupSizes {A} (groups : list (string * list A)) : nat :=
  sum_list ((λ g, length g.2) <$> groups).

Definition sumQ (l : list Q) : Q := foldr Qplus 0%Q l.

(** One day's rollup from the readings of that day (a non-empty list). *)
Definition dailyEntryOf (day : string) (ps : list TrafficDataPoint.t) : DailyEntry.t :=
  {| DailyEntry.date := day;
     DailyEntry.totals := foldl counts_add counts_zero (counts <$> ps);
     DailyEntry.uptime :=
       Qred (sumQ (uptime <$> ps) / inject_Z (Z.of_nat (length ps)));
     DailyEntry.hours_covered := length ps |}.

(** Modelled from the spec: [DataMerger.buildDailyEntries]. Readings are
    grouped by [date] (unparseable dates skipped); per date the counting
    fields are summed, the hours counted and the uptime averaged; one entry
    per date, ascending. *)
Definition buildDailyEntries `{JsDate} (readings : list TrafficDataPoint.t)
  : list DailyEntry.t :=
  let groups :=
    foldl (λ groups p,
             match getTime (date p) with
             | Some _ => groupPush (date p) p groups
             | None => groups
             end) [] readings in
  merge_sort (λ a b, str_le (DailyEntry.date a) (DailyEntry.date b))
             ((λ g, dailyEntryOf g.1 g.2) <$> groups).
End DataMerger.

(** ** Errors, the environment, and the monad of effectful code *)

(** The exceptions that travel through the pipeline. *)
Inductive JsError :=
| ErrnoException (code message : string)                 (* NodeJS.ErrnoException *)
| TelraamApiError (statusCode : option nat) (message : string)
| Error (message : string).

Definition errMessage (e : JsError) : string :=
  match e with
  | ErrnoException _ m | TelraamApiError _ m | Error m => m
  end.

Inductive Outcome (A : Type) :=
| Ok (a : A)
| Throw (e : JsError).
Arguments Ok {A} a.
Arguments Throw {A} e.

(** What a JSON file on disk holds. *)
Inductive Json :=
| JMonthly (m : MonthlyData.t)
| JDaily (d : DailyData.t)
| JDevices (l : list DeviceMetadata.t)
| JText (s : string).

Inductive FsOp := OpRead | OpWrite | OpDelete | OpList.

(** The requested window: the instant of the request and the days to go back. *)
Record DateRange := { rangeEnd : string; rangeDays : nat }.

Inductive Event :=
| EvSummary (s : CollectionSummary.t)     (* logSummary(summary) *)
| EvDelay (ms : nat).                     (* await this.delay(ms) *)

(** The environment of a run: the file system with the operations set to
    fail, the clock, the remote API as a script of responses (the n-th request
    for a device and a window), the landing page document and the trace of
    observable events. Modelled from the spec: the API client
    (telraamClient.ts) and the HTML generator, whose sources are missing, are
    external collaborators and appear here by what they return. *)
Record World := {
  files : gmap string Json;
  emptyDirs : gset string;
  faulty : FsOp → string → bool;
  ticks : nat;
  isoString : nat → string;
  responses : nat → string → DateRange → Outcome (list TrafficDataPoint.t);
  calls : nat;
  landingHtml : string;
  trace : list Event
}.

Definition setFiles (f : gmap string Json) (w : World) : World :=
  {| files := f; emptyDirs := emptyDirs w; faulty := faulty w; ticks := ticks w;
     isoString := isoString w; responses := responses w; calls := calls w;
     landingHtml := landingHtml w; trace := trace w |}.

Definition setTicks (n : nat) (w : World) : World :=
  {| files := files w; emptyDirs := emptyDirs w; faulty := faulty w; ticks := n;
     isoString := isoString w; responses := responses w; calls := calls w;
     landingHtml := landingHtml w; trace := trace w |}.

Definition setCalls (n : nat) (w : World) : World :=
  {| files := files w; emptyDirs := emptyDirs w; faulty := faulty w; ticks := ticks w;
     isoString := isoString w; responses := responses w; calls := n;
     landingHtml := landingHtml w; trace := trace w |}.

Definition setTrace (t : list Event) (w : World) : World :=
  {| files := files w; emptyDirs := emptyDirs w; faulty := faulty w; ticks := ticks w;
     isoString := isoString w; responses := responses w; calls := calls w;
     landingHtml := landingHtml w; trace := t |}.

(** The API always fails, always answers, or always answers with no reading
    for a device. *)
Definition alwaysFails (w : World) (deviceId : string) : Prop :=
  ∀ n range, ∃ e, responses w n deviceId range = Throw e.

Definition alwaysAnswers (w : World) (deviceId : string) : Prop :=
  ∀ n range, ∃ dataPoints, responses w n deviceId range = Ok dataPoints.

Definition alwaysEmpty (w : World) (deviceId : string) : Prop :=
  ∀ n range, responses w n deviceId range = Ok [].

(** No file operation is set to fail. *)
Definition noFaults (w : World) : Prop := ∀ op p, faulty w op p = false.

(** The parts of the environment that no operation of the pipeline changes. *)
Definition sameEnv (w w' : World) : Prop :=
  faulty w' = faulty w ∧ responses w' = responses w ∧ isoString w' = isoString w
  ∧ landingHtml w' = landingHtml w ∧ emptyDirs w' = emptyDirs w.

(** What the storage operations leave alone: the environment, the count of
    API calls and the trace. *)
Definition quiet (w w' : World) : Prop :=
  sameEnv w w' ∧ calls w' = calls w ∧ trace w' = trace w.

Definition M (A : Type) : Type := World → Outcome A * World.

Definition ret {A} (a : A) : M A := λ w, (Ok a, w).

Definition throw {A} (e : JsError) : M A := λ w, (Throw e, w).

Definition bind {A B} (c : M A) (k : A → M B) : M B :=
  λ w, match c w with
       | (Ok a, w') => k a w'
       | (Throw e, w') => (Throw e, w')
       end.

(** [try { body } catch (error) { handler }] *)
Definition tryCatch {A} (body : M A) (handler : JsError → M A) : M A :=
  λ w, match body w with
       | (Ok a, w') => (Ok a, w')
       | (Throw e, w') => handler e w'
       end.

Declare Scope js_scope.
Delimit Scope js_scope with js.
Notation "x <- c1 ;; c2" := (bind c1 (λ x, c2))
  (at level 100, c1 at next level, right associativity) : js_scope.
Notation "c1 ;;; c2" := (bind c1 (λ _, c2))
  (at level 100, right associativity) : js_scope.
Local Open Scope js_scope.

(** [for (const x of l) { acc = body(acc, x) }] with effects. *)
Fixpoint forEach {A B} (body : B → A → M B) (l : list A) (acc : B) : M B :=
  match l with
  | [] => ret acc
  | x :: rest => acc' <- body acc x ;; forEach body rest acc'
  end.

(** [new Date().toISOString()]: reads the clock, which then moves on. *)
Definition nowISO : M string :=
  λ w, (Ok (isoString w (ticks w)), setTicks (S (ticks w)) w).

Definition emit (e : Event) : M unit :=
  λ w, (Ok tt, setTrace (trace w ++ [e]) w).

(** ** FileService *)

Module FileService.
Definition endsWith (suffix s : string) : bool :=
  let n := String.length s in
  let m := String.length suffix in
  (m <=? n) && (substring (n - m) m s =? suffix)%string.

Definition ioError (context : string) : JsError :=
  ErrnoException "EIO" ("I/O error while " +:+ context).

(** Modelled from the spec: [FileService.readJson], whose source is
    missing. An absent file reads as [null] ([None]); a faulty path raises. *)
Definition readJson (filePath context : string) : M (option Json) :=
  λ w, if faulty w OpRead filePath then (Throw (ioError context), w)
       else (Ok (files w !! filePath), w).

(** Modelled from the spec: [FileService.writeJson], a whole-file replace
    that either happens or raises. *)
Definition writeJson (filePath : string) (content : Json) (context : string) : M unit :=
  λ w, if faulty w OpWrite filePath then (Throw (ioError context), w)
       else (Ok tt, setFiles (<[filePath := content]> (files w)) w).

(** Modelled from the spec: [FileService.writeText]. *)
Definition writeText (filePath text context : string) : M unit :=
  writeJson filePath (JText text) context.

(** Modelled from the spec: [FileService.deleteFile]; deleting an absent
    file is not an error. *)
Definition deleteFile (filePath : string) : M unit :=
  λ w, if faulty w OpDelete filePath
       then (Throw (ioError ("deleting " +:+ filePath)), w)
       else (Ok tt, setFiles (delete filePath (files w)) w).

Definition under (dir p : string) : bool := String.prefix (dir +:+ "/") p.

(** The stored paths below [dir], at any depth. *)
Definition pathsUnder (dir : string) (w : World) : list string :=
  filter (λ p, under dir p = true) (map_to_list (files w)).*1.

(** A directory exists when it holds a file, at any depth, or was created
    empty. *)
Definition dirExists (dir : string) (w : World) : bool :=
  negb (bool_decide (pathsUnder dir w = [])) || bool_decide (dir ∈ emptyDirs w).

Definition jsonFilesUnder (dir : string) (w : World) : list string :=
  filter (λ p, endsWith ".json" p = true) (pathsUnder dir w).

(** Modelled from the spec: [FileService.collectJsonFiles], the recursive
    listing of the [.json] files below a directory. Listing a directory
    that does not exist raises [ENOENT]. *)
Definition collectJsonFiles (dir : string) : M (list string) :=
  λ w, if dirExists dir w then
         if faulty w OpList dir then (Throw (ioError ("listing " +:+ dir)), w)
         else (Ok (jsonFilesUnder dir w), w)
       else (Throw (ErrnoException "ENOENT"
                      ("no such file or directory, scandir " +:+ dir)), w).
End FileService.

(** ** PathManager *)

Module FILESYSTEM.
Definition DATA_DIR := "./docs/data".
Definition DEVICES_FILE := "devices.json".
Definition DEVICE_DIR_PREFIX := "device_".
Definition HOURLY_DIR := "hourly".
Definition DAILY_DIR := "daily".
End FILESYSTEM.

Module PathManager.
(** The path as its segments are written, joined by the separator. Node's
    [path.join] also brings the result to its normal form: that function is
    [Path.join] further down, and [PathManagerNormal] is this module with
    it. The files of the model are keyed by the written path. *)
Definition join (segments : list string) : string := String.concat "/" segments.

Definition getDeviceDirectory (dataDir deviceId : string) : string :=
  join [dataDir; FILESYSTEM.DEVICE_DIR_PREFIX +:+ deviceId].

Definition getHourlyDirectory (dataDir deviceId : string) : string :=
  join [getDeviceDirectory dataDir deviceId; FILESYSTEM.HOURLY_DIR].

Definition getHourlyFilePath (dataDir deviceId month : string) : string :=
  join [getDeviceDirectory dataDir deviceId; FILESYSTEM.HOURLY_DIR; month +:+ ".json"].

Definition getDailyFilePath (dataDir deviceId month : string) : string :=
  join [getDeviceDirectory dataDir deviceId; FILESYSTEM.DAILY_DIR; month +:+ ".json"].

Definition getLegacyMonthlyFilePath (dataDir deviceId month : string) : string :=
  join [getDeviceDirectory dataDir deviceId; month +:+ ".json"].

Definition getDeviceMetadataPath (dataDir : string) : string :=
  join [dataDir; FILESYSTEM.DEVICES_FILE].

(** The parent of the data directory as it is written. The source resolves
    it against the working directory with [path.resolve]: see
    [PathManagerNormal.getDocsRoot]. *)
Definition getDocsRoot (dataDir : string) : string := join [dataDir; ".."].

Definition getLandingPagePath (dataDir : string) : string :=
  join [getDocsRoot dataDir; "index.html"].

Definition getDataDirectory (dataDir : string) : string := dataDir.
End PathManager.

(** ** Storage (src/services/Storage.ts) *)

Definition isFileSystemError (e : JsError) : bool :=
  match e with
  | ErrnoException _ _ => true
  | _ => false
  end.

Definition errCode (e : JsError) : option string :=
  match e with
  | ErrnoException c _ => Some c
  | _ => None
  end.

Module Storage.
Import FileService.

Definition saveDeviceMetadata (dataDir : string) (devices : list DeviceMetadata.t)
  : M unit :=
  let filePath := PathManager.getDeviceMetadataPath dataDir in
  writeJson filePath (JDevices devices) "saving device metadata".

(** The result is the parsed document as it is; only a well-formed
    devices.json is an array of metadata records. *)
Definition loadDeviceMetadata (dataDir : string) : M Json :=
  let filePath := PathManager.getDeviceMetadataPath dataDir in
  data <- readJson filePath "loading device metadata" ;;
  match data with
  | None => ret (JDevices [])
  | Some data => ret data
  end.

Definition generateLandingPage (dataDir : string) : M unit :=
  html <- (λ w, (Ok (landingHtml w), w)) ;;
  let outputPath := PathManager.getLandingPagePath dataDir in
  let dataDir' := PathManager.getDataDirectory dataDir in
  jsonFiles <- collectJsonFiles dataDir' ;;
  writeText outputPath html "writing landing page".

Definition loadMonthlyData (dataDir deviceId month : string) : M (option Json) :=
  let primaryPath := PathManager.getHourlyFilePath dataDir deviceId month in
  let legacyPath := PathManager.getLegacyMonthlyFilePath dataDir deviceId month in
  primary <- readJson primaryPath
               ("loading monthly data for device " +:+ deviceId +:+ ", month " +:+ month) ;;
  match primary with
  | Some p => ret (Some p)
  | None =>
      readJson legacyPath
        ("loading monthly data for device " +:+ deviceId +:+ ", month " +:+ month)
  end.

(** The two-tier lookup in the spec's words: the current location, then
    the legacy location, returning the first hit. *)
Definition twoTierLookup (dataDir deviceId month : string) (w : World) : option Json :=
  match files w !! PathManager.getHourlyFilePath dataDir deviceId month with
  | Some current => Some current
  | None => files w !! PathManager.getLegacyMonthlyFilePath dataDir deviceId month
  end.

Definition removeLegacyMonthlyFile (dataDir deviceId month newPath : string) : M unit :=
  let legacyPath := PathManager.getLegacyMonthlyFilePath dataDir deviceId month in
  if decide (legacyPath = newPath) then ret tt
  else deleteFile legacyPath.

(** [existingData?.data || []] *)
Definition dataOrEmpty (existing : option Json) : list TrafficDataPoint.t :=
  match existing with
  | Some (JMonthly m) => MonthlyData.data m
  | _ => []
  end.

(** [existing?.days ?? []] *)
Definition daysOrEmpty (existing : option Json) : list DailyEntry.t :=
  match existing with
  | Some (JDaily d) => DailyData.days d
  | _ => []
  end.

Definition saveMonthlyData (dataDir deviceId : string) (monthlyData : MonthlyData.t)
  : M unit :=
  let filePath :=
    PathManager.getHourlyFilePath dataDir deviceId (MonthlyData.month monthlyData) in
  tryCatch
    (existingData <- loadMonthlyData dataDir deviceId (MonthlyData.month monthlyData) ;;
     let mergedData :=
       DataMerger.mergeDataPoints deviceId (dataOrEmpty existingData)
         (MonthlyData.data monthlyData) in
     now <- nowISO ;;
     let updatedMonthlyData :=
       {| MonthlyData.device_id := deviceId;
          MonthlyData.month := MonthlyData.month monthlyData;
          MonthlyData.data := mergedData;
          MonthlyData.lastUpdated := now |} in
     writeJson filePath (JMonthly updatedMonthlyData)
       ("saving monthly data for device " +:+ deviceId) ;;;
     removeLegacyMonthlyFile dataDir deviceId (MonthlyData.month monthlyData) filePath)
    (λ error, throw (Error ("Failed to save monthly data: " +:+ errMessage error))).

Definition loadDailyData (dataDir deviceId month : string) : M (option Json) :=
  let filePath := PathManager.getDailyFilePath dataDir deviceId month in
  readJson filePath
    ("loading daily data for device " +:+ deviceId +:+ ", month " +:+ month).

Definition saveDailyData (dataDir deviceId month : string) (entries : list DailyEntry.t)
  : M unit :=
  let filePath := PathManager.getDailyFilePath dataDir deviceId month in
  tryCatch
    (existing <- loadDailyData dataDir deviceId month ;;
     let merged := DataMerger.mergeDailyEntries (daysOrEmpty existing) entries in
     now <- nowISO ;;
     let dailyData :=
       {| DailyData.device_id := deviceId;
          DailyData.month := month;
          DailyData.days := merged;
          DailyData.lastUpdated := now |} in
     writeJson filePath (JDaily dailyData)
       ("saving daily data for device " +:+ deviceId +:+ ", month " +:+ month))
    (λ error, throw (Error ("Failed to save daily data: " +:+ errMessage error))).

Definition groupDataByMonth `{JsDate} (data : list TrafficDataPoint.t)
  : list (string * list TrafficDataPoint.t) :=
  DataMerger.groupByMonth data.

(** [if (monthlyData?.data) total += monthlyData.data.length] *)
Definition dataLength (monthlyData : option Json) : nat :=
  match monthlyData with
  | Some (JMonthly m) => length (MonthlyData.data m)
  | _ => 0
  end.

Definition getTotalHourlyDataPoints (dataDir deviceId : string) : M nat :=
  let hourlyDir := PathManager.getHourlyDirectory dataDir deviceId in
  listing <-
    tryCatch (files <- collectJsonFiles hourlyDir ;; ret (Some files))
      (λ error,
         if isFileSystemError error && bool_decide (errCode error = Some "ENOENT")
         then ret None                                   (* return 0 *)
         else throw error) ;;
  match listing with
  | None => ret 0
  | Some files =>
      forEach
        (λ total filePath,
           monthlyData <- readJson filePath
             ("loading monthly data for device " +:+ deviceId
                +:+ " while computing totals") ;;
           ret (total + dataLength monthlyData))
        files 0
  end.

Definition buildDailyEntries `{JsDate} (points : list TrafficDataPoint.t)
  : list DailyEntry.t :=
  DataMerger.buildDailyEntries points.
End Storage.

(** ** DataCollector (src/collector.ts) *)

Module CollectorConfig.
Record t := {
  dataDir : string;                   (* the Storage instance *)
  devices : list DeviceConfig.t;
  daysToFetch : nat;
  requestDelayMs : nat
}.
End CollectorConfig.

Module DataCollector.
Import CollectorConfig.

(** Modelled from the spec: [calculateDateRange] of utils/datetime, whose
    source is missing: the window ends now and reaches [days] days back. *)
Definition calculateDateRange (days : nat) : M DateRange :=
  now <- nowISO ;; ret {| rangeEnd := now; rangeDays := days |}.

(** [this.client.fetchTrafficData]: the next response of the remote API. *)
Definition fetchTrafficData (deviceId : string) (dateRange : DateRange)
  : M (list TrafficDataPoint.t) :=
  λ w, (responses w (calls w) deviceId dateRange, setCalls (S (calls w)) w).

(** The response the API gives to the next request, made for [device]. *)
Definition nextResponse (cfg : t) (device : DeviceConfig.t) (w : World)
  : Outcome (list TrafficDataPoint.t) :=
  responses w (calls w) (DeviceConfig.id device)
    {| rangeEnd := isoString w (ticks w); rangeDays := daysToFetch cfg |}.

Definition getLatestDataTimestamp `{JsDate} (dataPoints : list TrafficDataPoint.t)
  : option string :=
  foldl
    (λ (latest : option string) point,
       let date := TrafficDataPoint.date point in
       if decide (date = "") then latest
       else match getTime date with
            | None => latest
            | Some pointDate =>
                match latest with
                | None => Some date
                | Some l =>
                    if decide (l = "") then Some date
                    else match getTime l with
                         | None => Some date
                         | Some latestDate =>
                             if (pointDate >? latestDate)%Z then Some date else latest
                         end
                end
            end)
    None dataPoints.

Definition formatError (error : JsError) : string :=
  match error with
  | TelraamApiError statusCode message =>
      "API Error ("
        +:+ match statusCode with
            | Some (S n) => pretty (S n)
            | _ => "unknown"                   (* statusCode || 'unknown' *)
            end
        +:+ "): " +:+ message
  | ErrnoException _ message | Error message => message
  end.

Definition saveDeviceData `{JsDate} (cfg : t) (deviceId : string)
    (dataPoints : list TrafficDataPoint.t) : M nat :=
  let monthlyDataMap := Storage.groupDataByMonth dataPoints in
  forEach
    (λ totalPoints '(month, monthData),
       now <- nowISO ;;
       let monthlyData :=
         {| MonthlyData.device_id := deviceId;
            MonthlyData.month := month;
            MonthlyData.data := monthData;
            MonthlyData.lastUpdated := now |} in
       Storage.saveMonthlyData (dataDir cfg) deviceId monthlyData ;;;
       let dailyEntries := Storage.buildDailyEntries monthData in
       Storage.saveDailyData (dataDir cfg) deviceId month dailyEntries ;;;
       ret (totalPoints + length monthData))
    monthlyDataMap 0.

Definition collectSingleDevice `{JsDate} (cfg : t) (device : DeviceConfig.t)
  : M CollectionResult.t :=
  tryCatch
    (dateRange <- calculateDateRange (daysToFetch cfg) ;;
     dataPoints <- fetchTrafficData (DeviceConfig.id device) dateRange ;;
     let lastDataTimestamp := getLatestDataTimestamp dataPoints in
     if length dataPoints =? 0 then
       ret {| CollectionResult.deviceId := DeviceConfig.id device;
              CollectionResult.success := true;
              CollectionResult.dataPointsCollected := 0;
              CollectionResult.lastUpdated := lastDataTimestamp;
              CollectionResult.error := None |}
     else
       totalPoints <- saveDeviceData cfg (DeviceConfig.id device) dataPoints ;;
       ret {| CollectionResult.deviceId := DeviceConfig.id device;
              CollectionResult.success := true;
              CollectionResult.dataPointsCollected := totalPoints;
              CollectionResult.lastUpdated := lastDataTimestamp;
              CollectionResult.error := None |})
    (λ error,
       let errorMessage := formatError error in
       ret {| CollectionResult.deviceId := DeviceConfig.id device;
              CollectionResult.success := false;
              CollectionResult.dataPointsCollected := 0;
              CollectionResult.lastUpdated := None;
              CollectionResult.error := Some errorMessage |}).

Definition createSummary (results : list CollectionResult.t) (startTime endTime : string)
  : CollectionSummary.t :=
  let successfulDevices := length (filter (λ r, CollectionResult.success r = true) results) in
  let failedDevices := length (filter (λ r, CollectionResult.success r = false) results) in
  {| CollectionSummary.totalDevices := length results;
     CollectionSummary.successfulDevices := successfulDevices;
     CollectionSummary.failedDevices := failedDevices;
     CollectionSummary.results := results;
     CollectionSummary.startTime := startTime;
     CollectionSummary.endTime := endTime |}.

Definition logSummary (summary : CollectionSummary.t) : M unit :=
  emit (EvSummary summary).

Definition delay (ms : nat) : M unit := emit (EvDelay ms).

(** [new Map(existingMetadata.map((meta) => [meta.id, meta]))]: a later
    entry with the same id replaces an earlier one. *)
Definition metadataById (existingMetadata : list DeviceMetadata.t)
  : gmap string DeviceMetadata.t :=
  setAll DeviceMetadata.id existingMetadata ∅.

(** The body of the loop over [this.devices], from index [i] on; [results]
    and [deviceMetadata] are the two arrays the loop pushes to. *)
Fixpoint deviceLoop `{JsDate} (cfg : t)
    (previousMetadataById : gmap string DeviceMetadata.t)
    (remaining : list DeviceConfig.t)
    (acc : list CollectionResult.t * list DeviceMetadata.t)
  : M (list CollectionResult.t * list DeviceMetadata.t) :=
  match remaining with
  | [] => ret acc
  | device :: rest =>
      result <- collectSingleDevice cfg device ;;
      let results := acc.1 ++ [result] in
      totalStoredPoints <-
        Storage.getTotalHourlyDataPoints (dataDir cfg) (DeviceConfig.id device) ;;
      lastUpdated <-
        match CollectionResult.lastUpdated result with
        | Some t => ret t
        | None =>
            match previousMetadataById !! DeviceConfig.id device with
            | Some meta => ret (DeviceMetadata.lastUpdated meta)
            | None => nowISO
            end
        end ;;
      let deviceMetadata :=
        acc.2 ++ [ {| DeviceMetadata.id := DeviceConfig.id device;
                      DeviceMetadata.name := DeviceConfig.name device;
                      DeviceMetadata.location := DeviceConfig.location device;
                      DeviceMetadata.lastUpdated := lastUpdated;
                      DeviceMetadata.totalDataPoints := totalStoredPoints |} ] in
      (if negb (length rest =? 0) && (0 <? requestDelayMs cfg)
       then delay (requestDelayMs cfg) else ret tt) ;;;
      deviceLoop cfg previousMetadataById rest (results, deviceMetadata)
  end.

(** The result recorded for a device, and the metadata record written for
    it, in a run that starts in [w]. *)
Definition resultFor (w : World) (device : DeviceConfig.t) (res : CollectionResult.t)
  : Prop :=
  CollectionResult.deviceId res = DeviceConfig.id device
  ∧ (alwaysFails w (DeviceConfig.id device) → CollectionResult.success res = false)
  ∧ (noFaults w → alwaysAnswers w (DeviceConfig.id device) →
     CollectionResult.success res = true).

Definition metadataFor (w : World) (previous : gmap string DeviceMetadata.t)
    (device : DeviceConfig.t) (meta : DeviceMetadata.t) : Prop :=
  DeviceMetadata.id meta = DeviceConfig.id device
  ∧ DeviceMetadata.name meta = DeviceConfig.name device
  ∧ DeviceMetadata.location meta = DeviceConfig.location device
  ∧ (alwaysEmpty w (DeviceConfig.id device) →
     ∀ prior, previous !! DeviceConfig.id device = Some prior →
              DeviceMetadata.lastUpdated meta = DeviceMetadata.lastUpdated prior).

(** The metadata array stored before the run, if devices.json is absent or
    well formed. *)
Definition priorMetadata (dataDir : string) (w : World) : option (list DeviceMetadata.t) :=
  match files w !! PathManager.getDeviceMetadataPath dataDir with
  | None => Some []
  | Some (JDevices l) => Some l
  | Some _ => None
  end.

Definition failureMessage (failedDevices : nat) : string :=
  "Collection completed with " +:+ pretty failedDevices +:+ " error(s)".

Definition collectAllDevices `{JsDate} (cfg : t) : M CollectionSummary.t :=
  startTime <- nowISO ;;
  existingMetadata <- Storage.loadDeviceMetadata (dataDir cfg) ;;
  match existingMetadata with
  | JDevices existingMetadata =>
      let previousMetadataById := metadataById existingMetadata in
      collected <- deviceLoop cfg previousMetadataById (devices cfg) ([], []) ;;
      let '(results, deviceMetadata) := collected in
      Storage.saveDeviceMetadata (dataDir cfg) deviceMetadata ;;;
      Storage.generateLandingPage (dataDir cfg) ;;;
      endTime <- nowISO ;;
      let summary := createSummary results startTime endTime in
      logSummary summary ;;;
      if 0 <? CollectionSummary.failedDevices summary
      then throw (Error (failureMessage (CollectionSummary.failedDevices summary)))
      else ret summary
  | _ => throw (Error "existingMetadata.map is not a function")
  end.
End DataCollector.

(** ** Sample data for worked instances *)

Module Sample.
Definition reading (date : string) (hour : nat) (car : Z) : TrafficDataPoint.t :=
  {| TrafficDataPoint.date := date;
     TrafficDataPoint.hour := hour;
     TrafficDataPoint.uptime := 1%Q;
     TrafficDataPoint.counts :=
       {| heavy := 0; car := car; bike := 0; pedestrian := 0;
          heavy_lft := 0; car_lft := 0; bike_lft := 0; pedestrian_lft := 0;
          heavy_rgt := 0; car_rgt := 0; bike_rgt := 0; pedestrian_rgt := 0 |}%Z;
     TrafficDataPoint.direction := 1%Z;
     TrafficDataPoint.timezone := "Europe/Berlin";
     TrafficDataPoint.v85 := None |}.

Definition dailyEntry (date : string) (car : Z) (hours : nat) : DailyEntry.t :=
  {| DailyEntry.date := date;
     DailyEntry.totals :=
       {| heavy := 0; car := car; bike := 0; pedestrian := 0;
          heavy_lft := 0; car_lft := 0; bike_lft := 0; pedestrian_lft := 0;
          heavy_rgt := 0; car_rgt := 0; bike_rgt := 0; pedestrian_rgt := 0 |}%Z;
     DailyEntry.uptime := 1%Q;
     DailyEntry.hours_covered := hours |}.

Definition monthly (deviceId month : string) (data : list TrafficDataPoint.t)
  : MonthlyData.t :=
  {| MonthlyData.device_id := deviceId; MonthlyData.month := month;
     MonthlyData.data := data; MonthlyData.lastUpdated := "2024-06-02T02:00:00.000Z" |}.

Definition device (id : string) : DeviceConfig.t :=
  {| DeviceConfig.id := id;
     DeviceConfig.name := "Telraam " +:+ id;
     DeviceConfig.location := "Karlsruhe, Germany" |}.

Definition config (ids : list string) : CollectorConfig.t :=
  {| CollectorConfig.dataDir := FILESYSTEM.DATA_DIR;
     CollectorConfig.devices := device <$> ids;
     CollectorConfig.daysToFetch := 3;
     CollectorConfig.requestDelayMs := 2000 |}.

Definition healthy : FsOp → string → bool := λ _ _, false.

Definition world (stored : gmap string Json) (faults : FsOp → string → bool)
    (api : string → Outcome (list TrafficDataPoint.t)) : World :=
  {| files := stored; emptyDirs := ∅; faulty := faults; ticks := 0;
     isoString := λ n, "run+" +:+ pretty n;
     responses := λ _ deviceId _, api deviceId;
     calls := 0; landingHtml := "<!DOCTYPE html>"; trace := [] |}.

(** Three readings over two months. *)
Definition batch : list TrafficDataPoint.t :=
  [reading "2024-06-02" 1 1; reading "2024-06-01" 3 2; reading "2024-05-31" 23 4].

(** Device B is down; every other device answers with [batch]. *)
Definition apiWithBDown (deviceId : string) : Outcome (list TrafficDataPoint.t) :=
  if decide (deviceId = "B") then Throw (TelraamApiError (Some 503) "Service Unavailable")
  else Ok batch.

(** Device A has nothing new; every other device answers with [batch]. *)
Definition apiWithAQuiet (deviceId : string) : Outcome (list TrafficDataPoint.t) :=
  if decide (deviceId = "A") then Ok [] else Ok batch.

(** One of the two readings carries a date that does not parse. *)
Definition apiWithBadDate (deviceId : string) : Outcome (list TrafficDataPoint.t) :=
  Ok [reading "not-a-date" 0 1; reading "2024-06-01" 0 1].

Definition priorDevices : list DeviceMetadata.t :=
  [ {| DeviceMetadata.id := "A"; DeviceMetadata.name := "Telraam A";
       DeviceMetadata.location := "Karlsruhe, Germany";
       DeviceMetadata.lastUpdated := "2024-05-30";
       DeviceMetadata.totalDataPoints := 48 |} ].

(** The metadata file cannot be written. *)
Definition metadataReadOnly (op : FsOp) (p : string) : bool :=
  match op with
  | OpWrite => bool_decide (p = PathManager.getDeviceMetadataPath FILESYSTEM.DATA_DIR)
  | _ => false
  end.

(** Two monthly files of device A, of three and two readings. *)
Definition twoMonths : gmap string Json :=
  <[PathManager.getHourlyFilePath FILESYSTEM.DATA_DIR "A" "2024-05" :=
      JMonthly (monthly "A" "2024-05"
                  [reading "2024-05-30" 7 5; reading "2024-05-30" 8 6;
                   reading "2024-05-31" 23 4])]>
    (<[PathManager.getHourlyFilePath FILESYSTEM.DATA_DIR "A" "2024-06" :=
         JMonthly (monthly "A" "2024-06"
                     [reading "2024-06-01" 3 2; reading "2024-06-02" 1 1])]> ∅).

(** A month of device A still stored at the legacy location. *)
Definition legacyOnly : gmap string Json :=
  <[PathManager.getLegacyMonthlyFilePath FILESYSTEM.DATA_DIR "A" "2024-06" :=
      JMonthly (monthly "A" "2024-06"
                  [reading "2024-06-01" 3 2; reading "2024-06-02" 1 1])]> ∅.
End Sample.



(** ** Further definitions: the reducer of the latest timestamp *)

(** A date that [getLatestDataTimestamp] takes into account: not empty, and
    parsed by the runtime. *)
Definition usableDate `{JsDate} (d : string) : Prop := d ≠ "" ∧ is_Some (getTime d).

(** The callback that [getLatestDataTimestamp] passes to [reduce]. *)
Definition latestStep `{JsDate} (latest : option string) (point : TrafficDataPoint.t)
  : option string :=
  let date := TrafficDataPoint.date point in
  if decide (date = "") then latest
  else match getTime date with
       | None => latest
       | Some pointDate =>
           match latest with
           | None => Some date
           | Some l =>
               if decide (l = "") then Some date
               else match getTime l with
                    | None => Some date
                    | Some latestDate =>
                        if (pointDate >? latestDate)%Z then Some date else latest
                    end
           end
       end.

(** ** Further definitions: where a computation may write *)

(** The three files of a device for a month, as [PathManager] names them:
    what a save of that month may write or remove. *)
Definition monthFiles (dataDir deviceId month : string) : list string :=
  [ PathManager.getHourlyFilePath dataDir deviceId month;
    PathManager.getDailyFilePath dataDir deviceId month;
    PathManager.getLegacyMonthlyFilePath dataDir deviceId month ].

(** Every path that is not written as a file of the device for one of
    [months] holds in [w'] what it held in [w]. *)
Definition onlyMonths (dataDir deviceId : string) (months : list string)
    (w w' : World) : Prop :=
  ∀ p, (∀ month, month ∈ months → p ∉ monthFiles dataDir deviceId month) →
       files w' !! p = files w !! p.

(** The number of pauses a loop over [n] devices makes: one between two
    consecutive devices when [requestDelayMs] is positive, none otherwise. *)
Definition pauses (cfg : CollectorConfig.t) (n : nat) : nat :=
  if 0 <? CollectorConfig.requestDelayMs cfg then n - 1 else 0.

(** ** JavaScript numbers and strings, as far as the configuration uses them *)

(** A [number]: NaN, an infinity, or a finite value. The finite values of
    IEEE 754 doubles are rationals; the two zeros are not told apart, which
    no comparison below does either. *)
Inductive JsNumber :=
  | NaN
  | Infinity (negative : bool)
  | Finite (q : Q).

Definition ofZ (z : Z) : JsNumber := Finite (inject_Z z).

(** [Number.isInteger] and [Number.isFinite]. *)
Definition isInteger (n : JsNumber) : bool :=
  match n with
  | Finite q => (Qnum q mod Zpos (Qden q) =? 0)%Z
  | _ => false
  end.

Definition isFinite (n : JsNumber) : bool :=
  match n with
  | Finite _ => true
  | _ => false
  end.

(** [a < b]; [a > b] is [numLt b a]. A comparison with NaN is false. *)
Definition numLt (a b : JsNumber) : bool :=
  match a, b with
  | NaN, _ | _, NaN => false
  | Infinity true, Infinity true => false
  | Infinity true, _ => true
  | _, Infinity true => false
  | Infinity false, _ => false
  | Finite _, Infinity false => true
  | Finite p, Finite q => negb (Qle_bool q p)
  end.

(** [Math.max] and [Math.min] of two numbers. *)
Definition mathMax (a b : JsNumber) : JsNumber :=
  match a, b with
  | NaN, _ | _, NaN => NaN
  | _, _ => if numLt a b then b else a
  end.

Definition mathMin (a b : JsNumber) : JsNumber :=
  match a, b with
  | NaN, _ | _, NaN => NaN
  | _, _ => if numLt b a then b else a
  end.

(** The number is an integer between [lo] and [hi]. *)
Definition integerIn (lo hi : Z) (n : JsNumber) : Prop :=
  ∃ q z, n = Finite q ∧ (q == inject_Z z)%Q ∧ (lo ≤ z ≤ hi)%Z.

(** [Number.parseInt(s, 10)]: NaN, an infinity when the digits overflow,
    or else an integer. *)
Class JsParseInt := {
  parseInt : string → JsNumber;
  parseInt_integer : ∀ s q, parseInt s = Finite q → ∃ z, (q == inject_Z z)%Q
}.

(** Strings are kept as UTF-8 byte strings. The white space and the line
    terminators that [String.prototype.trim] removes, each as its encoding:
    TAB, LF, VT, FF, CR, SP, U+00A0, U+1680, U+2000 to U+200A, U+2028,
    U+2029, U+202F, U+205F, U+3000 and U+FEFF. *)
Definition utf8 (bytes : list nat) : string :=
  string_of_list_ascii (ascii_of_nat <$> bytes).

Definition whiteSpace : list string :=
  utf8 <$>
    [ [9]; [10]; [11]; [12]; [13]; [32]; [194; 160]; [225; 154; 128];
      [226; 128; 128]; [226; 128; 129]; [226; 128; 130]; [226; 128; 131];
      [226; 128; 132]; [226; 128; 133]; [226; 128; 134]; [226; 128; 135];
      [226; 128; 136]; [226; 128; 137]; [226; 128; 138];
      [226; 128; 168]; [226; 128; 169]; [226; 128; 175]; [226; 129; 159];
      [227; 128; 128]; [239; 187; 191] ].

(** Removes the encodings in [patterns] from the front of [s], at most
    [fuel] of them; with the length of [s] as fuel, all of them. *)
Fixpoint dropLeading (patterns : list string) (fuel : nat) (s : string) : string :=
  match fuel with
  | 0 => s
  | S fuel' =>
      match List.find (λ p, String.prefix p s) patterns with
      | Some p =>
          dropLeading patterns fuel'
            (substring (String.length p) (String.length s - String.length p) s)
      | None => s
      end
  end.

Definition trimStart (s : string) : string :=
  dropLeading whiteSpace (String.length s) s.

(** Every encoding starts with a byte that starts a character, so a white
    space character ends [s] exactly when its encoding does. *)
Definition trimEnd (s : string) : string :=
  String.rev (dropLeading (String.rev <$> whiteSpace) (String.length s) (String.rev s)).

Definition trim (s : string) : string := trimEnd (trimStart s).

(** A decimal [parseInt] for worked instances: leading white space, a
    sign, then the longest run of digits; exact below 2^1024. *)
Fixpoint leadingDigits (s : string) : list Z :=
  match s with
  | EmptyString => []
  | String c s' =>
      match digitVal c with
      | Some d => d :: leadingDigits s'
      | None => []
      end
  end.

Definition parseDecimal (s : string) : JsNumber :=
  let s := trimStart s in
  let '(negative, s) :=
    match s with
    | String "-" rest => (true, rest)
    | String "+" rest => (false, rest)
    | _ => (false, s)
    end in
  match leadingDigits s with
  | [] => NaN
  | digits =>
      let magnitude := foldl (λ acc d, 10 * acc + d)%Z 0%Z digits in
      if (2 ^ 1024 <=? magnitude)%Z then Infinity negative
      else ofZ (if negative then - magnitude else magnitude)%Z
  end.

(** ** Constants of the collection and its error messages
       (src/utils/constants.ts) *)

Module API.
Definition BASE_URL := "https://telraam-api.net".
End API.

Module COLLECTION.
Definition DEFAULT_DAYS_TO_FETCH : Z := 3.
Definition DEFAULT_INITIAL_DAYS_TO_FETCH : Z := 90.
Definition MIN_DAYS_TO_FETCH : Z := 1.
Definition MAX_DAYS_TO_FETCH : Z := 90.
Definition DEFAULT_REQUEST_DELAY_MS : Z := 2000.
Definition MIN_REQUEST_DELAY_MS : Z := 0.
Definition MAX_REQUEST_DELAY_MS : Z := 30000.
End COLLECTION.

Module ERRORS.
Definition MISSING_API_KEY :=
  "TELRAAM_API_KEY environment variable is not set. Please set it in your .env file or environment.".
Definition NO_DEVICES := "No devices configured. Please add devices to src/config.ts".
Definition INVALID_DAYS := "daysToFetch must be greater than 0".
End ERRORS.

(** ** Validation (src/utils/validation.ts) *)

Module ValidationResult.
Record t := { valid : bool; errors : list string }.
End ValidationResult.

Module ConfigurationInput.
Record t := {
  apiKey : option string;
  devices : list DeviceConfig.t;
  daysToFetch : JsNumber;
  initialDaysToFetch : JsNumber
}.
End ConfigurationInput.

Module Validation.
Import ValidationResult.

(** [!s || s.trim() === ''] for a string that may be undefined. *)
Definition missing (s : option string) : bool :=
  match s with
  | None => true
  | Some s => (s =? "")%string || (trim s =? "")%string
  end.

Definition validateApiKey (apiKey : option string) : t :=
  let errors := [] in
  let errors := if missing apiKey then errors ++ [ERRORS.MISSING_API_KEY] else errors in
  {| valid := length errors =? 0; errors := errors |}.

(** The errors one device adds, in the order of the three checks. *)
Definition deviceErrors (index : nat) (device : DeviceConfig.t) (errors : list string)
  : list string :=
  let errors :=
    if missing (Some (DeviceConfig.id device))
    then errors ++ ["Device at index " +:+ pretty index +:+ ": id is required"]
    else errors in
  let errors :=
    if missing (Some (DeviceConfig.name device))
    then errors ++ ["Device at index " +:+ pretty index +:+ ": name is required"]
    else errors in
  if missing (Some (DeviceConfig.location device))
  then errors ++ ["Device at index " +:+ pretty index +:+ ": location is required"]
  else errors.

Definition validateDevices (devices : list DeviceConfig.t) : t :=
  let errors := [] in
  if length devices =? 0 then
    {| valid := false; errors := errors ++ [ERRORS.NO_DEVICES] |}
  else
    let errors :=
      foldl (λ errors '(index, device), deviceErrors index device errors)
        errors (imap pair devices) in
    {| valid := length errors =? 0; errors := errors |}.

Definition validateDaysToFetch (days : JsNumber) : t :=
  let errors := [] in
  let errors :=
    if negb (isInteger days) || numLt days (ofZ COLLECTION.MIN_DAYS_TO_FETCH)
    then errors ++ [ERRORS.INVALID_DAYS] else errors in
  let errors :=
    if numLt (ofZ COLLECTION.MAX_DAYS_TO_FETCH) days
    then errors ++ ["daysToFetch cannot exceed " +:+ pretty COLLECTION.MAX_DAYS_TO_FETCH
                      +:+ " (API limit: 3 months)"]
    else errors in
  {| valid := length errors =? 0; errors := errors |}.

Definition validateConfiguration (config : ConfigurationInput.t) : t :=
  let results :=
    [ validateApiKey (ConfigurationInput.apiKey config);
      validateDevices (ConfigurationInput.devices config);
      validateDaysToFetch (ConfigurationInput.daysToFetch config);
      validateDaysToFetch (ConfigurationInput.initialDaysToFetch config) ] in
  let allErrors := results ≫= errors in
  {| valid := length allErrors =? 0; errors := allErrors |}.
End Validation.

(** ** Configuration (src/config.ts) *)

Module AppConfig.
Record t := {
  apiUrl : string;
  apiKey : string;
  dataDir : string;
  daysToFetch : JsNumber;
  initialDaysToFetch : JsNumber;
  requestDelayMs : JsNumber
}.
End AppConfig.

Module Config.
(** [envValue ? Number.parseInt(envValue, 10) : Number.NaN]: an unset and
    an empty variable are not parsed. *)
Definition parsedEnv `{JsParseInt} (envValue : option string) : JsNumber :=
  match envValue with
  | Some s => if decide (s = "") then NaN else parseInt s
  | None => NaN
  end.

Definition resolveDaysToFetch `{JsParseInt} (envValue : option string)
    (defaultValue : JsNumber) : JsNumber :=
  let parsed := parsedEnv envValue in
  if isFinite parsed then
    mathMin (mathMax parsed (ofZ COLLECTION.MIN_DAYS_TO_FETCH))
      (ofZ COLLECTION.MAX_DAYS_TO_FETCH)
  else defaultValue.

Definition resolveRequestDelay `{JsParseInt} (envValue : option string) : JsNumber :=
  let parsed := parsedEnv envValue in
  if isFinite parsed then
    mathMin (mathMax parsed (ofZ COLLECTION.MIN_REQUEST_DELAY_MS))
      (ofZ COLLECTION.MAX_REQUEST_DELAY_MS)
  else ofZ COLLECTION.DEFAULT_REQUEST_DELAY_MS.

Definition devices : list DeviceConfig.t :=
  [ {| DeviceConfig.id := "9000008311";
       DeviceConfig.name := "Sophienstraße";
       DeviceConfig.location := "Karlsruhe, Germany" |};
    {| DeviceConfig.id := "9000008322";
       DeviceConfig.name := "Georg-Friedrich-Straße";
       DeviceConfig.location := "Karlsruhe, Germany" |};
    {| DeviceConfig.id := "9000008891";
       DeviceConfig.name := "Telraam 9000008891";
       DeviceConfig.location := "Rheinstetten, Germany" |};
    {| DeviceConfig.id := "9000008652";
       DeviceConfig.name := "Telraam 9000008652";
       DeviceConfig.location := "Rheinstetten, Germany" |} ].

Definition loadConfig `{JsParseInt} (env : gmap string string) : Outcome AppConfig.t :=
  let daysToFetch :=
    resolveDaysToFetch (env !! "TELRAAM_DAYS_TO_FETCH")
      (ofZ COLLECTION.DEFAULT_DAYS_TO_FETCH) in
  let initialDaysToFetch :=
    resolveDaysToFetch (env !! "TELRAAM_INITIAL_DAYS_TO_FETCH")
      (ofZ COLLECTION.DEFAULT_INITIAL_DAYS_TO_FETCH) in
  let requestDelayMs := resolveRequestDelay (env !! "TELRAAM_REQUEST_DELAY_MS") in
  let config :=
    {| AppConfig.apiUrl := API.BASE_URL;
       AppConfig.apiKey := default "" (env !! "TELRAAM_API_KEY");
       AppConfig.dataDir := FILESYSTEM.DATA_DIR;
       AppConfig.daysToFetch := daysToFetch;
       AppConfig.initialDaysToFetch := initialDaysToFetch;
       AppConfig.requestDelayMs := requestDelayMs |} in
  let validation :=
    Validation.validateConfiguration
      {| ConfigurationInput.apiKey := Some (AppConfig.apiKey config);
         ConfigurationInput.devices := devices;
         ConfigurationInput.daysToFetch := AppConfig.daysToFetch config;
         ConfigurationInput.initialDaysToFetch := AppConfig.initialDaysToFetch config |} in
  if negb (ValidationResult.valid validation)
  then Throw (Error (String.concat "; " (ValidationResult.errors validation)))
  else Ok config.
End Config.

(** The error of a failed save: a plain [Error] whose message names the
    save and carries the message of the error behind it. *)
Definition saveFailure (e : JsError) : Prop :=
  ∃ cause,
    e = Error ("Failed to save monthly data: " +:+ errMessage cause)
    ∨ e = Error ("Failed to save daily data: " +:+ errMessage cause).

(** A name without path separator. With the prefix [device_] or the suffix
    [.json] it is one segment, and neither "." nor "..". *)
Fixpoint separatorFree (s : string) : bool :=
  match s with
  | EmptyString => true
  | String c rest => negb (Ascii.eqb c "/") && separatorFree rest
  end.

Definition noSeparator (s : string) : Prop := separatorFree s = true.

(** ** Node's POSIX [path], as far as [PathManager] uses it

    [PathManager] above keeps a path as its segments are written, joined
    with "/", and the stored files are keyed by the path as written. The
    source joins with [path.join], which also brings the result to its
    normal form. This is that function, and [PathManager] with it. *)

Module Path.
(** [path.split("/")] *)
Fixpoint split (path : string) : list string :=
  match path with
  | EmptyString => [""]
  | String c rest =>
      if Ascii.eqb c "/" then "" :: split rest
      else match split rest with
           | [] => [String c ""]
           | segment :: segments => String c segment :: segments
           end
  end.

Definition isAbsolute (path : string) : bool :=
  match path with
  | String "/" _ => true
  | _ => false
  end.

Fixpoint endsWithSeparator (path : string) : bool :=
  match path with
  | EmptyString => false
  | String c EmptyString => Ascii.eqb c "/"
  | String _ rest => endsWithSeparator rest
  end.

(** One round of the loop of [normalizeString]: what a segment does to
    the segments kept so far. An empty segment and "." are dropped; ".."
    removes the last segment kept, unless there is none or it is ".."
    itself, and is then kept only where the path may climb above its
    start; any other segment is kept. *)
Definition keep (allowAboveRoot : bool) (kept : list string) (segment : string)
  : list string :=
  if decide (segment = "" ∨ segment = ".") then kept
  else if decide (segment = "..") then
    match last kept with
    | Some top =>
        if decide (top = "..") then (if allowAboveRoot then kept ++ [".."] else kept)
        else removelast kept
    | None => if allowAboveRoot then kept ++ [".."] else kept
    end
  else kept ++ [segment].

Definition normalizeString (path : string) (allowAboveRoot : bool) : string :=
  String.concat "/" (foldl (keep allowAboveRoot) [] (split path)).

Definition normalize (path : string) : string :=
  if decide (path = "") then "."
  else
    let isAbsolute := isAbsolute path in
    let trailingSeparator := endsWithSeparator path in
    let path := normalizeString path (negb isAbsolute) in
    if decide (path = "") then
      if isAbsolute then "/" else if trailingSeparator then "./" else "."
    else
      let path := if trailingSeparator then path +:+ "/" else path in
      if isAbsolute then "/" +:+ path else path.

(** [path.join(...args)]: the arguments that are not empty, joined with
    "/" and normalized. *)
Definition join (args : list string) : string :=
  match filter (λ arg, arg ≠ "") args with
  | [] => "."
  | parts => normalize (String.concat "/" parts)
  end.

(** [path.resolve(...args)] in the working directory [cwd]: the
    arguments are put in front of each other from the last one on, and
    after them the working directory, until the path is absolute; the
    result is normalized without a trailing separator. *)
Definition resolveStep (acc : string * bool) (path : string) : string * bool :=
  let '(resolvedPath, resolvedAbsolute) := acc in
  if resolvedAbsolute then acc
  else if decide (path = "") then acc
  else (path +:+ "/" +:+ resolvedPath, isAbsolute path).

Definition resolve (cwd : string) (args : list string) : string :=
  let '(resolvedPath, resolvedAbsolute) :=
    foldl resolveStep ("", false) (reverse args ++ [cwd]) in
  let resolvedPath := normalizeString resolvedPath (negb resolvedAbsolute) in
  if resolvedAbsolute then "/" +:+ resolvedPath
  else if decide (resolvedPath = "") then "." else resolvedPath.

(** What [join] puts in front of a segment added to the directory [dir]:
    the normal form of [dir] and a separator, or nothing when that normal
    form is ".", or "/" alone when it is the root. *)
Definition base (dir : string) : string :=
  (if isAbsolute dir then "/" else "")
    +:+ (let kept := normalizeString dir (negb (isAbsolute dir)) in
         if decide (kept = "") then "" else kept +:+ "/").

(** The segments that [normalizeString] keeps of a path, and a normal form
    written out from its segments. *)
Definition kept (path : string) : list string :=
  foldl (keep (negb (isAbsolute path))) [] (split path).

Definition render (absolute : bool) (segments : list string) : string :=
  (if absolute then "/" else "") +:+ String.concat "/" segments.

(** Segments as [normalizeString] leaves them: normalizing them again
    changes nothing, and none holds a separator, is empty or is ".". *)
Definition settled (allowAboveRoot : bool) (segments : list string) : Prop :=
  foldl (keep allowAboveRoot) [] segments = segments
  ∧ Forall (λ s, separatorFree s = true ∧ s ≠ "" ∧ s ≠ ".") segments.

(** A segment that [join] adds to a path as it is. *)
Definition plain (segment : string) : Prop :=
  separatorFree segment = true ∧ segment ≠ "" ∧ segment ≠ "." ∧ segment ≠ "..".
End Path.

(** [PathManager] with [path.join] in full. *)
Module PathManagerNormal.
Definition getDeviceDirectory (dataDir deviceId : string) : string :=
  Path.join [dataDir; FILESYSTEM.DEVICE_DIR_PREFIX +:+ deviceId].

Definition getHourlyFilePath (dataDir deviceId month : string) : string :=
  Path.join [getDeviceDirectory dataDir deviceId; FILESYSTEM.HOURLY_DIR; month +:+ ".json"].

Definition getDailyFilePath (dataDir deviceId month : string) : string :=
  Path.join [getDeviceDirectory dataDir deviceId; FILESYSTEM.DAILY_DIR; month +:+ ".json"].

Definition getLegacyMonthlyFilePath (dataDir deviceId month : string) : string :=
  Path.join [getDeviceDirectory dataDir deviceId; month +:+ ".json"].

Definition getDeviceMetadataPath (dataDir : string) : string :=
  Path.join [dataDir; FILESYSTEM.DEVICES_FILE].

(** The docs root and the landing page depend on the working directory of
    the process, here [cwd]. *)
Definition getDocsRoot (cwd dataDir : string) : string :=
  Path.resolve cwd [dataDir; ".."].

Definition getLandingPagePath (cwd dataDir : string) : string :=
  let docsRoot := Path.resolve cwd [dataDir; ".."] in
  Path.join [docsRoot; "index.html"].
End PathManagerNormal.

(** Two paths that name one file for a process working in [cwd]. *)
Definition sameFile (cwd p q : string) : Prop :=
  Path.resolve cwd [p] = Path.resolve cwd [q].

(** Every path that names none of the files of the device for one of
    [months] holds in [w'] what it held in [w]. *)
Definition onlyMonthFiles (cwd dataDir deviceId : string) (months : list string)
    (w w' : World) : Prop :=
  ∀ p, (∀ month file, month ∈ months → file ∈ monthFiles dataDir deviceId month →
                      ¬ sameFile cwd p file) →
       files w' !! p = files w !! p.

(** ** Further definitions: what a run records for a device *)

(** [res] is what [collectSingleDevice] returned for [device] at some point
    of a run that started in [w]. *)
Definition collectedFrom `{JsDate} (cfg : CollectorConfig.t) (w : World)
    (device : DeviceConfig.t) (res : CollectionResult.t) : Prop :=
  ∃ w0 w1, sameEnv w w0 ∧ DataCollector.collectSingleDevice cfg device w0 = (Ok res, w1).

(** The metadata record that the loop appends for [device] after its
    collection gave [res]: [result.lastUpdated], else the [lastUpdated] of
    the record stored before the run, else a reading of the clock. *)
Definition recordFor (w : World) (previous : gmap string DeviceMetadata.t)
    (device : DeviceConfig.t) (res : CollectionResult.t) (meta : DeviceMetadata.t)
  : Prop :=
  DeviceMetadata.id meta = DeviceConfig.id device
  ∧ DeviceMetadata.name meta = DeviceConfig.name device
  ∧ DeviceMetadata.location meta = DeviceConfig.location device
  ∧ match CollectionResult.lastUpdated res with
    | Some t => DeviceMetadata.lastUpdated meta = t
    | None =>
        match previous !! DeviceConfig.id device with
        | Some prior => DeviceMetadata.lastUpdated meta = DeviceMetadata.lastUpdated prior
        | None => ∃ n, DeviceMetadata.lastUpdated meta = isoString w n
        end
    end.

(** The recount of the stored points cannot fail for any configured
    device: neither the listing of its hourly directory nor the read of a
    file below it is set to fail. *)
Definition recountWorks (cfg : CollectorConfig.t) (w : World) : Prop :=
  ∀ device, device ∈ CollectorConfig.devices cfg →
    faulty w OpList
      (PathManager.getHourlyDirectory (CollectorConfig.dataDir cfg)
         (DeviceConfig.id device)) = false
    ∧ ∀ p, FileService.under
             (PathManager.getHourlyDirectory (CollectorConfig.dataDir cfg)
                (DeviceConfig.id device)) p = true →
           faulty w OpRead p = false.

(** ** Sample faults for worked instances *)

Module Incident.
(** Device A is down; every other device answers with [Sample.batch]. *)
Definition apiWithADown (deviceId : string) : Outcome (list TrafficDataPoint.t) :=
  if decide (deviceId = "A") then Throw (TelraamApiError (Some 503) "Service Unavailable")
  else Ok Sample.batch.

(** The stored month 2024-05 of device A cannot be read. *)
Definition unreadableMonth (op : FsOp) (p : string) : bool :=
  match op with
  | OpRead => bool_decide (p = PathManager.getHourlyFilePath FILESYSTEM.DATA_DIR "A" "2024-05")
  | _ => false
  end.

(** The hourly file of device A for 2024-06 cannot be written. *)
Definition hourlyWriteFails (op : FsOp) (p : string) : bool :=
  match op with
  | OpWrite => bool_decide (p = PathManager.getHourlyFilePath FILESYSTEM.DATA_DIR "A" "2024-06")
  | _ => false
  end.

(** Every device answers with [Sample.batch]. *)
Definition apiUp (deviceId : string) : Outcome (list TrafficDataPoint.t) := Ok Sample.batch.

(** devices.json as the previous run left it. *)
Definition withPriorDevices : gmap string Json :=
  {[ PathManager.getDeviceMetadataPath FILESYSTEM.DATA_DIR := JDevices Sample.priorDevices ]}.

(** Device A answers with one reading whose date does not parse. *)
Definition apiWithUnusableDate (deviceId : string) : Outcome (list TrafficDataPoint.t) :=
  if decide (deviceId = "A") then Ok [Sample.reading "not-a-date" 0 1] else Ok Sample.batch.
End Incident.
(** * Properties *)

(** ** The orders are total orders *)

Lemma ascii_compare_lt_trans a b c :
  Ascii.compare a b = Lt → Ascii.compare b c = Lt → Ascii.compare a c = Lt.
Proof.
  unfold Ascii.compare. rewrite !N.compare_lt_iff. lia.
Qed.

Lemma ascii_compare_refl a : Ascii.compare a a = Eq.
Proof. unfold Ascii.compare. apply N.compare_refl. Qed.

Lemma str_compare_lt_trans s1 s2 s3 :
  String.compare s1 s2 = Lt → String.compare s2 s3 = Lt → String.compare s1 s3 = Lt.
Proof.
  revert s2 s3. induction s1 as [|a s1 IH]; intros [|b s2] [|c s3]; simpl; try done.
  destruct (Ascii.compare a b) eqn:Hab; try done;
    destruct (Ascii.compare b c) eqn:Hbc; try done; intros H1 H2.
  - apply Ascii.compare_eq_iff in Hab, Hbc. subst.
    rewrite ascii_compare_refl. eauto.
  - apply Ascii.compare_eq_iff in Hab. subst. by rewrite Hbc.
  - apply Ascii.compare_eq_iff in Hbc. subst. by rewrite Hab.
  - by rewrite (ascii_compare_lt_trans _ _ _ Hab Hbc).
Qed.

Lemma str_compare_refl s : String.compare s s = Eq.
Proof. induction s as [|a s IH]; simpl; [done|]. by rewrite ascii_compare_refl. Qed.

#[global] Instance str_le_total : Total str_le.
Proof. intros s1 s2. apply String.leb_total. Qed.

#[global] Instance str_le_antisymm : AntiSymm (=) str_le.
Proof. intros s1 s2 H1 H2. by apply String.leb_antisym. Qed.

#[global] Instance str_le_trans : Transitive str_le.
Proof.
  intros s1 s2 s3. unfold str_le, String.leb.
  destruct (String.compare s1 s2) eqn:H12; try done;
    destruct (String.compare s2 s3) eqn:H23; try done; intros _ _.
  - apply String.compare_eq_iff in H12, H23. subst. by rewrite str_compare_refl.
  - apply String.compare_eq_iff in H12. subst. by rewrite H23.
  - apply String.compare_eq_iff in H23. subst. by rewrite H12.
  - by rewrite (str_compare_lt_trans _ _ _ H12 H23).
Qed.

#[global] Instance key_le_total : Total key_le.
Proof.
  intros [d1 h1] [d2 h2]. unfold key_le, key_leb. simpl.
  rewrite (String.compare_antisym d2 d1).
  destruct (String.compare d1 d2); simpl; auto.
  rewrite !Nat.leb_le. lia.
Qed.

#[global] Instance key_le_antisymm : AntiSymm (=) key_le.
Proof.
  intros [d1 h1] [d2 h2]. unfold key_le, key_leb. simpl.
  rewrite (String.compare_antisym d2 d1).
  destruct (String.compare d1 d2) eqn:Hc; simpl; try done.
  apply String.compare_eq_iff in Hc. rewrite !Nat.leb_le. intros. f_equal; [done | lia].
Qed.

#[global] Instance key_le_trans : Transitive key_le.
Proof.
  intros [d1 h1] [d2 h2] [d3 h3]. unfold key_le, key_leb. simpl.
  destruct (String.compare d1 d2) eqn:H12; try done;
    destruct (String.compare d2 d3) eqn:H23; try done.
  - apply String.compare_eq_iff in H12, H23. subst. rewrite str_compare_refl.
    rewrite !Nat.leb_le. lia.
  - apply String.compare_eq_iff in H12. subst. by rewrite H23.
  - apply String.compare_eq_iff in H23. subst. by rewrite H12.
  - by rewrite (str_compare_lt_trans _ _ _ H12 H23).
Qed.

(** ** The keyed merge *)

Section KeyedMergeFacts.
Context {K : Type} `{Countable K} {V : Type}.
Variable key : V → K.
Variable le : relation K.
Context `{∀ k1 k2, Decision (le k1 k2)}.
Context `{!Transitive le, !Total le, !AntiSymm (=) le}.

Lemma lastWithKey_cons k v l :
  lastWithKey key k (v :: l) =
    match lastWithKey key k l with
    | Some v' => Some v'
    | None => if decide (key v = k) then Some v else None
    end.
Proof.
  unfold lastWithKey. rewrite filter_cons.
  destruct (decide (key v = k)); [|by destruct (last _)].
  by rewrite last_cons.
Qed.

Lemma setAll_lookup l m k :
  setAll key l m !! k =
    match lastWithKey key k l with
    | Some v => Some v
    | None => m !! k
    end.
Proof.
  revert m. induction l as [|v l IH]; intros m; [done|].
  change (setAll key (v :: l) m) with (setAll key l (<[key v := v]> m)).
  rewrite IH, lastWithKey_cons.
  destruct (lastWithKey key k l); [done|].
  rewrite lookup_insert. by destruct (decide (key v = k)).
Qed.

Lemma lastWithKey_key k l v : lastWithKey key k l = Some v → key v = k ∧ v ∈ l.
Proof.
  unfold lastWithKey. intros Hl.
  apply last_Some_elem_of in Hl. by apply list_elem_of_filter in Hl.
Qed.

Lemma keyed_empty : keyed key ∅.
Proof. intros k v. by rewrite lookup_empty. Qed.

Lemma setAll_keyed l m : keyed key m → keyed key (setAll key l m).
Proof.
  intros Hm k v. rewrite setAll_lookup.
  destruct (lastWithKey key k l) as [v'|] eqn:Hl; [|by apply Hm].
  intros [= <-]. by apply lastWithKey_key in Hl as [? _].
Qed.

Lemma sortedValues_perm m : sortedValues key le m ≡ₚ (map_to_list m).*2.
Proof. apply merge_sort_Permutation. Qed.

Lemma elem_of_sortedValues m v :
  keyed key m → v ∈ sortedValues key le m ↔ m !! key v = Some v.
Proof.
  intros Hm. rewrite sortedValues_perm, list_elem_of_fmap. split.
  - intros [[k v'] [-> Hin]]. apply elem_of_map_to_list in Hin. simpl.
    by rewrite (Hm _ _ Hin).
  - intros Hv. exists (key v, v). split; [done|]. by apply elem_of_map_to_list.
Qed.

Lemma keys_sortedValues m :
  keyed key m → key <$> sortedValues key le m ≡ₚ (map_to_list m).*1.
Proof.
  intros Hm. rewrite sortedValues_perm, <-list_fmap_compose.
  apply eq_subrelation; [apply _|]. apply Forall_fmap_ext_1, Forall_forall.
  intros [k v] Hin. apply elem_of_map_to_list in Hin. simpl. by apply Hm.
Qed.

Lemma NoDup_keys_sortedValues m : keyed key m → NoDup (key <$> sortedValues key le m).
Proof. intros Hm. rewrite keys_sortedValues by done. apply NoDup_fst_map_to_list. Qed.

Lemma sortedValues_sorted m :
  StronglySorted (λ a b, le (key a) (key b)) (sortedValues key le m).
Proof.
  apply StronglySorted_merge_sort.
  - intros a b c. apply transitivity.
  - intros a b. apply total. apply _.
Qed.

(** In a list without duplicate keys, a key selects at most one item. *)
Lemma withKey_NoDup l v :
  NoDup (key <$> l) → v ∈ l → withKey key (key v) l = [v].
Proof.
  unfold withKey. induction l as [|x l IH]; intros Hnd Hin; [by inversion Hin|].
  rewrite fmap_cons in Hnd. apply NoDup_cons in Hnd as [Hx Hnd].
  rewrite filter_cons. apply elem_of_cons in Hin as [->|Hin].
  - rewrite decide_True by done. f_equal.
    destruct (filter (λ v, key v = key x) l) as [|y ?] eqn:Hf; [done|].
    assert (y ∈ filter (λ v, key v = key x) l) as Hy by (rewrite Hf; left).
    apply list_elem_of_filter in Hy as [Hk Hy]. destruct Hx.
    rewrite <-Hk. by apply list_elem_of_fmap_2.
  - rewrite decide_False; [by apply IH|].
    intros Hk. destruct Hx. rewrite Hk. by apply list_elem_of_fmap_2.
Qed.

Lemma withKey_absent l k :
  (∀ v, v ∈ l → key v ≠ k) → withKey key k l = [].
Proof.
  unfold withKey. intros Hno.
  destruct (filter (λ v, key v = k) l) as [|y ?] eqn:Hf; [done|].
  assert (y ∈ filter (λ v, key v = k) l) as Hy by (rewrite Hf; left).
  apply list_elem_of_filter in Hy as [Hk Hy]. by destruct (Hno y Hy).
Qed.

(** Reading the sorted values by key gives the map entry back. *)
Lemma withKey_sortedValues m k :
  keyed key m →
  withKey key k (sortedValues key le m) =
    match m !! k with Some v => [v] | None => [] end.
Proof.
  intros Hm. destruct (m !! k) as [v|] eqn:Hk.
  - rewrite <-(Hm _ _ Hk). apply withKey_NoDup.
    + by apply NoDup_keys_sortedValues.
    + apply elem_of_sortedValues; [done|]. by rewrite (Hm _ _ Hk).
  - apply withKey_absent. intros v Hv%elem_of_sortedValues Hkv; [|done]. congruence.
Qed.

Lemma lastWithKey_withKey k l : lastWithKey key k l = last (withKey key k l).
Proof. done. Qed.

(** Rebuilding the map from its sorted values gives the map back. *)
Lemma setAll_sortedValues m :
  keyed key m → setAll key (sortedValues key le m) ∅ = m.
Proof.
  intros Hm. apply map_eq. intros k.
  rewrite setAll_lookup, lastWithKey_withKey, withKey_sortedValues by done.
  rewrite lookup_empty. by destruct (m !! k).
Qed.

Lemma setAll_twice l m : setAll key l (setAll key l m) = setAll key l m.
Proof.
  apply map_eq. intros k. rewrite !setAll_lookup. by destruct (lastWithKey key k l).
Qed.

Lemma mergeByKey_keyed existing incoming :
  keyed key (setAll key incoming (setAll key existing ∅)).
Proof. apply setAll_keyed, setAll_keyed, keyed_empty. Qed.

(** Merging a batch into the result of merging it changes nothing. *)
Lemma mergeByKey_idempotent l :
  mergeByKey key le (mergeByKey key le [] l) l = mergeByKey key le [] l.
Proof.
  unfold mergeByKey. f_equal. simpl.
  rewrite setAll_sortedValues by apply setAll_keyed, keyed_empty.
  apply setAll_twice.
Qed.

Lemma mergeByKey_self l : mergeByKey key le l l = mergeByKey key le [] l.
Proof. unfold mergeByKey. f_equal. simpl. apply setAll_twice. Qed.

(** Last write wins: a key carried by [incoming] is represented in the
    result by the last item of [incoming] with that key, and by it alone. *)
Lemma mergeByKey_incoming_wins existing incoming k v :
  lastWithKey key k incoming = Some v →
  withKey key k (mergeByKey key le existing incoming) = [v].
Proof.
  intros Hl. unfold mergeByKey.
  rewrite withKey_sortedValues by apply mergeByKey_keyed.
  by rewrite setAll_lookup, Hl.
Qed.

(** A key that [incoming] does not carry keeps the item of [existing]. *)
Lemma mergeByKey_existing_kept existing incoming k :
  lastWithKey key k incoming = None →
  withKey key k (mergeByKey key le existing incoming) =
    match lastWithKey key k existing with Some v => [v] | None => [] end.
Proof.
  intros Hl. unfold mergeByKey.
  rewrite withKey_sortedValues by apply mergeByKey_keyed.
  rewrite !setAll_lookup, Hl, lookup_empty. by destruct (lastWithKey key k existing).
Qed.

Lemma mergeByKey_NoDup existing incoming :
  NoDup (key <$> mergeByKey key le existing incoming).
Proof. apply NoDup_keys_sortedValues, mergeByKey_keyed. Qed.

(** The result is strictly ascending: ascending, and no key is repeated. *)
Lemma mergeByKey_sorted existing incoming :
  StronglySorted (λ k1 k2, le k1 k2 ∧ k1 ≠ k2)
    (key <$> mergeByKey key le existing incoming).
Proof.
  pose proof (mergeByKey_NoDup existing incoming) as Hnd.
  pose proof (sortedValues_sorted (setAll key incoming (setAll key existing ∅))) as Hs.
  fold (mergeByKey key le existing incoming) in Hs.
  induction Hs as [|a l Hs IH Hall]; [constructor|].
  rewrite fmap_cons in *. apply NoDup_cons in Hnd as [Ha Hnd].
  constructor; [by apply IH|].
  apply Forall_fmap, Forall_forall. intros b Hb. split.
  - by eapply Forall_forall in Hall.
  - simpl. intros Heq. destruct Ha. rewrite Heq. by apply list_elem_of_fmap_2.
Qed.
End KeyedMergeFacts.

(** ** DataMerger: merging readings and daily entries *)

Lemma key_le_ne_lt k1 k2 : key_le k1 k2 → k1 ≠ k2 → key_lt k1 k2.
Proof.
  destruct k1 as [d1 h1], k2 as [d2 h2]. unfold key_le, key_leb, key_lt, String.ltb. simpl.
  destruct (String.compare d1 d2) eqn:Hc; try done; [|by left].
  apply String.compare_eq_iff in Hc. subst. rewrite Nat.leb_le. intros Hle Hne. right.
  split; [done|]. destruct (decide (h1 = h2)); [congruence | lia].
Qed.

Lemma str_le_ne_lt s1 s2 : str_le s1 s2 → s1 ≠ s2 → str_lt s1 s2.
Proof.
  unfold str_le, str_lt, String.leb, String.ltb.
  destruct (String.compare s1 s2) eqn:Hc; try done.
  by apply String.compare_eq_iff in Hc.
Qed.

Lemma StronglySorted_impl {A} (R1 R2 : relation A) l :
  (∀ x y, R1 x y → R2 x y) → StronglySorted R1 l → StronglySorted R2 l.
Proof.
  intros HR. induction 1 as [|x l Hs IH Hall]; constructor; [done|].
  eapply Forall_impl; [done|]. auto.
Qed.

Import DataMerger.

(** C1. Merging readings is idempotent: merging a batch [R] into the result
    of merging [R] into nothing gives that result again, without growth or
    reordering, and merging [R] with itself is [sort (dedupe R)]. *)
Theorem mergeReadings_idempotent (R : list TrafficDataPoint.t) :
  mergeReadings (mergeReadings [] R) R = mergeReadings [] R
  ∧ mergeReadings R R = sort (dedupe R).
Proof.
  split.
  - apply mergeByKey_idempotent.
  - unfold mergeReadings. by rewrite mergeByKey_self.
Qed.

(** C3. Sort invariant: whatever the two input lists, the merged readings
    are strictly ascending by (date, hour), and no key occurs twice. *)
Theorem mergeReadings_strictly_ascending (existing incoming : list TrafficDataPoint.t) :
  StronglySorted key_lt (TrafficDataPoint.key <$> mergeReadings existing incoming)
  ∧ NoDup (TrafficDataPoint.key <$> mergeReadings existing incoming).
Proof.
  split; [|apply mergeByKey_NoDup].
  eapply StronglySorted_impl; [|apply mergeByKey_sorted; apply _].
  intros k1 k2 [Hle Hne]. by apply key_le_ne_lt.
Qed.


(** The merged daily entries are strictly ascending by date. *)
Lemma mergeDailyEntries_strictly_ascending (existing incoming : list DailyEntry.t) :
  StronglySorted str_lt (DailyEntry.date <$> mergeDailyEntries existing incoming).
Proof.
  eapply StronglySorted_impl; [|apply mergeByKey_sorted; apply _].
  intros d1 d2 [Hle Hne]. by apply str_le_ne_lt.
Qed.

(** ** FileService and PathManager: how the primitive operations run *)

Import FileService.

Lemma readJson_run filePath context w :
  faulty w OpRead filePath = false →
  readJson filePath context w = (Ok (files w !! filePath), w).
Proof. intros Hf. unfold readJson. by rewrite Hf. Qed.

Lemma readJson_world filePath context w : (readJson filePath context w).2 = w.
Proof. unfold readJson. by destruct (faulty w OpRead filePath). Qed.

Lemma writeJson_run filePath content context w :
  faulty w OpWrite filePath = false →
  writeJson filePath content context w
    = (Ok tt, setFiles (<[filePath := content]> (files w)) w).
Proof. intros Hf. unfold writeJson. by rewrite Hf. Qed.

Lemma writeJson_fail filePath content context w :
  faulty w OpWrite filePath = true →
  writeJson filePath content context w = (Throw (ioError context), w).
Proof. intros Hf. unfold writeJson. by rewrite Hf. Qed.

Lemma deleteFile_run filePath w :
  faulty w OpDelete filePath = false →
  deleteFile filePath w = (Ok tt, setFiles (delete filePath (files w)) w).
Proof. intros Hf. unfold deleteFile. by rewrite Hf. Qed.

Lemma string_length_app (s1 s2 : string) :
  String.length (s1 +:+ s2) = String.length s1 + String.length s2.
Proof. induction s1 as [|a s1 IH]; simpl; [done|]. by rewrite IH. Qed.

(** The legacy location differs from the current one. *)
Lemma legacy_path_ne dataDir deviceId month :
  PathManager.getLegacyMonthlyFilePath dataDir deviceId month
  ≠ PathManager.getHourlyFilePath dataDir deviceId month.
Proof.
  unfold PathManager.getLegacyMonthlyFilePath, PathManager.getHourlyFilePath,
    PathManager.join. simpl. intros Heq.
  apply (f_equal String.length) in Heq.
  rewrite !string_length_app in Heq. simpl in Heq. lia.
Qed.

(** ** Storage *)

Lemma forEach_total_run deviceId w (filePaths : list string) (acc : nat) :
  (∀ p, p ∈ filePaths → faulty w OpRead p = false) →
  forEach
    (λ total filePath,
       monthlyData <- readJson filePath
         ("loading monthly data for device " +:+ deviceId +:+ " while computing totals") ;;
       ret (total + Storage.dataLength monthlyData))
    filePaths acc w
  = (Ok (acc + sum_list ((λ p, Storage.dataLength (files w !! p)) <$> filePaths)), w).
Proof.
  revert acc. induction filePaths as [|p ps IH]; intros acc Hok; csimpl.
  - unfold ret. do 2 f_equal. lia.
  - unfold bind at 1. unfold bind at 1.
    rewrite readJson_run by (apply Hok; left). unfold ret at 1.
    rewrite IH by (intros q Hq; apply Hok; by right). do 2 f_equal. lia.
Qed.

(** C8. The total is recomputed from storage: it is the sum of [data.length]
    over the monthly files stored below the device's hourly directory,
    whatever runs produced them, and it is 0, without an exception, when the
    hourly directory does not exist. *)
Theorem getTotalHourlyDataPoints_sum (dataDir deviceId : string) (w : World) :
  let hourlyDir := PathManager.getHourlyDirectory dataDir deviceId in
  (dirExists hourlyDir w = false →
     Storage.getTotalHourlyDataPoints dataDir deviceId w = (Ok 0, w))
  ∧ (faulty w OpList hourlyDir = false →
     (∀ p, p ∈ jsonFilesUnder hourlyDir w → faulty w OpRead p = false) →
     Storage.getTotalHourlyDataPoints dataDir deviceId w
     = (Ok (sum_list ((λ p, Storage.dataLength (files w !! p))
                        <$> jsonFilesUnder hourlyDir w)), w)).
Proof.
  intros hourlyDir. split.
  - intros Hno. unfold Storage.getTotalHourlyDataPoints.
    fold hourlyDir. unfold bind, tryCatch, collectJsonFiles. by rewrite Hno.
  - intros Hlist Hreads. unfold Storage.getTotalHourlyDataPoints.
    fold hourlyDir. unfold bind at 1. unfold tryCatch, bind at 1, collectJsonFiles.
    destruct (dirExists hourlyDir w) eqn:Hex.
    + rewrite Hlist. unfold ret at 1. by rewrite forEach_total_run.
    + simpl. unfold ret. do 2 f_equal.
      unfold dirExists in Hex. apply orb_false_iff in Hex as [Hex _].
      apply negb_false_iff, bool_decide_eq_true in Hex.
      unfold jsonFilesUnder. by rewrite Hex.
Qed.

Lemma loadMonthlyData_run dataDir deviceId month w :
  faulty w OpRead (PathManager.getHourlyFilePath dataDir deviceId month) = false →
  (is_Some (files w !! PathManager.getHourlyFilePath dataDir deviceId month)
   ∨ faulty w OpRead (PathManager.getLegacyMonthlyFilePath dataDir deviceId month) = false) →
  Storage.loadMonthlyData dataDir deviceId month w
  = (Ok (Storage.twoTierLookup dataDir deviceId month w), w).
Proof.
  intros Hp Hl. unfold Storage.loadMonthlyData, Storage.twoTierLookup, bind.
  rewrite readJson_run by done.
  destruct (files w !! PathManager.getHourlyFilePath dataDir deviceId month) as [j|] eqn:Hj;
    [done|].
  destruct Hl as [[? [=]]|Hl]. by rewrite readJson_run.
Qed.

Lemma loadMonthlyData_world dataDir deviceId month w :
  (Storage.loadMonthlyData dataDir deviceId month w).2 = w.
Proof.
  unfold Storage.loadMonthlyData, bind, readJson, ret.
  repeat (case_match; simplify_eq/=); done.
Qed.

Lemma loadMonthlyData_Ok dataDir deviceId month w existing w' :
  Storage.loadMonthlyData dataDir deviceId month w = (Ok existing, w') →
  existing = Storage.twoTierLookup dataDir deviceId month w.
Proof.
  unfold Storage.loadMonthlyData, Storage.twoTierLookup, bind, readJson, ret.
  repeat (case_match; simplify_eq/=); congruence.
Qed.

(** The outcome of [saveMonthlyData], by the faults met on the way. *)
Lemma saveMonthlyData_run dataDir deviceId monthlyData w :
  let month := MonthlyData.month monthlyData in
  let current := PathManager.getHourlyFilePath dataDir deviceId month in
  let legacy := PathManager.getLegacyMonthlyFilePath dataDir deviceId month in
  Storage.saveMonthlyData dataDir deviceId monthlyData w =
    match Storage.loadMonthlyData dataDir deviceId month w with
    | (Throw e, _) =>
        (Throw (Error ("Failed to save monthly data: " +:+ errMessage e)), w)
    | (Ok existing, _) =>
        let merged :=
          {| MonthlyData.device_id := deviceId;
             MonthlyData.month := month;
             MonthlyData.data :=
               DataMerger.mergeDataPoints deviceId (Storage.dataOrEmpty existing)
                 (MonthlyData.data monthlyData);
             MonthlyData.lastUpdated := isoString w (ticks w) |} in
        let w1 := setTicks (S (ticks w)) w in
        if faulty w OpWrite current then
          (Throw (Error ("Failed to save monthly data: "
                           +:+ errMessage (ioError ("saving monthly data for device "
                                                      +:+ deviceId)))), w1)
        else
          let w2 := setFiles (<[current := JMonthly merged]> (files w)) w1 in
          if faulty w OpDelete legacy then
            (Throw (Error ("Failed to save monthly data: "
                             +:+ errMessage (ioError ("deleting " +:+ legacy)))), w2)
          else (Ok tt, setFiles (delete legacy (<[current := JMonthly merged]> (files w))) w2)
    end.
Proof.
  intros month current legacy.
  pose proof (legacy_path_ne dataDir deviceId month) as Hne. fold legacy current in Hne.
  unfold Storage.saveMonthlyData, tryCatch, bind at 1. fold month. fold current.
  pose proof (loadMonthlyData_world dataDir deviceId month w) as Hw.
  destruct (Storage.loadMonthlyData dataDir deviceId month w) as [[existing|e] w1];
    simpl in Hw; subst w1; [|done].
  unfold bind, nowISO, writeJson, Storage.removeLegacyMonthlyFile, deleteFile, throw, ret.
  fold legacy. simpl. rewrite decide_False by done.
  destruct (faulty w OpWrite current); simpl; [done|].
  by destruct (faulty w OpDelete legacy).
Qed.

(** C9. Two-tier lookup and migration. [loadMonthlyData] returns the file
    at the current hourly location when there is one and falls back to the
    legacy location only otherwise. [saveMonthlyData] removes the legacy file
    only after the merged data have been written to the current location: a
    failed write leaves every file, the legacy one included, as it was, and
    without faults the merged file is written and the legacy file removed. *)
Theorem monthly_lookup_and_migration
    (dataDir deviceId : string) (monthlyData : MonthlyData.t) (w : World) :
  let month := MonthlyData.month monthlyData in
  let current := PathManager.getHourlyFilePath dataDir deviceId month in
  let legacy := PathManager.getLegacyMonthlyFilePath dataDir deviceId month in
  let merged :=
    {| MonthlyData.device_id := deviceId;
       MonthlyData.month := month;
       MonthlyData.data :=
         DataMerger.mergeDataPoints deviceId
           (Storage.dataOrEmpty (Storage.twoTierLookup dataDir deviceId month w))
           (MonthlyData.data monthlyData);
       MonthlyData.lastUpdated := isoString w (ticks w) |} in
  (faulty w OpRead current = false →
   (is_Some (files w !! current) ∨ faulty w OpRead legacy = false) →
   Storage.loadMonthlyData dataDir deviceId month w
   = (Ok (Storage.twoTierLookup dataDir deviceId month w), w))
  ∧ (∀ r w', Storage.saveMonthlyData dataDir deviceId monthlyData w = (r, w') →
       files w' !! legacy ≠ files w !! legacy →
       files w' !! current = Some (JMonthly merged) ∧ files w' !! legacy = None)
  ∧ (faulty w OpWrite current = true →
     ∃ e w', Storage.saveMonthlyData dataDir deviceId monthlyData w = (Throw e, w')
             ∧ files w' = files w)
  ∧ (faulty w OpRead current = false → faulty w OpRead legacy = false →
     faulty w OpWrite current = false → faulty w OpDelete legacy = false →
     ∃ w', Storage.saveMonthlyData dataDir deviceId monthlyData w = (Ok tt, w')
           ∧ files w' = delete legacy (<[current := JMonthly merged]> (files w))).
Proof.
  intros month current legacy merged.
  pose proof (legacy_path_ne dataDir deviceId month) as Hne. fold legacy current in Hne.
  split; [apply loadMonthlyData_run|].
  rewrite saveMonthlyData_run. fold month. fold current. fold legacy.
  destruct (Storage.loadMonthlyData dataDir deviceId month w) as [[existing|e] w1] eqn:Hload.
  - apply loadMonthlyData_Ok in Hload as ->. fold merged.
    destruct (faulty w OpWrite current) eqn:Hwr; simpl;
      [|destruct (faulty w OpDelete legacy) eqn:Hdel; simpl].
    + split; [by intros ?? [= <- <-] []|]. split; [eauto|]. intros. congruence.
    + split; [|split; [done|intros; congruence]].
      intros ?? [= <- <-]. simpl. by rewrite lookup_insert_ne.
    + split; [|split; [done|eauto]].
      intros ?? [= <- <-] _. simpl.
      by rewrite lookup_delete_eq, lookup_delete_ne, lookup_insert_eq.
  - split; [by intros ?? [= <- <-] []|]. split; [eauto|].
    intros Hp Hl. rewrite loadMonthlyData_run in Hload by auto. done.
Qed.

(** ** Running monadic code *)

Lemma bind_inv {A B} (c : M A) (k : A → M B) w r w' :
  bind c k w = (r, w') →
  (∃ a w1, c w = (Ok a, w1) ∧ k a w1 = (r, w'))
  ∨ (∃ e, c w = (Throw e, w') ∧ r = Throw e).
Proof.
  unfold bind. destruct (c w) as [[a|e] w1]; intros Heq.
  - left. eauto.
  - right. exists e. by simplify_eq.
Qed.

Lemma tryCatch_inv {A} (body : M A) (handler : JsError → M A) w r w' :
  tryCatch body handler w = (r, w') →
  (∃ a, body w = (Ok a, w') ∧ r = Ok a)
  ∨ (∃ e w1, body w = (Throw e, w1) ∧ handler e w1 = (r, w')).
Proof.
  unfold tryCatch. destruct (body w) as [[a|e] w1]; intros Heq.
  - left. exists a. by simplify_eq.
  - right. eauto.
Qed.

Lemma nowISO_run w : nowISO w = (Ok (isoString w (ticks w)), setTicks (S (ticks w)) w).
Proof. done. Qed.

(** ** What the operations leave unchanged *)

Lemma sameEnv_refl w : sameEnv w w.
Proof. by repeat split. Qed.

Lemma sameEnv_trans w1 w2 w3 : sameEnv w1 w2 → sameEnv w2 w3 → sameEnv w1 w3.
Proof. unfold sameEnv. intros (?&?&?&?&?) (?&?&?&?&?). repeat split; congruence. Qed.

Lemma quiet_refl w : quiet w w.
Proof. split; [apply sameEnv_refl|done]. Qed.

Lemma quiet_trans w1 w2 w3 : quiet w1 w2 → quiet w2 w3 → quiet w1 w3.
Proof.
  intros (?&?&?) (?&?&?). split; [by eapply sameEnv_trans|]. split; congruence.
Qed.

Lemma noFaults_sameEnv w w' : sameEnv w w' → noFaults w → noFaults w'.
Proof. intros (Hf&_) Hno op p. rewrite Hf. apply Hno. Qed.

Lemma quiet_setFiles f w : quiet w (setFiles f w).
Proof. by repeat split. Qed.

Lemma quiet_setTicks n w : quiet w (setTicks n w).
Proof. by repeat split. Qed.

Lemma saveMonthlyData_quiet dataDir deviceId monthlyData w :
  quiet w (Storage.saveMonthlyData dataDir deviceId monthlyData w).2.
Proof.
  rewrite saveMonthlyData_run.
  destruct (Storage.loadMonthlyData _ _ _ w) as [[existing|e] w1]; [|apply quiet_refl].
  repeat case_match; simpl; by repeat split.
Qed.

Lemma saveMonthlyData_noFaults dataDir deviceId monthlyData w :
  noFaults w → (Storage.saveMonthlyData dataDir deviceId monthlyData w).1 = Ok tt.
Proof.
  intros Hno. rewrite saveMonthlyData_run, loadMonthlyData_run by (auto using Hno).
  by rewrite !Hno.
Qed.

(** The outcome of [saveDailyData], by the faults met on the way. *)
Lemma saveDailyData_run dataDir deviceId month entries w :
  let filePath := PathManager.getDailyFilePath dataDir deviceId month in
  Storage.saveDailyData dataDir deviceId month entries w =
    if faulty w OpRead filePath then
      (Throw (Error ("Failed to save daily data: "
                       +:+ errMessage (ioError ("loading daily data for device "
                                                  +:+ deviceId +:+ ", month " +:+ month)))), w)
    else
      let dailyData :=
        {| DailyData.device_id := deviceId;
           DailyData.month := month;
           DailyData.days :=
             DataMerger.mergeDailyEntries (Storage.daysOrEmpty (files w !! filePath)) entries;
           DailyData.lastUpdated := isoString w (ticks w) |} in
      let w1 := setTicks (S (ticks w)) w in
      if faulty w OpWrite filePath then
        (Throw (Error ("Failed to save daily data: "
                         +:+ errMessage (ioError ("saving daily data for device "
                                                    +:+ deviceId +:+ ", month " +:+ month)))), w1)
      else (Ok tt, setFiles (<[filePath := JDaily dailyData]> (files w)) w1).
Proof.
  intros filePath.
  unfold Storage.saveDailyData, Storage.loadDailyData, tryCatch, bind, readJson, nowISO,
    writeJson, throw. fold filePath.
  destruct (faulty w OpRead filePath); [done|]. simpl.
  by destruct (faulty w OpWrite filePath).
Qed.

Lemma saveDailyData_quiet dataDir deviceId month entries w :
  quiet w (Storage.saveDailyData dataDir deviceId month entries w).2.
Proof. rewrite saveDailyData_run. repeat case_match; simpl; by repeat split. Qed.

Lemma saveDailyData_noFaults dataDir deviceId month entries w :
  noFaults w → (Storage.saveDailyData dataDir deviceId month entries w).1 = Ok tt.
Proof. intros Hno. rewrite saveDailyData_run. by rewrite !Hno. Qed.

(** ** Storage: what a save leaves on disk *)

(** C2. Last write wins by the key (date, hour): when [new] is the reading
    that [incoming] supplies for key [k], the merge holds exactly one reading
    with that key, and it is [new]; a different reading of [existing] with
    the same key is gone. The same holds when [existing] is itself the result
    of an earlier merge, and for the file that [saveMonthlyData] writes: the
    most recent call decides. No timestamp is compared. *)
Theorem mergeReadings_last_write_wins
    (existing earlier incoming : list TrafficDataPoint.t)
    (k : ReadingKey) (new : TrafficDataPoint.t) :
  lastWithKey TrafficDataPoint.key k incoming = Some new →
  withKey TrafficDataPoint.key k (mergeReadings existing incoming) = [new]
  ∧ (∀ old, TrafficDataPoint.key old = k → old ≠ new →
            old ∉ mergeReadings existing incoming)
  ∧ withKey TrafficDataPoint.key k
      (mergeReadings (mergeReadings existing earlier) incoming) = [new]
  ∧ (∀ dataDir deviceId monthlyData w w',
       MonthlyData.data monthlyData = incoming →
       Storage.saveMonthlyData dataDir deviceId monthlyData w = (Ok tt, w') →
       ∃ stored,
         files w' !! PathManager.getHourlyFilePath dataDir deviceId
                       (MonthlyData.month monthlyData) = Some (JMonthly stored)
         ∧ withKey TrafficDataPoint.key k (MonthlyData.data stored) = [new]).
Proof.
  intros Hnew.
  assert (∀ e, withKey TrafficDataPoint.key k (mergeReadings e incoming) = [new]) as Hwin.
  { intros e. by apply mergeByKey_incoming_wins. }
  split; [apply Hwin|]. split; [|split; [apply Hwin|]].
  - intros old Hk Hne Hin.
    assert (old ∈ withKey TrafficDataPoint.key k (mergeReadings existing incoming)) as Hold.
    { unfold withKey. by apply list_elem_of_filter. }
    rewrite Hwin in Hold. by apply list_elem_of_singleton in Hold.
  - intros dataDir deviceId monthlyData w w' Hdata Hsave.
    rewrite saveMonthlyData_run in Hsave.
    destruct (Storage.loadMonthlyData _ _ _ w) as [[stored|e] w1]; [|done].
    destruct (faulty w OpWrite _); [done|]. destruct (faulty w OpDelete _); [done|].
    injection Hsave as <-. eexists. simpl. split.
    + rewrite lookup_delete_ne by apply legacy_path_ne. apply lookup_insert_eq.
    + simpl. rewrite Hdata. apply Hwin.
Qed.

(** C4. The daily merge replaces and does not sum: when [new] is the entry
    that [incoming] supplies for a date, the merged list holds exactly that
    entry for the date, so every count of the date is the incoming count; so
    does the file that [saveDailyData] writes. *)
Theorem mergeDailyEntries_replaces
    (existing incoming : list DailyEntry.t) (new : DailyEntry.t) :
  lastWithKey DailyEntry.date (DailyEntry.date new) incoming = Some new →
  withKey DailyEntry.date (DailyEntry.date new) (mergeDailyEntries existing incoming) = [new]
  ∧ (∀ e, e ∈ mergeDailyEntries existing incoming →
          DailyEntry.date e = DailyEntry.date new →
          DailyEntry.totals e = DailyEntry.totals new)
  ∧ (∀ dataDir deviceId month w w',
       Storage.saveDailyData dataDir deviceId month incoming w = (Ok tt, w') →
       ∃ stored,
         files w' !! PathManager.getDailyFilePath dataDir deviceId month
         = Some (JDaily stored)
         ∧ withKey DailyEntry.date (DailyEntry.date new) (DailyData.days stored) = [new]).
Proof.
  intros Hnew.
  assert (∀ ex, withKey DailyEntry.date (DailyEntry.date new)
                  (mergeDailyEntries ex incoming) = [new]) as Hwin.
  { intros ex. by apply mergeByKey_incoming_wins. }
  split; [done|]. split.
  - intros e Hin Hd.
    assert (e ∈ withKey DailyEntry.date (DailyEntry.date new)
                  (mergeDailyEntries existing incoming)) as He.
    { unfold withKey. by apply list_elem_of_filter. }
    rewrite Hwin in He. apply list_elem_of_singleton in He. by subst.
  - intros dataDir deviceId month w w' Hsave. rewrite saveDailyData_run in Hsave.
    destruct (faulty w OpRead _); [done|]. destruct (faulty w OpWrite _); [done|].
    injection Hsave as <-. eexists. simpl. split; [apply lookup_insert_eq|]. apply Hwin.
Qed.

(** ** DataCollector: one device *)

Import DataCollector.

Section Collector.
Context `{JsDate}.

(** The loop of [saveDeviceData] over the month groups. *)
Lemma saveDeviceData_loop cfg deviceId (groups : list (string * list TrafficDataPoint.t))
    (acc : nat) w r w' :
  forEach
    (λ totalPoints '(month, monthData),
       now <- nowISO ;;
       let monthlyData :=
         {| MonthlyData.device_id := deviceId;
            MonthlyData.month := month;
            MonthlyData.data := monthData;
            MonthlyData.lastUpdated := now |} in
       Storage.saveMonthlyData (CollectorConfig.dataDir cfg) deviceId monthlyData ;;;
       let dailyEntries := Storage.buildDailyEntries monthData in
       Storage.saveDailyData (CollectorConfig.dataDir cfg) deviceId month dailyEntries ;;;
       ret (totalPoints + length monthData))
    groups acc w = (r, w') →
  quiet w w'
  ∧ (∀ n, r = Ok n → n = acc + DataMerger.groupSizes groups)
  ∧ (noFaults w → r = Ok (acc + DataMerger.groupSizes groups)).
Proof.
  revert acc w. induction groups as [|[month monthData] groups IH]; intros acc w Hrun.
  - simpl in Hrun. unfold ret in Hrun. simplify_eq. unfold DataMerger.groupSizes. simpl.
    split; [apply quiet_refl|]. split; [intros n [= <-]|intros _; f_equal]; lia.
  - simpl in Hrun. unfold DataMerger.groupSizes in *. csimpl.
    apply bind_inv in Hrun as [(acc' & w4 & Hbody & Hrest)|(e & Hbody & ->)].
    + apply bind_inv in Hbody as [(now & w1 & Hnow & Hbody)|(e & Hnow & ?)];
        [|by rewrite nowISO_run in Hnow].
      rewrite nowISO_run in Hnow. simplify_eq.
      apply bind_inv in Hbody as [([] & w2 & Hm & Hbody)|(e & _ & ?)]; [|done].
      apply bind_inv in Hbody as [([] & w3 & Hd & Hbody)|(e & _ & ?)]; [|done].
      unfold ret in Hbody. simplify_eq.
      pose proof (saveMonthlyData_quiet (CollectorConfig.dataDir cfg) deviceId
        {| MonthlyData.device_id := deviceId; MonthlyData.month := month;
           MonthlyData.data := monthData;
           MonthlyData.lastUpdated := isoString w (ticks w) |}
        (setTicks (S (ticks w)) w)) as Hq1. rewrite Hm in Hq1. simpl in Hq1.
      pose proof (saveDailyData_quiet (CollectorConfig.dataDir cfg) deviceId month
        (Storage.buildDailyEntries monthData) w2) as Hq2. rewrite Hd in Hq2. simpl in Hq2.
      assert (quiet w w4) as Hq.
      { eapply quiet_trans; [apply quiet_setTicks|]. by eapply quiet_trans. }
      destruct (IH _ _ Hrest) as (Hq3 & Hcount & Hok).
      split; [by eapply quiet_trans|]. split.
      * intros n Hn. rewrite (Hcount n Hn). lia.
      * intros Hno. rewrite Hok; [f_equal; lia|].
        eapply noFaults_sameEnv; [apply Hq|done].
    + apply bind_inv in Hbody as [(now & w1 & Hnow & Hbody)|(e' & Hnow & ?)];
        [|by rewrite nowISO_run in Hnow].
      rewrite nowISO_run in Hnow. simplify_eq.
      pose proof (saveMonthlyData_quiet (CollectorConfig.dataDir cfg) deviceId
        {| MonthlyData.device_id := deviceId; MonthlyData.month := month;
           MonthlyData.data := monthData;
           MonthlyData.lastUpdated := isoString w (ticks w) |}
        (setTicks (S (ticks w)) w)) as Hq1.
      pose proof (saveMonthlyData_noFaults (CollectorConfig.dataDir cfg) deviceId
        {| MonthlyData.device_id := deviceId; MonthlyData.month := month;
           MonthlyData.data := monthData;
           MonthlyData.lastUpdated := isoString w (ticks w) |}
        (setTicks (S (ticks w)) w)) as Hn1.
      apply bind_inv in Hbody as [([] & w2 & Hm & Hbody)|(e' & Hm & ?)].
      * rewrite Hm in Hq1. simpl in Hq1.
        pose proof (saveDailyData_quiet (CollectorConfig.dataDir cfg) deviceId month
          (Storage.buildDailyEntries monthData) w2) as Hq2.
        pose proof (saveDailyData_noFaults (CollectorConfig.dataDir cfg) deviceId month
          (Storage.buildDailyEntries monthData) w2) as Hn2.
        apply bind_inv in Hbody as [([] & w3 & Hd & Hbody)|(e' & Hd & ?)];
          [done|]. simplify_eq. rewrite Hd in Hq2, Hn2. simpl in Hq2, Hn2.
        assert (quiet w w') as Hq.
        { eapply quiet_trans; [apply quiet_setTicks|]. by eapply quiet_trans. }
        split; [done|]. split; [done|]. intros Hno.
        assert (noFaults w2) as Hno2; [|by specialize (Hn2 Hno2)].
        eapply noFaults_sameEnv; [apply Hq1|]. done.
      * simplify_eq. rewrite Hm in Hq1, Hn1. simpl in Hq1, Hn1.
        split; [eapply quiet_trans; [apply quiet_setTicks|done]|].
        split; [done|]. intros Hno. by specialize (Hn1 Hno).
Qed.
End Collector.

Section CollectorDevice.
Context `{JsDate}.

Lemma saveDeviceData_spec cfg deviceId dataPoints w r w' :
  saveDeviceData cfg deviceId dataPoints w = (r, w') →
  quiet w w'
  ∧ (∀ n, r = Ok n → n = DataMerger.groupSizes (DataMerger.groupByMonth dataPoints))
  ∧ (noFaults w → r = Ok (DataMerger.groupSizes (DataMerger.groupByMonth dataPoints))).
Proof.
  unfold saveDeviceData, Storage.groupDataByMonth. intros Hrun.
  by apply saveDeviceData_loop in Hrun.
Qed.

(** What [collectSingleDevice] does, by the response of the API: it never
    throws; a failed fetch or a failed save becomes a failed result. *)
Lemma collectSingleDevice_spec cfg device w :
  ∃ res w',
    collectSingleDevice cfg device w = (Ok res, w')
    ∧ sameEnv w w' ∧ calls w' = S (calls w) ∧ trace w' = trace w
    ∧ CollectionResult.deviceId res = DeviceConfig.id device
    ∧ (CollectionResult.success res = false → CollectionResult.lastUpdated res = None)
    ∧ match nextResponse cfg device w with
      | Throw e =>
          CollectionResult.success res = false ∧ files w' = files w
      | Ok dataPoints =>
          (CollectionResult.success res = true →
             CollectionResult.dataPointsCollected res
               = DataMerger.groupSizes (DataMerger.groupByMonth dataPoints)
             ∧ CollectionResult.lastUpdated res = getLatestDataTimestamp dataPoints)
          ∧ (dataPoints = [] →
               CollectionResult.success res = true ∧ files w' = files w)
          ∧ (noFaults w → CollectionResult.success res = true)
      end.
Proof.
  unfold collectSingleDevice, tryCatch, nextResponse.
  unfold bind at 1, calculateDateRange. unfold bind at 1. rewrite nowISO_run.
  unfold ret at 1. unfold bind at 1, fetchTrafficData. simpl.
  destruct (responses w (calls w) (DeviceConfig.id device) _) as [dataPoints|e].
  - destruct dataPoints as [|p ps]; simpl.
    + unfold ret. eexists _, _. split; [done|]. simpl. by repeat split.
    + set (dataPoints := p :: ps).
      set (w1 := setCalls (S (calls w)) (setTicks (S (ticks w)) w)).
      unfold bind.
      destruct (saveDeviceData cfg (DeviceConfig.id device) dataPoints w1)
        as [[n|e] w2] eqn:Hsave;
        apply saveDeviceData_spec in Hsave as ((Henv & Hcalls & Htrace) & Hcount & Hok);
        unfold ret; eexists _, _; (split; [done|]); simpl.
      * split; [eapply sameEnv_trans; [|done]; by repeat split|].
        repeat split; try done. by rewrite (Hcount n eq_refl).
      * split; [eapply sameEnv_trans; [|done]; by repeat split|].
        repeat split; try done. intros Hno.
        assert (noFaults w1) as Hno1 by (intros op q; apply Hno).
        by specialize (Hok Hno1).
  - unfold ret. eexists _, _. split; [done|]. simpl. by repeat split.
Qed.
End CollectorDevice.

(** ** Month groups *)

Lemma groupSizes_groupPush {A} (k : string) (p : A) groups :
  DataMerger.groupSizes (DataMerger.groupPush k p groups)
  = S (DataMerger.groupSizes groups).
Proof.
  unfold DataMerger.groupSizes.
  induction groups as [|[k' ps] groups IH]; csimpl; [done|].
  destruct (k' =? k)%string; csimpl.
  - rewrite length_app. simpl. lia.
  - rewrite IH. lia.
Qed.

(** The month groups hold the readings whose date parses, once each. *)
Lemma groupSizes_groupByMonth `{JsDate} (readings : list TrafficDataPoint.t) :
  DataMerger.groupSizes (DataMerger.groupByMonth readings)
  = length (filter (λ p, is_Some (getTime (TrafficDataPoint.date p))) readings).
Proof.
  unfold DataMerger.groupByMonth.
  assert (∀ groups,
    DataMerger.groupSizes
      (foldl (λ groups p,
                match getTime (TrafficDataPoint.date p) with
                | Some _ => DataMerger.groupPush (substring 0 7 (TrafficDataPoint.date p)) p groups
                | None => groups
                end) groups readings)
    = DataMerger.groupSizes groups
      + length (filter (λ p, is_Some (getTime (TrafficDataPoint.date p))) readings)) as Hgen.
  { induction readings as [|p ps IH]; intros groups; simpl; [lia|].
    rewrite IH, filter_cons.
    destruct (getTime (TrafficDataPoint.date p)) as [t|] eqn:Ht.
    - rewrite decide_True by eauto. rewrite groupSizes_groupPush. simpl. lia.
    - rewrite decide_False; [done|]. by intros [? [=]]. }
  by rewrite Hgen.
Qed.

Lemma filter_all {A} (P : A → Prop) `{∀ x, Decision (P x)} (l : list A) :
  (∀ x, x ∈ l → P x) → filter P l = l.
Proof.
  induction l as [|x l IH]; intros Hall; [done|].
  rewrite filter_cons_True by (apply Hall; left).
  f_equal. apply IH. intros y Hy. apply Hall. by right.
Qed.

(** C10 (as amended). The count reported for a successful device is the sum
    of the sizes of the month groups of the fetched batch, which is the
    number of fetched readings whose date parses, and so the size of the
    batch when every date parses; it does not depend on what storage already
    held. A fetch of no reading gives a successful result with count 0 and
    leaves every file as it was. *)
Theorem dataPointsCollected_counts_fetched `{JsDate}
    (cfg : CollectorConfig.t) (device : DeviceConfig.t) (w : World)
    (dataPoints : list TrafficDataPoint.t) :
  nextResponse cfg device w = Ok dataPoints →
  ∃ res w',
    collectSingleDevice cfg device w = (Ok res, w')
    ∧ (CollectionResult.success res = true →
       CollectionResult.dataPointsCollected res
         = DataMerger.groupSizes (DataMerger.groupByMonth dataPoints)
       ∧ CollectionResult.dataPointsCollected res
         = length (filter (λ p, is_Some (getTime (TrafficDataPoint.date p))) dataPoints)
       ∧ ((∀ p, p ∈ dataPoints → is_Some (getTime (TrafficDataPoint.date p))) →
          CollectionResult.dataPointsCollected res = length dataPoints))
    ∧ (dataPoints = [] →
       CollectionResult.success res = true
       ∧ CollectionResult.dataPointsCollected res = 0
       ∧ files w' = files w)
    ∧ (noFaults w → CollectionResult.success res = true).
Proof.
  intros Hresp.
  destruct (collectSingleDevice_spec cfg device w)
    as (res & w' & Hrun & _ & _ & _ & _ & _ & Hcase).
  rewrite Hresp in Hcase. destruct Hcase as (Hcount & Hempty & Hok).
  exists res, w'. split; [done|]. split; [|split; [|done]].
  - intros Hs. destruct (Hcount Hs) as [Hn _]. split; [done|].
    rewrite Hn, groupSizes_groupByMonth. split; [done|].
    intros Hall. f_equal. by apply filter_all.
  - intros ->. destruct (Hempty eq_refl) as [Hs Hf]. split; [done|]. split; [|done].
    by destruct (Hcount Hs) as [-> _].
Qed.

(** ** DataCollector: the loop over the devices *)

(** [getTotalHourlyDataPoints] changes nothing, and throws only when a file
    operation is set to fail. *)
Lemma getTotalHourlyDataPoints_spec dataDir deviceId w r w' :
  Storage.getTotalHourlyDataPoints dataDir deviceId w = (r, w') →
  w' = w ∧ ∀ e, r = Throw e → isFileSystemError e = true ∧ ¬ noFaults w.
Proof.
  unfold Storage.getTotalHourlyDataPoints.
  set (hourlyDir := PathManager.getHourlyDirectory dataDir deviceId).
  unfold bind at 1. unfold tryCatch, bind at 1, collectJsonFiles.
  destruct (dirExists hourlyDir w); [|simpl; unfold ret; by intros [= <- <-]].
  destruct (faulty w OpList hourlyDir) eqn:Hlist.
  { simpl. unfold throw. intros [= <- <-]. split; [done|]. intros e [= <-].
    split; [done|]. intros Hno. by rewrite Hno in Hlist. }
  unfold ret at 1. generalize (jsonFilesUnder hourlyDir w) 0.
  intros filePaths. induction filePaths as [|p ps IH]; intros acc; simpl.
  - unfold ret. by intros [= <- <-].
  - unfold bind at 1. unfold bind at 1, readJson at 1.
    destruct (faulty w OpRead p) eqn:Hread.
    + intros [= <- <-]. split; [done|]. intros e [= <-]. split; [done|].
      intros Hno. by rewrite Hno in Hread.
    + unfold ret at 1. apply IH.
Qed.

Lemma resultFor_sameEnv w w' device res :
  sameEnv w w' → resultFor w' device res → resultFor w device res.
Proof.
  intros (Hf & Hr & _) (Hid & Hfail & Hok). unfold resultFor, alwaysFails, alwaysAnswers in *.
  rewrite Hr in Hfail, Hok. split; [done|]. split; [done|].
  intros Hno. apply Hok. intros op p. rewrite Hf. apply Hno.
Qed.

Lemma metadataFor_sameEnv w w' previous device meta :
  sameEnv w w' → metadataFor w' previous device meta → metadataFor w previous device meta.
Proof.
  intros (_ & Hr & _) (Hid & Hname & Hloc & Hlast). unfold metadataFor, alwaysEmpty in *.
  rewrite Hr in Hlast. done.
Qed.

Section CollectorLoop.
Context `{JsDate}.

(** The result of one device, read against the API as a whole. *)
Lemma collectSingleDevice_resultFor cfg device w :
  ∃ res w',
    collectSingleDevice cfg device w = (Ok res, w')
    ∧ sameEnv w w'
    ∧ resultFor w device res
    ∧ (alwaysEmpty w (DeviceConfig.id device) → CollectionResult.lastUpdated res = None).
Proof.
  destruct (collectSingleDevice_spec cfg device w)
    as (res & w' & Hrun & Henv & _ & _ & Hid & Hnone & Hcase).
  exists res, w'. split; [done|]. split; [done|]. unfold nextResponse in Hcase. split.
  - split; [done|]. split.
    + intros Hfail.
      destruct (Hfail (calls w)
        {| rangeEnd := isoString w (ticks w);
           rangeDays := CollectorConfig.daysToFetch cfg |}) as [e He].
      rewrite He in Hcase. by destruct Hcase.
    + intros Hno Hans.
      destruct (Hans (calls w)
        {| rangeEnd := isoString w (ticks w);
           rangeDays := CollectorConfig.daysToFetch cfg |}) as [b Hb].
      rewrite Hb in Hcase. destruct Hcase as (_ & _ & Hok). by apply Hok.
  - intros Hempty. rewrite Hempty in Hcase. destruct Hcase as (Hcount & Hs & _).
    destruct (Hs eq_refl) as [Hsucc _]. by destruct (Hcount Hsucc) as [_ ->].
Qed.

(** The loop gives every device a result and a metadata record, in the
    order of the configuration; it stops early only when a file operation
    set to fail makes the recount of the stored points throw. *)
Lemma deviceLoop_spec cfg previous remaining acc w r w' :
  deviceLoop cfg previous remaining acc w = (r, w') →
  sameEnv w w'
  ∧ match r with
    | Ok (allResults, allMetadata) =>
        ∃ results metadata,
          allResults = acc.1 ++ results ∧ allMetadata = acc.2 ++ metadata
          ∧ Forall2 (resultFor w) remaining results
          ∧ Forall2 (metadataFor w previous) remaining metadata
    | Throw e => isFileSystemError e = true ∧ ¬ noFaults w
    end.
Proof.
  revert acc w. induction remaining as [|device rest IH]; intros acc w Hrun; simpl in Hrun.
  - unfold ret in Hrun. simplify_eq. split; [apply sameEnv_refl|].
    destruct acc as [rs ms]. exists [], []. simpl. rewrite !app_nil_r.
    repeat split; constructor.
  - destruct (collectSingleDevice_resultFor cfg device w)
      as (res & w1 & Hdev & Henv1 & Hres & Hlast).
    apply bind_inv in Hrun as [(res' & w1' & Hdev' & Hrun)|(e & Hdev' & _)];
      [|by rewrite Hdev in Hdev'].
    rewrite Hdev in Hdev'. injection Hdev' as <- <-.
    apply bind_inv in Hrun as [(total & w2 & Htotal & Hrun)|(e & Htotal & ->)].
    2:{ apply getTotalHourlyDataPoints_spec in Htotal as [-> Hthrow].
        split; [done|]. destruct (Hthrow e eq_refl) as [Hfs Hno]. split; [done|].
        intros Hno'. apply Hno. by eapply noFaults_sameEnv. }
    apply getTotalHourlyDataPoints_spec in Htotal as [-> _].
    apply bind_inv in Hrun as [(lastUpdated & w3 & Hlu & Hrun)|(e & Hlu & ->)].
    2:{ repeat case_match; by simplify_eq. }
    assert (sameEnv w1 w3
            ∧ (alwaysEmpty w (DeviceConfig.id device) →
               ∀ prior, previous !! DeviceConfig.id device = Some prior →
                        lastUpdated = DeviceMetadata.lastUpdated prior)) as [Henv3 Hprior].
    { destruct (CollectionResult.lastUpdated res) as [t|] eqn:Ht.
      - unfold ret in Hlu. simplify_eq. split; [apply sameEnv_refl|].
        intros Hempty. by specialize (Hlast Hempty).
      - destruct (previous !! DeviceConfig.id device) as [meta|].
        + unfold ret in Hlu. simplify_eq. split; [apply sameEnv_refl|].
          by intros _ ? [= <-].
        + rewrite nowISO_run in Hlu. simplify_eq. split; [by repeat split|]. done. }
    apply bind_inv in Hrun as [([] & w4 & Hdelay & Hrun)|(e & Hdelay & ->)].
    2:{ unfold delay, emit, ret in Hdelay. repeat case_match; by simplify_eq. }
    assert (sameEnv w3 w4) as Henv4.
    { unfold delay, emit, ret in Hdelay. repeat case_match; simplify_eq;
        by repeat split. }
    assert (sameEnv w w4) as Henv.
    { eapply sameEnv_trans; [done|]. by eapply sameEnv_trans. }
    apply IH in Hrun as [Henv' Hrest]. split; [by eapply sameEnv_trans|].
    destruct r as [[allResults allMetadata]|e].
    + destruct Hrest as (results & metadata & -> & -> & Hrs & Hms). simpl.
      eexists (res :: results), (_ :: metadata).
      rewrite <-!app_assoc. split; [done|]. split; [done|]. split.
      * constructor; [done|].
        eapply Forall2_impl; [done|]. intros ??. by apply resultFor_sameEnv.
      * constructor; [by repeat split|].
        eapply Forall2_impl; [done|]. intros ??. by apply metadataFor_sameEnv.
    + destruct Hrest as [Hfs Hno]. split; [done|].
      intros Hno'. apply Hno. by eapply noFaults_sameEnv.
Qed.
End CollectorLoop.

(** ** DataCollector: the whole run *)

Lemma string_app_assoc (s1 s2 s3 : string) : (s1 +:+ s2) +:+ s3 = s1 +:+ s2 +:+ s3.
Proof.
  induction s1 as [|a s1 IH]; [done|].
  change (String a ((s1 +:+ s2) +:+ s3) = String a (s1 +:+ s2 +:+ s3)). by rewrite IH.
Qed.

Lemma prefix_app (s t : string) : String.prefix s (s +:+ t) = true.
Proof.
  induction s as [|a s IH]; [by destruct t|].
  change (String.prefix (String a s) (String a (s +:+ t)) = true). simpl.
  by destruct (ascii_dec a a).
Qed.

Lemma under_join dir name : under dir (PathManager.join [dir; name]) = true.
Proof.
  unfold under, PathManager.join. cbn. rewrite <-string_app_assoc. apply prefix_app.
Qed.

(** A directory into which a file has just been written exists. *)
Lemma dirExists_written dir p content w :
  under dir p = true →
  dirExists dir (setFiles (<[p := content]> (files w)) w) = true.
Proof.
  intros Hunder. unfold dirExists, pathsUnder. simpl.
  apply orb_true_iff. left. apply negb_true_iff, bool_decide_eq_false.
  intros Hnil. eapply (filter_nil_not_elem_of _ _ p); [exact Hnil|done|].
  apply list_elem_of_fmap. exists (p, content). split; [done|].
  apply elem_of_map_to_list, lookup_insert_eq.
Qed.

Lemma landing_path_ne dataDir :
  PathManager.getLandingPagePath dataDir ≠ PathManager.getDeviceMetadataPath dataDir.
Proof.
  unfold PathManager.getLandingPagePath, PathManager.getDeviceMetadataPath,
    PathManager.getDocsRoot, PathManager.join. cbn. intros Heq.
  rewrite !string_app_assoc in Heq. apply String.app_inj in Heq. discriminate.
Qed.

Lemma failureMessage_ne_type_error n :
  Error "existingMetadata.map is not a function" ≠ Error (failureMessage n).
Proof. unfold failureMessage. cbn. discriminate. Qed.

Lemma loadDeviceMetadata_run dataDir w :
  Storage.loadDeviceMetadata dataDir w =
    if faulty w OpRead (PathManager.getDeviceMetadataPath dataDir)
    then (Throw (ioError "loading device metadata"), w)
    else (Ok (match files w !! PathManager.getDeviceMetadataPath dataDir with
              | None => JDevices []
              | Some data => data
              end), w).
Proof.
  unfold Storage.loadDeviceMetadata, bind, readJson.
  destruct (faulty w OpRead _); [done|]. by destruct (files w !! _).
Qed.

Section CollectorRun.
Context `{JsDate}.

(** The tail of a run, once the loop over the devices has returned. *)
Lemma collectAllDevices_tail cfg results deviceMetadata startTime w r w' :
  (Storage.saveDeviceMetadata (CollectorConfig.dataDir cfg) deviceMetadata ;;;
   Storage.generateLandingPage (CollectorConfig.dataDir cfg) ;;;
   endTime <- nowISO ;;
   let summary := createSummary results startTime endTime in
   logSummary summary ;;;
   if 0 <? CollectionSummary.failedDevices summary
   then throw (Error (failureMessage (CollectionSummary.failedDevices summary)))
   else ret summary) w = (r, w') →
  (∃ endTime,
     let summary := createSummary results startTime endTime in
     r = (if 0 <? CollectionSummary.failedDevices summary
          then Throw (Error (failureMessage (CollectionSummary.failedDevices summary)))
          else Ok summary)
     ∧ files w' !! PathManager.getDeviceMetadataPath (CollectorConfig.dataDir cfg)
       = Some (JDevices deviceMetadata)
     ∧ files w' !! PathManager.getLandingPagePath (CollectorConfig.dataDir cfg)
       = Some (JText (landingHtml w))
     ∧ last (trace w') = Some (EvSummary summary))
  ∨ (∃ e, r = Throw e ∧ isFileSystemError e = true ∧ ¬ noFaults w).
Proof.
  set (dataDir := CollectorConfig.dataDir cfg).
  set (devicesPath := PathManager.getDeviceMetadataPath dataDir).
  intros Hrun.
  apply bind_inv in Hrun as [([] & w1 & Hsave & Hrun)|(e & Hsave & ->)].
  2:{ right. exists e. split; [done|].
      unfold Storage.saveDeviceMetadata, writeJson in Hsave. fold dataDir devicesPath in Hsave.
      destruct (faulty w OpWrite devicesPath) eqn:Hf; simplify_eq.
      split; [done|]. intros Hno. by rewrite Hno in Hf. }
  unfold Storage.saveDeviceMetadata, writeJson in Hsave. fold dataDir devicesPath in Hsave.
  destruct (faulty w OpWrite devicesPath) eqn:Hf; simplify_eq.
  apply bind_inv in Hrun as [([] & w2 & Hpage & Hrun)|(e & Hpage & ->)].
  2:{ right. exists e. split; [done|].
      unfold Storage.generateLandingPage, bind, collectJsonFiles, writeText, writeJson
        in Hpage.
      fold dataDir in Hpage. unfold PathManager.getDataDirectory in Hpage.
      rewrite dirExists_written in Hpage by apply under_join. simpl in Hpage.
      destruct (faulty w OpList dataDir) eqn:Hl; simplify_eq.
      { split; [done|]. intros Hno. by rewrite Hno in Hl. }
      change (faulty (setFiles _ w)) with (faulty w) in Hpage.
      destruct (faulty w OpWrite (PathManager.getLandingPagePath dataDir)) eqn:Hw;
        simplify_eq.
      split; [done|]. intros Hno. by rewrite Hno in Hw. }
  unfold Storage.generateLandingPage, bind, collectJsonFiles, writeText, writeJson in Hpage.
  fold dataDir in Hpage. unfold PathManager.getDataDirectory in Hpage.
  rewrite dirExists_written in Hpage by apply under_join. simpl in Hpage.
  destruct (faulty w OpList dataDir) eqn:Hl; simplify_eq.
  change (faulty (setFiles _ w)) with (faulty w) in Hpage.
  destruct (faulty w OpWrite (PathManager.getLandingPagePath dataDir)) eqn:Hw; simplify_eq.
  apply bind_inv in Hrun as [(endTime & w3 & Hnow & Hrun)|(e & Hnow & ->)];
    [|by rewrite nowISO_run in Hnow].
  rewrite nowISO_run in Hnow. simplify_eq. simpl in Hrun.
  apply bind_inv in Hrun as [([] & w4 & Hlog & Hrun)|(e & Hlog & ->)];
    [|by unfold logSummary, emit in Hlog].
  unfold logSummary, emit in Hlog. simplify_eq.
  left. eexists. split.
  { destruct (0 <? _); unfold throw, ret in Hrun; by simplify_eq. }
  assert (w' = setTrace (trace w ++ [EvSummary (createSummary results startTime
            (isoString w (ticks w)))])
            (setTicks (S (ticks w))
               (setFiles (<[PathManager.getLandingPagePath dataDir := JText (landingHtml w)]>
                            (<[devicesPath := JDevices deviceMetadata]> (files w))) w)))
    as ->.
  { destruct (0 <? _); unfold throw, ret in Hrun; by simplify_eq. }
  simpl. split; [|split; [by rewrite lookup_insert_eq|by rewrite last_snoc]].
  rewrite lookup_insert_ne by apply landing_path_ne. by rewrite lookup_insert_eq.
Qed.

(** Every run either completes, with the metadata persisted, the landing
    page written and the summary logged, and then throws exactly when a
    device has failed; or it is cut short by a step outside the per-device
    boundary, whose error it throws. *)
Lemma collectAllDevices_spec cfg w r w' :
  collectAllDevices cfg w = (r, w') →
  (∃ prior results deviceMetadata endTime,
     let summary := createSummary results (isoString w (ticks w)) endTime in
     priorMetadata (CollectorConfig.dataDir cfg) w = Some prior
     ∧ Forall2 (resultFor w) (CollectorConfig.devices cfg) results
     ∧ Forall2 (metadataFor w (metadataById prior)) (CollectorConfig.devices cfg)
         deviceMetadata
     ∧ r = (if 0 <? CollectionSummary.failedDevices summary
            then Throw (Error (failureMessage (CollectionSummary.failedDevices summary)))
            else Ok summary)
     ∧ files w' !! PathManager.getDeviceMetadataPath (CollectorConfig.dataDir cfg)
       = Some (JDevices deviceMetadata)
     ∧ files w' !! PathManager.getLandingPagePath (CollectorConfig.dataDir cfg)
       = Some (JText (landingHtml w))
     ∧ last (trace w') = Some (EvSummary summary))
  ∨ (∃ e, r = Throw e ∧ (∀ n, e ≠ Error (failureMessage n))
          ∧ (noFaults w → priorMetadata (CollectorConfig.dataDir cfg) w = None)).
Proof.
  set (dataDir := CollectorConfig.dataDir cfg).
  set (devicesPath := PathManager.getDeviceMetadataPath dataDir).
  unfold collectAllDevices. fold dataDir. intros Hrun.
  apply bind_inv in Hrun as [(startTime & w1 & Hnow & Hrun)|(e & Hnow & ->)];
    [|by rewrite nowISO_run in Hnow].
  rewrite nowISO_run in Hnow. injection Hnow as <- <-.
  assert (sameEnv w (setTicks (S (ticks w)) w)) as Henv1 by (by repeat split).
  apply bind_inv in Hrun as [(existing & w2 & Hload & Hrun)|(e & Hload & ->)].
  2:{ right. exists e. rewrite loadDeviceMetadata_run in Hload. fold devicesPath in Hload.
      change (faulty (setTicks _ w)) with (faulty w) in Hload.
      destruct (faulty w OpRead devicesPath) eqn:Hf; simplify_eq.
      split; [done|]. split; [done|]. intros Hno. by rewrite Hno in Hf. }
  rewrite loadDeviceMetadata_run in Hload. fold devicesPath in Hload.
  change (faulty (setTicks _ w)) with (faulty w) in Hload.
  change (files (setTicks _ w)) with (files w) in Hload.
  destruct (faulty w OpRead devicesPath) eqn:Hf; [done|]. injection Hload as <- <-.
  assert ((∃ prior, priorMetadata dataDir w = Some prior
                    ∧ match files w !! devicesPath with
                      | Some data => data
                      | None => JDevices []
                      end = JDevices prior)
          ∨ priorMetadata dataDir w = None
            ∧ ∀ l, match files w !! devicesPath with
                   | Some data => data
                   | None => JDevices []
                   end ≠ JDevices l) as Hprior.
  { unfold priorMetadata. fold devicesPath.
    destruct (files w !! devicesPath) as [[]|]; eauto. }
  destruct Hprior as [(prior & Hprior & Heq)|[Hprior Hbad]]; [rewrite Heq in Hrun|].
  2:{ right. destruct (match files w !! devicesPath with
                       | Some data => data | None => JDevices [] end) eqn:Hd;
        try (by destruct (Hbad l));
        unfold throw in Hrun; simplify_eq;
        (eexists; split; [done|]; split; [apply failureMessage_ne_type_error|done]). }
  apply bind_inv in Hrun as [([results deviceMetadata] & w3 & Hloop & Hrun)|(e & Hloop & ->)].
  2:{ right. exists e. apply deviceLoop_spec in Hloop as [_ [Hfs Hno]].
      split; [done|]. split; [intros n ->; done|].
      intros Hno'. destruct Hno. by eapply noFaults_sameEnv. }
  apply deviceLoop_spec in Hloop as [Henv3 (rs & ms & Hrs & Hms & Hres & Hmeta)].
  simpl in Hrs, Hms. subst rs ms.
  assert (sameEnv w w3) as Henv by (by eapply sameEnv_trans).
  apply collectAllDevices_tail in Hrun as [(endTime & Hr & Hdev & Hpage & Hlog)|(e & -> & Hfs & Hno)].
  - left. exists prior, results, deviceMetadata, endTime. simpl.
    split; [done|]. split.
    { eapply Forall2_impl; [done|]. intros ??. by apply resultFor_sameEnv. }
    split.
    { eapply Forall2_impl; [done|]. intros ??. by apply metadataFor_sameEnv. }
    split; [done|]. split; [done|]. split; [|done].
    fold dataDir in Hpage. rewrite Hpage. do 2 f_equal.
    by destruct Henv as (_ & _ & _ & ? & _).
  - right. exists e. split; [done|]. split; [intros n ->; done|].
    intros Hno'. destruct Hno. by eapply noFaults_sameEnv.
Qed.
End CollectorRun.

(** ** DataCollector: counting the failed results *)

Lemma failed_count_pos (results : list CollectionResult.t) :
  0 < length (filter (λ r, CollectionResult.success r = false) results)
  ↔ ∃ res, res ∈ results ∧ CollectionResult.success res = false.
Proof.
  split.
  - destruct (filter _ results) as [|res l] eqn:Hf; simpl; [lia|]. intros _.
    assert (res ∈ filter (λ r, CollectionResult.success r = false) results) as Hin
      by (rewrite Hf; left).
    apply list_elem_of_filter in Hin as [??]. eauto.
  - intros (res & Hin & Hs).
    assert (res ∈ filter (λ r, CollectionResult.success r = false) results) as Hin'
      by (by apply list_elem_of_filter).
    destruct (filter _ results); [by apply elem_of_nil in Hin'|simpl; lia].
Qed.



(** ** Worked instances *)

(** Two hours of one day, 10 and 20 cars: one entry, 30 cars, two hours. *)
Example buildDailyEntries_sums_the_day :
  (λ e, (DailyEntry.date e, car (DailyEntry.totals e), DailyEntry.hours_covered e))
    <$> buildDailyEntries (H := isoDateTime)
          [Sample.reading "2024-06-01" 0 10; Sample.reading "2024-06-01" 1 20]
  = [("2024-06-01", 30%Z, 2)].
Proof. vm_compute. reflexivity. Qed.

(** Shuffled input with a repeated key: sorted output, the last write kept. *)
Example mergeReadings_sorts_and_replaces :
  (λ p, (TrafficDataPoint.key p, car (TrafficDataPoint.counts p)))
    <$> mergeReadings
          [Sample.reading "2024-06-02" 1 1; Sample.reading "2024-06-01" 3 2]
          [Sample.reading "2024-06-01" 3 7; Sample.reading "2024-05-31" 23 4;
           Sample.reading "2024-06-01" 3 9]
  = [(("2024-05-31", 23), 4%Z); (("2024-06-01", 3), 9%Z); (("2024-06-02", 1), 1%Z)].
Proof. vm_compute. reflexivity. Qed.

Lemma mergeReadings_last_write_wins_witness :
  withKey TrafficDataPoint.key ("2024-06-01", 3)
    (mergeReadings [Sample.reading "2024-06-01" 3 2] [Sample.reading "2024-06-01" 3 7])
  = [Sample.reading "2024-06-01" 3 7].
Proof.
  apply (mergeReadings_last_write_wins
           [Sample.reading "2024-06-01" 3 2] []
           [Sample.reading "2024-06-01" 3 7]
           ("2024-06-01", 3) (Sample.reading "2024-06-01" 3 7)).
  vm_compute. reflexivity.
Defined.

Lemma mergeDailyEntries_replaces_witness :
  withKey DailyEntry.date "2024-06-01"
    (mergeDailyEntries [Sample.dailyEntry "2024-06-01" 30 2]
                       [Sample.dailyEntry "2024-06-01" 5 1])
  = [Sample.dailyEntry "2024-06-01" 5 1].
Proof.
  apply (mergeDailyEntries_replaces
           [Sample.dailyEntry "2024-06-01" 30 2]
           [Sample.dailyEntry "2024-06-01" 5 1]
           (Sample.dailyEntry "2024-06-01" 5 1)).
  vm_compute. reflexivity.
Defined.

Lemma getTotalHourlyDataPoints_sum_witness :
  Storage.getTotalHourlyDataPoints FILESYSTEM.DATA_DIR "A"
    (Sample.world ∅ Sample.healthy Sample.apiWithBDown)
  = (Ok 0, Sample.world ∅ Sample.healthy Sample.apiWithBDown)
  ∧ Storage.getTotalHourlyDataPoints FILESYSTEM.DATA_DIR "A"
      (Sample.world Sample.twoMonths Sample.healthy Sample.apiWithBDown)
    = (Ok 5, Sample.world Sample.twoMonths Sample.healthy Sample.apiWithBDown).
Proof.
  split.
  - apply (getTotalHourlyDataPoints_sum FILESYSTEM.DATA_DIR "A"
             (Sample.world ∅ Sample.healthy Sample.apiWithBDown)).
    vm_compute. reflexivity.
  - pose proof (proj2 (getTotalHourlyDataPoints_sum FILESYSTEM.DATA_DIR "A"
                         (Sample.world Sample.twoMonths Sample.healthy
                            Sample.apiWithBDown))) as Hsum.
    rewrite Hsum; [vm_compute; reflexivity|reflexivity|intros; reflexivity].
Defined.

Lemma monthly_lookup_and_migration_witness :
  let w := Sample.world Sample.legacyOnly Sample.healthy Sample.apiWithBDown in
  let incoming := Sample.monthly "A" "2024-06" [Sample.reading "2024-06-02" 1 9] in
  Storage.loadMonthlyData FILESYSTEM.DATA_DIR "A" "2024-06" w
  = (Ok (Sample.legacyOnly
           !! PathManager.getLegacyMonthlyFilePath FILESYSTEM.DATA_DIR "A" "2024-06"), w)
  ∧ ∃ w', Storage.saveMonthlyData FILESYSTEM.DATA_DIR "A" incoming w = (Ok tt, w')
          ∧ files w' !! PathManager.getLegacyMonthlyFilePath FILESYSTEM.DATA_DIR "A" "2024-06"
            = None
          ∧ Storage.dataOrEmpty
              (files w' !! PathManager.getHourlyFilePath FILESYSTEM.DATA_DIR "A" "2024-06")
            = [Sample.reading "2024-06-01" 3 2; Sample.reading "2024-06-02" 1 9].
Proof.
  intros w incoming.
  destruct (monthly_lookup_and_migration FILESYSTEM.DATA_DIR "A" incoming w)
    as (Hload & _ & _ & Hsave).
  split.
  - etrans; [apply Hload; [reflexivity|right; reflexivity]|]. vm_compute. reflexivity.
  - destruct Hsave as (w' & Hrun & Hfiles); try reflexivity.
    exists w'. split; [exact Hrun|]. rewrite Hfiles. vm_compute. split; reflexivity.
Defined.




(** A batch of three readings: the count is three, whatever is stored. *)
Lemma dataPointsCollected_counts_fetched_witness :
  let cfg := Sample.config ["A"] in
  let w := Sample.world Sample.twoMonths Sample.healthy Sample.apiWithBDown in
  ∃ res w',
    collectSingleDevice (H := isoDateTime) cfg (Sample.device "A") w = (Ok res, w')
    ∧ CollectionResult.success res = true
    ∧ CollectionResult.dataPointsCollected res = 3.
Proof.
  intros cfg w.
  destruct (dataPointsCollected_counts_fetched (H := isoDateTime) cfg (Sample.device "A") w
              Sample.batch)
    as (res & w' & Hrun & Hcount & _ & Hok); [reflexivity|].
  assert (CollectionResult.success res = true) as Hs by (apply Hok; intros op p; reflexivity).
  exists res, w'. split; [exact Hrun|]. split; [exact Hs|].
  destruct (Hcount Hs) as (_ & _ & Hlen). rewrite Hlen; [reflexivity|].
  intros p Hp. apply list_elem_of_In in Hp. simpl in Hp.
  destruct Hp as [<-|[<-|[<-|[]]]]; vm_compute; eauto.
Defined.

(** C6, the claim as stated, fails: with one device, whose collection
    succeeds, and a metadata file that cannot be written, the run throws the
    error of the write, no device has failed, and no metadata are stored. *)
Lemma aggregate_failure_counterexample :
  let cfg := Sample.config ["A"] in
  let w := Sample.world ∅ Sample.metadataReadOnly Sample.apiWithBDown in
  (collectAllDevices (H := isoDateTime) cfg w).1
  = Throw (ErrnoException "EIO" "I/O error while saving device metadata")
  ∧ files (collectAllDevices (H := isoDateTime) cfg w).2
      !! PathManager.getDeviceMetadataPath FILESYSTEM.DATA_DIR = None
  ∧ ∃ results deviceMetadata,
      (deviceLoop (H := isoDateTime) cfg (metadataById []) (CollectorConfig.devices cfg)
         ([], []) (setTicks 1 w)).1 = Ok (results, deviceMetadata)
      ∧ CollectionResult.success <$> results = [true].
Proof.
  intros cfg w. split; [vm_compute; reflexivity|]. split; [vm_compute; reflexivity|].
  eexists _, _. split; vm_compute; reflexivity.
Defined.

(** C10, the claim as stated, fails: of two fetched readings one has a date
    that does not parse; the device succeeds and reports one data point. *)
Lemma dataPointsCollected_counterexample :
  let cfg := Sample.config ["A"] in
  let w := Sample.world ∅ Sample.healthy Sample.apiWithBadDate in
  ∃ dataPoints res,
    nextResponse cfg (Sample.device "A") w = Ok dataPoints
    ∧ (collectSingleDevice (H := isoDateTime) cfg (Sample.device "A") w).1 = Ok res
    ∧ CollectionResult.success res = true
    ∧ length dataPoints = 2
    ∧ CollectionResult.dataPointsCollected res = 1.
Proof.
  intros cfg w. eexists _, _. split; [reflexivity|].
  split; [vm_compute; reflexivity|]. repeat split.
Defined.

(** * Further properties of the collector, the storage and the configuration *)

(** ** DataCollector: the summary and the latest timestamp *)

Lemma length_filter_partition {A} (P : A → Prop) `{∀ x, Decision (P x)} (l : list A) :
  length (filter P l) + length (filter (λ x, ¬ P x) l) = length l.
Proof.
  induction l as [|x l IH]; [done|]. rewrite !filter_cons.
  destruct (decide (P x)), (decide (¬ P x)); simpl; try lia; tauto.
Qed.

(** X1. The counts of a summary are consistent: every result is counted
    once, as successful or as failed, and no failure is counted exactly when
    every result is successful. *)
Theorem createSummary_counts (results : list CollectionResult.t) (startTime endTime : string) :
  CollectionSummary.successfulDevices (createSummary results startTime endTime)
  + CollectionSummary.failedDevices (createSummary results startTime endTime)
  = CollectionSummary.totalDevices (createSummary results startTime endTime)
  ∧ (CollectionSummary.failedDevices (createSummary results startTime endTime) = 0
     ↔ ∀ res, res ∈ results → CollectionResult.success res = true)
  ∧ (CollectionSummary.successfulDevices (createSummary results startTime endTime)
     = length results
     ↔ ∀ res, res ∈ results → CollectionResult.success res = true).
Proof.
  unfold createSummary. simpl.
  assert (length (filter (λ r, CollectionResult.success r = true) results)
          + length (filter (λ r, CollectionResult.success r = false) results)
          = length results) as Hsum.
  { rewrite <-(length_filter_partition (λ r, CollectionResult.success r = true) results).
    f_equal. f_equal. apply list_filter_iff. intros r.
    destruct (CollectionResult.success r); naive_solver. }
  assert (length (filter (λ r, CollectionResult.success r = false) results) = 0
          ↔ ∀ res, res ∈ results → CollectionResult.success res = true) as Hzero.
  { pose proof (failed_count_pos results) as Hpos. split.
    - intros Hz res Hin. destruct (CollectionResult.success res) eqn:Hs; [done|].
      assert (0 < length (filter (λ r, CollectionResult.success r = false) results));
        [apply Hpos; eauto|lia].
    - intros Hall.
      destruct (decide (length (filter (λ r, CollectionResult.success r = false) results)
                        = 0)) as [|Hne]; [done|].
      assert (0 < length (filter (λ r, CollectionResult.success r = false) results))
        as Hlt by lia.
      apply Hpos in Hlt as (res & Hin & Hs). rewrite (Hall res Hin) in Hs. done. }
  split; [done|]. split; [done|]. rewrite <-Hzero. lia.
Qed.

Section LatestTimestamp.
Context `{JsDate}.

Lemma getLatestDataTimestamp_fold (dataPoints : list TrafficDataPoint.t) :
  getLatestDataTimestamp dataPoints = foldl latestStep None dataPoints.
Proof. done. Qed.

(** The reducer keeps a usable date that is at least as late as the one it
    held and as every usable date it has seen. *)
Lemma latestStep_fold (dataPoints : list TrafficDataPoint.t) (acc : option string) :
  (∀ a, acc = Some a → usableDate a) →
  (foldl latestStep acc dataPoints = None
   ↔ acc = None ∧ ∀ p, p ∈ dataPoints → ¬ usableDate (TrafficDataPoint.date p))
  ∧ (∀ d, foldl latestStep acc dataPoints = Some d →
       usableDate d
       ∧ (acc = Some d ∨ ∃ p, p ∈ dataPoints ∧ TrafficDataPoint.date p = d)
       ∧ ∀ t, getTime d = Some t →
           (∀ a ta, acc = Some a → getTime a = Some ta → (ta ≤ t)%Z)
           ∧ (∀ q tq, q ∈ dataPoints → TrafficDataPoint.date q ≠ "" →
                getTime (TrafficDataPoint.date q) = Some tq → (tq ≤ t)%Z)).
Proof.
  revert acc. induction dataPoints as [|p ps IH]; intros acc Hacc; simpl.
  - split.
    + split; [intros ->; split; [done|]; by intros ? ?%elem_of_nil|by intros [-> _]].
    + intros d ->. split; [by apply Hacc|]. split; [by left|]. intros t Ht. split.
      * intros a ta [= ->] Ha. rewrite Ht in Ha. injection Ha as ->. lia.
      * by intros q tq ?%elem_of_nil.
  - assert (∀ a, latestStep acc p = Some a → usableDate a) as Hstep.
    { intros a. unfold latestStep.
      destruct (decide (TrafficDataPoint.date p = "")) as [|Hne]; [apply Hacc|].
      destruct (getTime (TrafficDataPoint.date p)) as [tp|] eqn:Htp; [|apply Hacc].
      assert (usableDate (TrafficDataPoint.date p)) as Hp by (split; [done|by rewrite Htp]).
      destruct acc as [l|]; [|by intros [= <-]].
      destruct (decide (l = "")); [by intros [= <-]|].
      destruct (getTime l); [|by intros [= <-]].
      destruct (tp >? _)%Z; [by intros [= <-]|apply Hacc]. }
    destruct (IH (latestStep acc p) Hstep) as [IHnone IHsome]. split.
    + rewrite IHnone. split.
      * intros [Hs Hall]. unfold latestStep in Hs.
        destruct (decide (TrafficDataPoint.date p = "")) as [He|Hne].
        { split; [done|]. intros q [->|Hq]%elem_of_cons; [by intros [? _]|by apply Hall]. }
        destruct (getTime (TrafficDataPoint.date p)) as [tp|] eqn:Htp.
        { destruct acc as [l|]; [|done]. destruct (decide (l = "")); [done|].
          destruct (getTime l) eqn:Hl; [|done].
          - destruct (tp >? _)%Z; done. }
        split; [done|]. intros q [->|Hq]%elem_of_cons; [|by apply Hall].
        intros [_ [? Hsome]]. congruence.
      * intros [-> Hall]. split; [|intros q Hq; apply Hall; by right].
        unfold latestStep.
        destruct (decide (TrafficDataPoint.date p = "")); [done|].
        destruct (getTime (TrafficDataPoint.date p)) eqn:Htp; [|done].
        destruct (Hall p (ltac:(left))). split; [done|by rewrite Htp].
    + intros d Hd. destruct (IHsome d Hd) as (Hus & Hfrom & Hmax).
      split; [done|]. split.
      * destruct Hfrom as [Hs|(q & Hq & <-)]; [|right; exists q; split; [by right|done]].
        unfold latestStep in Hs.
        destruct (decide (TrafficDataPoint.date p = "")); [by left|].
        destruct (getTime (TrafficDataPoint.date p)); [|by left].
        assert (Some (TrafficDataPoint.date p) = Some d → ∃ q, q ∈ p :: ps
                  ∧ TrafficDataPoint.date q = d) as Hp.
        { intros [= <-]. exists p. split; [left|done]. }
        destruct acc as [l|]; [|right; by apply Hp].
        destruct (decide (l = "")); [right; by apply Hp|].
        destruct (getTime l); [|right; by apply Hp].
        destruct (_ >? _)%Z; [right; by apply Hp|by left].
      * intros t Ht. destruct (Hmax t Ht) as [Hprev Hrest].
        assert (∀ a ta, acc = Some a → getTime a = Some ta → (ta ≤ t)%Z) as Hacc_le.
        { intros a ta -> Ha. destruct (Hacc a eq_refl) as [Hane _].
          unfold latestStep in Hprev.
          destruct (decide (TrafficDataPoint.date p = "")); [by eapply Hprev|].
          destruct (getTime (TrafficDataPoint.date p)) as [tp|] eqn:Htp;
            [|by eapply Hprev].
          rewrite decide_False, Ha in Hprev by done.
          destruct (tp >? ta)%Z eqn:Hgt; [|by eapply Hprev].
          specialize (Hprev _ tp eq_refl Htp). lia. }
        split; [done|]. intros q tq [->|Hq]%elem_of_cons Hne Hq_t; [|by eapply Hrest].
        unfold latestStep in Hprev. rewrite decide_False, Hq_t in Hprev by done.
        destruct acc as [l|]; [|by eapply Hprev].
        destruct (Hacc l eq_refl) as [Hl [tl Htl]].
        rewrite decide_False, Htl in Hprev by done.
        destruct (tq >? tl)%Z eqn:Hgt; [by eapply Hprev|].
        specialize (Hprev l tl eq_refl Htl). lia.
Qed.

(** X2. [getLatestDataTimestamp] returns the date of a reading of the batch
    whose time is the latest among the readings with a usable date; empty and
    unparseable dates are ignored, and the result is undefined exactly when
    no reading has a usable date. *)
Theorem getLatestDataTimestamp_latest (dataPoints : list TrafficDataPoint.t) :
  (getLatestDataTimestamp dataPoints = None
   ↔ ∀ p, p ∈ dataPoints → ¬ usableDate (TrafficDataPoint.date p))
  ∧ (∀ d, getLatestDataTimestamp dataPoints = Some d →
       usableDate d
       ∧ (∃ p, p ∈ dataPoints ∧ TrafficDataPoint.date p = d)
       ∧ ∀ t q tq, getTime d = Some t → q ∈ dataPoints →
           TrafficDataPoint.date q ≠ "" →
           getTime (TrafficDataPoint.date q) = Some tq → (tq ≤ t)%Z).
Proof.
  rewrite getLatestDataTimestamp_fold.
  destruct (latestStep_fold dataPoints None) as [Hnone Hsome]; [done|]. split.
  - rewrite Hnone. split; [by intros [_ ?]|by intros ?].
  - intros d Hd. destruct (Hsome d Hd) as (Hus & [?|Hfrom] & Hmax); [done|].
    split; [done|]. split; [done|]. intros t q tq Ht. destruct (Hmax t Ht) as [_ Hle].
    apply Hle.
Qed.

End LatestTimestamp.

(** ** Storage: frames, error wrapping and round trips *)

Section KeyedMergeAbsorb.
Context {K : Type} `{Countable K} {V : Type}.
Variable key : V → K.
Variable le : relation K.
Context `{∀ k1 k2, Decision (le k1 k2)}.

(** Merging a batch again into the result of merging it changes nothing,
    whatever was there before. *)
Lemma mergeByKey_absorb (existing incoming : list V) :
  mergeByKey key le (mergeByKey key le existing incoming) incoming
  = mergeByKey key le existing incoming.
Proof.
  unfold mergeByKey. f_equal.
  rewrite setAll_sortedValues by apply mergeByKey_keyed. apply setAll_twice.
Qed.
End KeyedMergeAbsorb.

(** X3. A save writes its own files only: [saveMonthlyData] leaves every
    path other than the month's current and legacy locations as it was, and
    [saveDailyData] every path other than the month's daily file; neither
    touches the faults, the API, the clock's readings or the trace. *)
Theorem saves_touch_their_own_files (dataDir deviceId month : string)
    (monthlyData : MonthlyData.t) (entries : list DailyEntry.t) (w : World) :
  (∀ p, p ≠ PathManager.getHourlyFilePath dataDir deviceId (MonthlyData.month monthlyData) →
        p ≠ PathManager.getLegacyMonthlyFilePath dataDir deviceId
              (MonthlyData.month monthlyData) →
        files (Storage.saveMonthlyData dataDir deviceId monthlyData w).2 !! p
        = files w !! p)
  ∧ quiet w (Storage.saveMonthlyData dataDir deviceId monthlyData w).2
  ∧ (∀ p, p ≠ PathManager.getDailyFilePath dataDir deviceId month →
          files (Storage.saveDailyData dataDir deviceId month entries w).2 !! p
          = files w !! p)
  ∧ quiet w (Storage.saveDailyData dataDir deviceId month entries w).2.
Proof.
  split; [|split; [apply saveMonthlyData_quiet|split; [|apply saveDailyData_quiet]]].
  - intros p Hcur Hleg. rewrite saveMonthlyData_run.
    destruct (Storage.loadMonthlyData _ _ _ w) as [[existing|e] w1]; [|done].
    destruct (faulty w OpWrite _); [done|]. destruct (faulty w OpDelete _); simpl.
    + by rewrite lookup_insert_ne.
    + by rewrite lookup_delete_ne, lookup_insert_ne.
  - intros p Hp. rewrite saveDailyData_run.
    destruct (faulty w OpRead _); [done|]. destruct (faulty w OpWrite _); [done|]. simpl.
    by rewrite lookup_insert_ne.
Qed.

(** X4. A failed save surfaces as a plain [Error] whose message names the
    save and carries the message of the error that stopped it: the error
    thrown by the load of the stored file, by the write of the merged file
    or, for a month, by the removal of the legacy file. A failed monthly save
    has not removed the legacy file, and a failed daily save has changed no
    file. *)
Theorem save_failures_are_wrapped (dataDir deviceId month : string)
    (monthlyData : MonthlyData.t) (entries : list DailyEntry.t) (w : World) :
  (∀ e w', Storage.saveMonthlyData dataDir deviceId monthlyData w = (Throw e, w') →
     (∃ cause,
        e = Error ("Failed to save monthly data: " +:+ errMessage cause)
        ∧ ((Storage.loadMonthlyData dataDir deviceId (MonthlyData.month monthlyData) w).1
           = Throw cause
           ∨ ∃ existing,
               (Storage.loadMonthlyData dataDir deviceId
                  (MonthlyData.month monthlyData) w).1 = Ok existing
               ∧ let current :=
                   PathManager.getHourlyFilePath dataDir deviceId
                     (MonthlyData.month monthlyData) in
                 let merged :=
                   JMonthly
                     {| MonthlyData.device_id := deviceId;
                        MonthlyData.month := MonthlyData.month monthlyData;
                        MonthlyData.data :=
                          DataMerger.mergeDataPoints deviceId
                            (Storage.dataOrEmpty existing) (MonthlyData.data monthlyData);
                        MonthlyData.lastUpdated := isoString w (ticks w) |} in
                 let write :=
                   writeJson current merged
                     ("saving monthly data for device " +:+ deviceId)
                     (setTicks (S (ticks w)) w) in
                 write.1 = Throw cause
                 ∨ (write.1 = Ok tt
                    ∧ (Storage.removeLegacyMonthlyFile dataDir deviceId
                         (MonthlyData.month monthlyData) current write.2).1
                      = Throw cause)))
     ∧ files w' !! PathManager.getLegacyMonthlyFilePath dataDir deviceId
                     (MonthlyData.month monthlyData)
       = files w !! PathManager.getLegacyMonthlyFilePath dataDir deviceId
                      (MonthlyData.month monthlyData))
  ∧ (∀ e w', Storage.saveDailyData dataDir deviceId month entries w = (Throw e, w') →
     (∃ cause,
        e = Error ("Failed to save daily data: " +:+ errMessage cause)
        ∧ ((Storage.loadDailyData dataDir deviceId month w).1 = Throw cause
           ∨ ∃ existing,
               (Storage.loadDailyData dataDir deviceId month w).1 = Ok existing
               ∧ (writeJson (PathManager.getDailyFilePath dataDir deviceId month)
                    (JDaily
                       {| DailyData.device_id := deviceId;
                          DailyData.month := month;
                          DailyData.days :=
                            DataMerger.mergeDailyEntries (Storage.daysOrEmpty existing)
                              entries;
                          DailyData.lastUpdated := isoString w (ticks w) |})
                    ("saving daily data for device " +:+ deviceId
                       +:+ ", month " +:+ month)
                    (setTicks (S (ticks w)) w)).1 = Throw cause))
     ∧ files w' = files w).
Proof.
  split.
  - intros e w'. rewrite saveMonthlyData_run.
    destruct (Storage.loadMonthlyData _ _ _ w) as [[existing|cause] w1] eqn:Hload.
    + unfold writeJson, Storage.removeLegacyMonthlyFile, deleteFile.
      change (faulty (setTicks _ w)) with (faulty w).
      destruct (faulty w OpWrite _) eqn:Hwrite.
      * intros [= <- <-]. split; [|done]. eexists (ioError _). split; [reflexivity|]. right.
        exists existing. split; [done|]. by left.
      * destruct (faulty w OpDelete _) eqn:Hdelete; [|by intros ?].
        intros [= <- <-].
        split; [|simpl; rewrite lookup_insert_ne; [done|];
                 apply not_eq_sym, legacy_path_ne].
        eexists (ioError _). split; [reflexivity|]. right. exists existing.
        split; [done|]. right.
        split; [done|]. simpl.
        destruct (decide _) as [Heq|_]; [by apply legacy_path_ne in Heq|].
        change (faulty (setFiles _ _)) with (faulty w). by rewrite Hdelete.
    + intros [= <- <-]. split; [|done]. exists cause. split; [done|]. by left.
  - intros e w'. rewrite saveDailyData_run.
    unfold Storage.loadDailyData, readJson, writeJson.
    change (faulty (setTicks _ w)) with (faulty w).
    destruct (faulty w OpRead _) eqn:Hread.
    + intros [= <- <-]. split; [|done]. eexists (ioError _). split; [reflexivity|].
      by left.
    + destruct (faulty w OpWrite _) eqn:Hwrite; [|by intros ?].
      intros [= <- <-].
      split; [|done]. eexists (ioError _). split; [reflexivity|]. right. eexists.
      split; [done|]. done.
Qed.

(** X5. Round trip of a month: after a successful [saveMonthlyData],
    [loadMonthlyData] returns, from the current location, the file of that
    device and month whose data are the merge of what the two-tier lookup
    found before with the incoming readings. *)
Theorem monthly_save_load_round_trip (dataDir deviceId : string)
    (monthlyData : MonthlyData.t) (w w' : World) :
  Storage.saveMonthlyData dataDir deviceId monthlyData w = (Ok tt, w') →
  faulty w OpRead (PathManager.getHourlyFilePath dataDir deviceId
                     (MonthlyData.month monthlyData)) = false →
  ∃ stored,
    Storage.loadMonthlyData dataDir deviceId (MonthlyData.month monthlyData) w'
    = (Ok (Some (JMonthly stored)), w')
    ∧ MonthlyData.device_id stored = deviceId
    ∧ MonthlyData.month stored = MonthlyData.month monthlyData
    ∧ MonthlyData.data stored
      = DataMerger.mergeDataPoints deviceId
          (Storage.dataOrEmpty
             (Storage.twoTierLookup dataDir deviceId (MonthlyData.month monthlyData) w))
          (MonthlyData.data monthlyData).
Proof.
  intros Hsave Hread. rewrite saveMonthlyData_run in Hsave.
  destruct (Storage.loadMonthlyData _ _ _ w) as [[existing|e] w1] eqn:Hload; [|done].
  apply loadMonthlyData_Ok in Hload as ->.
  destruct (faulty w OpWrite _); [done|]. destruct (faulty w OpDelete _); [done|].
  injection Hsave as <-. eexists. split.
  - rewrite loadMonthlyData_run; [|done|].
    + unfold Storage.twoTierLookup. simpl.
      rewrite lookup_delete_ne by apply legacy_path_ne. by rewrite lookup_insert_eq.
    + left. simpl. rewrite lookup_delete_ne by apply legacy_path_ne.
      rewrite lookup_insert_eq. eauto.
  - done.
Qed.

(** X6. Saving the same month twice is idempotent on the data: the second
    save finds the file of the first, and writes the same readings again,
    with no growth and no reordering. *)
Theorem monthly_save_twice (dataDir deviceId : string)
    (monthlyData : MonthlyData.t) (w w1 w2 : World) :
  Storage.saveMonthlyData dataDir deviceId monthlyData w = (Ok tt, w1) →
  Storage.saveMonthlyData dataDir deviceId monthlyData w1 = (Ok tt, w2) →
  Storage.dataOrEmpty
    (files w2 !! PathManager.getHourlyFilePath dataDir deviceId
                   (MonthlyData.month monthlyData))
  = Storage.dataOrEmpty
      (files w1 !! PathManager.getHourlyFilePath dataDir deviceId
                     (MonthlyData.month monthlyData)).
Proof.
  intros Hsave1 Hsave2. rewrite saveMonthlyData_run in Hsave1, Hsave2.
  destruct (Storage.loadMonthlyData _ _ _ w) as [[existing|e] w0] eqn:Hload; [|done].
  destruct (faulty w OpWrite _) eqn:Hwrite; [done|].
  destruct (faulty w OpDelete _) eqn:Hdelete; [done|].
  injection Hsave1 as <-.
  destruct (Storage.loadMonthlyData _ _ _ _) as [[existing'|e] w0'] eqn:Hload' in Hsave2;
    [|done].
  apply loadMonthlyData_Ok in Hload' as ->.
  change (faulty (setFiles _ _)) with (faulty w) in Hsave2.
  rewrite Hwrite, Hdelete in Hsave2. cbv zeta in Hsave2.
  injection Hsave2 as <-. simpl.
  rewrite !lookup_delete_ne by apply legacy_path_ne. rewrite !lookup_insert_eq. simpl.
  unfold Storage.twoTierLookup. simpl.
  rewrite !lookup_delete_ne by apply legacy_path_ne. rewrite lookup_insert_eq. simpl.
  apply mergeByKey_absorb.
Qed.

(** X7. Round trip of the daily file: after a successful [saveDailyData],
    [loadDailyData] returns the file whose days are the merge of the days
    stored before with the new entries; saving the same entries again leaves
    the days as they are. *)
Theorem daily_save_load_round_trip (dataDir deviceId month : string)
    (entries : list DailyEntry.t) (w w' : World) :
  Storage.saveDailyData dataDir deviceId month entries w = (Ok tt, w') →
  (∃ stored,
     Storage.loadDailyData dataDir deviceId month w' = (Ok (Some (JDaily stored)), w')
     ∧ DailyData.device_id stored = deviceId
     ∧ DailyData.month stored = month
     ∧ DailyData.days stored
       = DataMerger.mergeDailyEntries
           (Storage.daysOrEmpty
              (files w !! PathManager.getDailyFilePath dataDir deviceId month))
           entries)
  ∧ (∀ w'', Storage.saveDailyData dataDir deviceId month entries w' = (Ok tt, w'') →
       Storage.daysOrEmpty (files w'' !! PathManager.getDailyFilePath dataDir deviceId month)
       = Storage.daysOrEmpty
           (files w' !! PathManager.getDailyFilePath dataDir deviceId month)).
Proof.
  intros Hsave. rewrite saveDailyData_run in Hsave.
  destruct (faulty w OpRead _) eqn:Hread; [done|].
  destruct (faulty w OpWrite _) eqn:Hwrite; [done|]. injection Hsave as <-. split.
  - eexists. split.
    + unfold Storage.loadDailyData. rewrite readJson_run by done.
      simpl. by rewrite lookup_insert_eq.
    + done.
  - intros w'' Hsave'. rewrite saveDailyData_run in Hsave'.
    change (faulty (setFiles _ _)) with (faulty w) in Hsave'.
    rewrite Hread, Hwrite in Hsave'. injection Hsave' as <-. simpl.
    rewrite !lookup_insert_eq. simpl. apply mergeByKey_absorb.
Qed.

(** X8. Round trip of the device metadata: what [saveDeviceMetadata] has
    written is what [loadDeviceMetadata] returns, whole; and when there is no
    devices.json, loading gives the empty list and no error. *)
Theorem metadata_save_load_round_trip (dataDir : string) (w : World) :
  (∀ devices w',
     Storage.saveDeviceMetadata dataDir devices w = (Ok tt, w') →
     faulty w OpRead (PathManager.getDeviceMetadataPath dataDir) = false →
     Storage.loadDeviceMetadata dataDir w' = (Ok (JDevices devices), w'))
  ∧ (files w !! PathManager.getDeviceMetadataPath dataDir = None →
     faulty w OpRead (PathManager.getDeviceMetadataPath dataDir) = false →
     Storage.loadDeviceMetadata dataDir w = (Ok (JDevices []), w)).
Proof.
  split.
  - intros devices w' Hsave Hread. unfold Storage.saveDeviceMetadata, writeJson in Hsave.
    destruct (faulty w OpWrite _); [done|]. injection Hsave as <-.
    rewrite loadDeviceMetadata_run. simpl. by rewrite Hread, lookup_insert_eq.
  - intros Hnone Hread. rewrite loadDeviceMetadata_run. by rewrite Hread, Hnone.
Qed.

(** ** PathManager: the locations never collide *)

Lemma string_app_cancel_r (s1 s2 t : string) : s1 +:+ t = s2 +:+ t → s1 = s2.
Proof.
  revert s2. induction s1 as [|a s1 IH]; intros [|b s2] Heq.
  - done.
  - apply (f_equal String.length) in Heq.
    rewrite !string_length_app in Heq. simpl in Heq. lia.
  - apply (f_equal String.length) in Heq.
    rewrite !string_length_app in Heq. simpl in Heq. lia.
  - change (String a (s1 +:+ t) = String b (s2 +:+ t)) in Heq.
    injection Heq as -> Heq. f_equal. by apply IH.
Qed.

(** *** The paths that [path.join] returns *)

Lemma string_app_cons (c : ascii) (s t : string) : String c s +:+ t = String c (s +:+ t).
Proof. done. Qed.

Lemma string_app_nil_r (s : string) : s +:+ "" = s.
Proof. induction s as [|c s IH]; [done|]. by rewrite string_app_cons, IH. Qed.

Lemma separatorFree_app (a b : string) :
  separatorFree (a +:+ b) = separatorFree a && separatorFree b.
Proof.
  induction a as [|c a IH]; [done|]. rewrite string_app_cons. simpl.
  by rewrite IH, andb_assoc.
Qed.

Lemma split_nonempty (s : string) : Path.split s ≠ [].
Proof.
  induction s as [|c s IH]; [done|]. simpl.
  destruct (Ascii.eqb c "/"); [done|]. by destruct (Path.split s).
Qed.

Lemma split_app_sep (a b : string) :
  Path.split (a +:+ String "/" b) = Path.split a ++ Path.split b.
Proof.
  induction a as [|c a IH]; [done|]. rewrite string_app_cons. simpl. rewrite IH.
  destruct (Ascii.eqb c "/"); [done|].
  pose proof (split_nonempty a). by destruct (Path.split a).
Qed.

Lemma split_noSeparator (s : string) : noSeparator s → Path.split s = [s].
Proof.
  unfold noSeparator. induction s as [|c s IH]; [done|]. simpl.
  intros [Hc Hs]%andb_true_iff. apply negb_true_iff in Hc. rewrite Hc, IH; done.
Qed.

Lemma split_separatorFree (s : string) : Forall noSeparator (Path.split s).
Proof.
  unfold noSeparator. induction s as [|c s IH]; [by repeat constructor|]. simpl.
  destruct (Ascii.eqb c "/") eqn:Hc; [by constructor|].
  pose proof (split_nonempty s). destruct (Path.split s) as [|segment segments]; [done|].
  apply Forall_cons in IH as [Hsegment Hsegments]. constructor; [|done].
  simpl. by rewrite Hc, Hsegment.
Qed.

Lemma concat_cons_cons (sep x y : string) (l : list string) :
  String.concat sep (x :: y :: l) = x +:+ sep +:+ String.concat sep (y :: l).
Proof. done. Qed.

Lemma split_concat (l : list string) :
  l ≠ [] → Forall noSeparator l → Path.split (String.concat "/" l) = l.
Proof.
  induction l as [|x l IH]; [done|]. intros _ [Hx Hl]%Forall_cons.
  destruct l as [|y l]; [by apply split_noSeparator|].
  rewrite concat_cons_cons.
  change ("/" +:+ String.concat "/" (y :: l)) with (String "/" (String.concat "/" (y :: l))).
  rewrite split_app_sep, split_noSeparator by done. by rewrite IH.
Qed.

Lemma concat_app (l1 l2 : list string) :
  l1 ≠ [] → l2 ≠ [] →
  String.concat "/" (l1 ++ l2) = String.concat "/" l1 +:+ "/" +:+ String.concat "/" l2.
Proof.
  intros H1 H2. induction l1 as [|x l1 IH]; [done|].
  destruct l1 as [|y l1].
  - destruct l2 as [|z l2]; [done|]. done.
  - change ((x :: y :: l1) ++ l2) with (x :: y :: (l1 ++ l2)).
    rewrite !concat_cons_cons.
    change (y :: l1 ++ l2) with ((y :: l1) ++ l2). rewrite IH by done.
    by rewrite !string_app_assoc.
Qed.

Lemma concat_empty (l : list string) :
  Forall (λ s, s ≠ "") l → String.concat "/" l = "" → l = [].
Proof.
  destruct l as [|x l]; [done|]. intros [Hx _]%Forall_cons.
  destruct l as [|y l]; [done|]. rewrite concat_cons_cons.
  destruct x; [done|]. by rewrite string_app_cons.
Qed.

Lemma keep_plain (allowAboveRoot : bool) (kept : list string) (segment : string) :
  segment ≠ "" → segment ≠ "." → segment ≠ ".." →
  Path.keep allowAboveRoot kept segment = kept ++ [segment].
Proof.
  intros H1 H2 H3. unfold Path.keep.
  rewrite decide_False by (intros [?|?]; done). by rewrite decide_False.
Qed.

Lemma keep_all_plain (allowAboveRoot : bool) (kept segments : list string) :
  Forall Path.plain segments →
  foldl (Path.keep allowAboveRoot) kept segments = kept ++ segments.
Proof.
  revert kept. induction segments as [|s segments IH]; intros kept Hplain.
  - by rewrite app_nil_r.
  - apply Forall_cons in Hplain as [(_ & H1 & H2 & H3) Hplain]. simpl.
    rewrite keep_plain, IH by done. by rewrite <-app_assoc.
Qed.

Lemma settled_nil (allowAboveRoot : bool) : Path.settled allowAboveRoot [].
Proof. split; [done|constructor]. Qed.

Lemma settled_snoc (allowAboveRoot : bool) (kept : list string) (segment : string) :
  Path.settled allowAboveRoot kept →
  separatorFree segment = true → segment ≠ "" → segment ≠ "." →
  Path.keep allowAboveRoot kept segment = kept ++ [segment] →
  Path.settled allowAboveRoot (kept ++ [segment]).
Proof.
  intros [Hfix Hall] Hs H1 H2 Hkeep. split.
  - by rewrite foldl_app, Hfix.
  - apply Forall_app. split; [done|]. by repeat constructor.
Qed.

Lemma settled_keep (allowAboveRoot : bool) (kept : list string) (segment : string) :
  noSeparator segment → Path.settled allowAboveRoot kept →
  Path.settled allowAboveRoot (Path.keep allowAboveRoot kept segment).
Proof.
  intros Hsegment Hkept. pose proof Hkept as [Hfix Hall].
  destruct (decide (segment = "" ∨ segment = ".")) as [Hdot|Hdot].
  { unfold Path.keep. by rewrite decide_True. }
  destruct (decide (segment = "..")) as [->|Hup].
  2:{ rewrite keep_plain by (try done; intros ->; apply Hdot; auto).
      apply settled_snoc; try done; try (intros ->; apply Hdot; auto).
      apply keep_plain; try done; intros ->; apply Hdot; auto. }
  assert (Path.keep allowAboveRoot kept ".."
          = match last kept with
            | Some top =>
                if decide (top = "..")
                then (if allowAboveRoot then kept ++ [".."] else kept)
                else removelast kept
            | None => if allowAboveRoot then kept ++ [".."] else kept
            end) as Hkeep by done.
  destruct (last kept) as [top|] eqn:Hlast.
  - destruct (decide (top = "..")) as [->|Htop].
    + rewrite Hkeep. destruct allowAboveRoot; [|done].
      by apply settled_snoc.
    + rewrite Hkeep. apply last_Some in Hlast as [kept' ->].
      rewrite removelast_last. apply Forall_app in Hall as [Hall' Htop'].
      apply Forall_singleton in Htop' as (Hs & H1 & H2). split; [|done].
      rewrite foldl_app in Hfix. simpl in Hfix. rewrite keep_plain in Hfix by done.
      by apply app_inj_tail in Hfix as [? _].
  - rewrite Hkeep. destruct allowAboveRoot; [|done].
    by apply settled_snoc.
Qed.

Lemma settled_foldl (allowAboveRoot : bool) (segments : list string) :
  Forall noSeparator segments →
  Path.settled allowAboveRoot (foldl (Path.keep allowAboveRoot) [] segments).
Proof.
  induction segments as [|s segments IH] using rev_ind; [intros _; apply settled_nil|].
  intros [Hsegments Hs]%Forall_app. apply Forall_inv in Hs.
  rewrite foldl_app. simpl. apply settled_keep; [done|]. by apply IH.
Qed.

Lemma settled_kept (path : string) :
  Path.settled (negb (Path.isAbsolute path)) (Path.kept path).
Proof. apply settled_foldl, split_separatorFree. Qed.

Lemma settled_plain (allowAboveRoot : bool) (kept segments : list string) :
  Path.settled allowAboveRoot kept → Forall Path.plain segments →
  Path.settled allowAboveRoot (kept ++ segments).
Proof.
  intros [Hfix Hall] Hplain. split.
  - by rewrite foldl_app, Hfix, keep_all_plain.
  - apply Forall_app. split; [done|].
    eapply Forall_impl; [done|]. by intros s (? & ? & ? & _).
Qed.

Lemma isAbsolute_app (dir rest : string) :
  dir ≠ "" → Path.isAbsolute (dir +:+ rest) = Path.isAbsolute dir.
Proof. by destruct dir. Qed.

Lemma endsWithSeparator_cons (c : ascii) (rest : string) :
  rest ≠ "" → Path.endsWithSeparator (String c rest) = Path.endsWithSeparator rest.
Proof. by destruct rest. Qed.

Lemma string_app_nonempty_r (a b : string) : b ≠ "" → a +:+ b ≠ "".
Proof. intros Hb. destruct a; [done|]. by rewrite string_app_cons. Qed.

Lemma endsWithSeparator_app (a b : string) :
  b ≠ "" → Path.endsWithSeparator (a +:+ b) = Path.endsWithSeparator b.
Proof.
  intros Hb. induction a as [|c a IH]; [done|].
  rewrite string_app_cons, endsWithSeparator_cons, IH; [done|].
  by apply string_app_nonempty_r.
Qed.

Lemma endsWithSeparator_noSeparator (s : string) :
  noSeparator s → Path.endsWithSeparator s = false.
Proof.
  unfold noSeparator. induction s as [|c s IH]; [done|]. simpl.
  intros [Hc Hs]%andb_true_iff. apply negb_true_iff in Hc.
  destruct s; [done|]. by apply IH.
Qed.

Lemma plain_nonempty (segments : list string) :
  Forall Path.plain segments → Forall (λ s, s ≠ "") segments.
Proof. intros Hplain. eapply Forall_impl; [done|]. by intros s (_ & ? & _). Qed.

Lemma plain_noSeparator (segments : list string) :
  Forall Path.plain segments → Forall noSeparator segments.
Proof. intros Hplain. eapply Forall_impl; [done|]. by intros s (? & _). Qed.

Lemma concat_plain_nonempty (segments : list string) :
  segments ≠ [] → Forall Path.plain segments → String.concat "/" segments ≠ "".
Proof.
  intros Hne Hplain Hempty. apply concat_empty in Hempty; [done|].
  by apply plain_nonempty.
Qed.

Lemma endsWithSeparator_concat (segments : list string) :
  segments ≠ [] → Forall Path.plain segments →
  Path.endsWithSeparator (String.concat "/" segments) = false.
Proof.
  induction segments as [|x segments IH]; [done|]. intros _ [Hx Hplain]%Forall_cons.
  destruct segments as [|y segments].
  - apply endsWithSeparator_noSeparator. by destruct Hx.
  - rewrite concat_cons_cons.
    assert (String.concat "/" (y :: segments) ≠ "") as Hrest
      by (by apply concat_plain_nonempty).
    rewrite endsWithSeparator_app by (by apply string_app_nonempty_r).
    rewrite endsWithSeparator_app by done. by apply IH.
Qed.

Lemma kept_nonempty (dir : string) : Forall (λ s, s ≠ "") (Path.kept dir).
Proof.
  destruct (settled_kept dir) as [_ Hall]. eapply Forall_impl; [done|].
  by intros s (_ & ? & _).
Qed.

(** [normalize] of a path to which plain segments are added. *)
Lemma normalize_extend (dir : string) (segments : list string) :
  dir ≠ "" → segments ≠ [] → Forall Path.plain segments →
  Path.normalize (dir +:+ "/" +:+ String.concat "/" segments)
  = Path.render (Path.isAbsolute dir) (Path.kept dir ++ segments).
Proof.
  intros Hdir Hne Hplain. unfold Path.normalize.
  rewrite decide_False by (by destruct dir).
  cbv zeta. rewrite isAbsolute_app by done.
  assert (Path.normalizeString (dir +:+ "/" +:+ String.concat "/" segments)
            (negb (Path.isAbsolute dir))
          = String.concat "/" (Path.kept dir ++ segments)) as ->.
  { unfold Path.normalizeString.
    change ("/" +:+ String.concat "/" segments)
      with (String "/" (String.concat "/" segments)).
    rewrite split_app_sep, split_concat by (try done; by apply plain_noSeparator).
    by rewrite foldl_app, keep_all_plain. }
  rewrite decide_False.
  2:{ intros Hempty. apply concat_empty in Hempty.
      - by destruct (Path.kept dir).
      - apply Forall_app. split; [apply kept_nonempty|by apply plain_nonempty]. }
  rewrite endsWithSeparator_app
    by (apply string_app_nonempty_r; by apply concat_plain_nonempty).
  rewrite endsWithSeparator_app by (by apply concat_plain_nonempty).
  rewrite endsWithSeparator_concat by done. unfold Path.render.
  by destruct (Path.isAbsolute dir).
Qed.

Lemma concat_head_relative (segments : list string) :
  segments ≠ [] → Forall (λ s, separatorFree s = true ∧ s ≠ "" ∧ s ≠ ".") segments →
  Path.isAbsolute (String.concat "/" segments) = false.
Proof.
  destruct segments as [|x segments]; [done|]. intros _ [(Hx & Hne & _) _]%Forall_cons.
  assert (Path.isAbsolute x = false) as Hrel.
  { destruct x as [|c x]; [done|]. simpl in Hx. apply andb_true_iff in Hx as [Hc _].
    apply negb_true_iff in Hc. unfold Path.isAbsolute.
    destruct (ascii_dec c "/") as [->|Hc']; [done|].
    destruct c as [[] [] [] [] [] [] [] []]; done. }
  destruct segments as [|y segments]; [done|].
  rewrite concat_cons_cons. by rewrite isAbsolute_app.
Qed.

(** The segments of a normal form are the segments it was written from. *)
Lemma kept_render (absolute : bool) (segments : list string) :
  segments ≠ [] → Path.settled (negb absolute) segments →
  Path.kept (Path.render absolute segments) = segments
  ∧ Path.isAbsolute (Path.render absolute segments) = absolute
  ∧ Path.render absolute segments ≠ "".
Proof.
  intros Hne [Hfix Hall].
  assert (Forall noSeparator segments) as Hsep.
  { eapply Forall_impl; [exact Hall|]. by intros s (? & _). }
  unfold Path.render, Path.kept. destruct absolute.
  - change ("/" +:+ String.concat "/" segments)
      with (String "/" (String.concat "/" segments)).
    split; [|done]. change (Path.isAbsolute (String "/" _)) with true.
    change (Path.split (String "/" (String.concat "/" segments)))
      with ("" :: Path.split (String.concat "/" segments)).
    by rewrite split_concat.
  - change ("" +:+ String.concat "/" segments) with (String.concat "/" segments).
    rewrite concat_head_relative by done. split; [|split; [done|]].
    + by rewrite split_concat.
    + intros Hempty. apply concat_empty in Hempty; [done|].
      eapply Forall_impl; [exact Hall|]. by intros s (_ & ? & _).
Qed.

Lemma render_base (dir : string) (segments : list string) :
  segments ≠ [] →
  Path.render (Path.isAbsolute dir) (Path.kept dir ++ segments)
  = Path.base dir +:+ String.concat "/" segments.
Proof.
  intros Hne. unfold Path.render, Path.base, Path.normalizeString. fold (Path.kept dir).
  rewrite string_app_assoc. f_equal.
  destruct (decide (String.concat "/" (Path.kept dir) = "")) as [Hempty|Hfull].
  - apply concat_empty in Hempty; [|apply kept_nonempty]. by rewrite Hempty.
  - rewrite concat_app; [by rewrite !string_app_assoc| |done].
    intros Hnil. by rewrite Hnil in Hfull.
Qed.

Lemma plain_device (deviceId : string) :
  noSeparator deviceId → Path.plain (FILESYSTEM.DEVICE_DIR_PREFIX +:+ deviceId).
Proof.
  intros Hid. unfold Path.plain. rewrite separatorFree_app, Hid. by repeat split.
Qed.

Lemma plain_json (month : string) : noSeparator month → Path.plain (month +:+ ".json").
Proof.
  intros Hmonth. unfold Path.plain. rewrite separatorFree_app, Hmonth.
  split; [done|].
  repeat split; intros Heq; apply (f_equal String.length) in Heq;
    rewrite string_length_app in Heq; simpl in Heq; lia.
Qed.

Lemma plain_literals :
  Path.plain FILESYSTEM.HOURLY_DIR ∧ Path.plain FILESYSTEM.DAILY_DIR
  ∧ Path.plain FILESYSTEM.DEVICES_FILE.
Proof. by repeat split. Qed.

Lemma filter_plain (segments : list string) :
  Forall Path.plain segments → filter (λ arg, arg ≠ "") segments = segments.
Proof.
  induction 1 as [|x l Hx _ IH]; [done|].
  rewrite filter_cons, decide_True by apply Hx. by rewrite IH.
Qed.

Lemma join_cons (dir : string) (segments : list string) :
  dir ≠ "" → segments ≠ [] → Forall Path.plain segments →
  Path.join (dir :: segments)
  = Path.render (Path.isAbsolute dir) (Path.kept dir ++ segments).
Proof.
  intros Hdir Hne Hplain. unfold Path.join.
  assert (filter (λ arg, arg ≠ "") (dir :: segments) = dir :: segments) as ->.
  { rewrite filter_cons, decide_True by done. f_equal.
    by apply filter_plain. }
  destruct segments as [|x segments]; [done|].
  rewrite concat_cons_cons. by apply normalize_extend.
Qed.

(** The device directory and what [join] adds below it. *)
Lemma join_below_device (dataDir deviceId : string) (segments : list string) :
  dataDir ≠ "" → noSeparator deviceId → segments ≠ [] → Forall Path.plain segments →
  Path.join (PathManagerNormal.getDeviceDirectory dataDir deviceId :: segments)
  = Path.base dataDir
      +:+ String.concat "/" ((FILESYSTEM.DEVICE_DIR_PREFIX +:+ deviceId) :: segments).
Proof.
  intros Hdir Hid Hne Hplain. unfold PathManagerNormal.getDeviceDirectory.
  rewrite (join_cons dataDir) by first [done | constructor; [by apply plain_device|constructor]].
  assert (Path.settled (negb (Path.isAbsolute dataDir))
            (Path.kept dataDir ++ [FILESYSTEM.DEVICE_DIR_PREFIX +:+ deviceId]))
    as Hsettled.
  { apply settled_plain; [apply settled_kept|]. constructor; [by apply plain_device|constructor]. }
  destruct (kept_render (Path.isAbsolute dataDir)
              (Path.kept dataDir ++ [FILESYSTEM.DEVICE_DIR_PREFIX +:+ deviceId]))
    as (Hkept & Habs & Hfull); [by destruct (Path.kept dataDir)|done|].
  rewrite join_cons by done. rewrite Hkept, Habs, <-app_assoc.
  by rewrite render_base.
Qed.

Lemma written_below_device (dataDir deviceId : string) (segments : list string) :
  dataDir ≠ "" → noSeparator deviceId → segments ≠ [] → Forall Path.plain segments →
  Path.normalize
    (PathManager.join (PathManager.getDeviceDirectory dataDir deviceId :: segments))
  = Path.base dataDir
      +:+ String.concat "/" ((FILESYSTEM.DEVICE_DIR_PREFIX +:+ deviceId) :: segments).
Proof.
  intros Hdir Hid Hne Hplain.
  unfold PathManager.getDeviceDirectory, PathManager.join.
  destruct segments as [|x segments]; [done|].
  assert (String.concat "/"
            (String.concat "/" [dataDir; FILESYSTEM.DEVICE_DIR_PREFIX +:+ deviceId]
               :: x :: segments)
          = dataDir +:+ "/" +:+ String.concat "/"
              ((FILESYSTEM.DEVICE_DIR_PREFIX +:+ deviceId) :: x :: segments)) as ->.
  { rewrite !concat_cons_cons. cbn [String.concat]. by rewrite !string_app_assoc. }
  rewrite normalize_extend; [by rewrite render_base|done|done|].
  constructor; [by apply plain_device|done].
Qed.

(** The paths that [path.join] returns for a device: the normalised data
    directory, the device directory and the file below it. *)
Lemma normal_device_paths (dataDir deviceId month : string) :
  dataDir ≠ "" → noSeparator deviceId → noSeparator month →
  PathManagerNormal.getHourlyFilePath dataDir deviceId month
  = Path.base dataDir +:+ "device_" +:+ deviceId +:+ "/hourly/" +:+ month +:+ ".json"
  ∧ PathManagerNormal.getDailyFilePath dataDir deviceId month
    = Path.base dataDir +:+ "device_" +:+ deviceId +:+ "/daily/" +:+ month +:+ ".json"
  ∧ PathManagerNormal.getLegacyMonthlyFilePath dataDir deviceId month
    = Path.base dataDir +:+ "device_" +:+ deviceId +:+ "/" +:+ month +:+ ".json".
Proof.
  intros Hdir Hid Hmonth. pose proof (plain_json month Hmonth) as Hjson.
  destruct plain_literals as (Hhourly & Hdaily & _).
  unfold PathManagerNormal.getHourlyFilePath, PathManagerNormal.getDailyFilePath,
    PathManagerNormal.getLegacyMonthlyFilePath.
  rewrite !join_below_device by first [done | repeat (apply Forall_cons_2; [done|]); apply Forall_nil_2].
  cbn [String.concat]. unfold FILESYSTEM.DEVICE_DIR_PREFIX.
  by rewrite !string_app_assoc.
Qed.

Lemma written_device_paths (dataDir deviceId month : string) :
  dataDir ≠ "" → noSeparator deviceId → noSeparator month →
  Path.normalize (PathManager.getHourlyFilePath dataDir deviceId month)
  = PathManagerNormal.getHourlyFilePath dataDir deviceId month
  ∧ Path.normalize (PathManager.getDailyFilePath dataDir deviceId month)
    = PathManagerNormal.getDailyFilePath dataDir deviceId month
  ∧ Path.normalize (PathManager.getLegacyMonthlyFilePath dataDir deviceId month)
    = PathManagerNormal.getLegacyMonthlyFilePath dataDir deviceId month.
Proof.
  intros Hdir Hid Hmonth. pose proof (plain_json month Hmonth) as Hjson.
  destruct plain_literals as (Hhourly & Hdaily & _).
  unfold PathManager.getHourlyFilePath, PathManager.getDailyFilePath,
    PathManager.getLegacyMonthlyFilePath,
    PathManagerNormal.getHourlyFilePath, PathManagerNormal.getDailyFilePath,
    PathManagerNormal.getLegacyMonthlyFilePath.
  rewrite !written_below_device by first [done | repeat (apply Forall_cons_2; [done|]); apply Forall_nil_2].
  by rewrite !join_below_device by first [done | repeat (apply Forall_cons_2; [done|]); apply Forall_nil_2].
Qed.

Lemma normal_metadata_path (dataDir : string) :
  dataDir ≠ "" →
  PathManagerNormal.getDeviceMetadataPath dataDir = Path.base dataDir +:+ "devices.json"
  ∧ Path.normalize (PathManager.getDeviceMetadataPath dataDir)
    = PathManagerNormal.getDeviceMetadataPath dataDir.
Proof.
  intros Hdir. destruct plain_literals as (_ & _ & Hfile).
  unfold PathManagerNormal.getDeviceMetadataPath, PathManager.getDeviceMetadataPath,
    PathManager.join.
  rewrite join_cons by first [done | repeat (apply Forall_cons_2; [done|]); apply Forall_nil_2].
  rewrite concat_cons_cons.
  rewrite normalize_extend by first [done | repeat (apply Forall_cons_2; [done|]); apply Forall_nil_2].
  by rewrite render_base.
Qed.

(** X9. The files of a device never collide, as [path.join] names them. For
    a data directory that is not the empty string and a device id and months
    without path separator, [path.join] returns the normalised data
    directory followed by [device_<id>/hourly/<month>.json],
    [device_<id>/daily/<month>.json] or [device_<id>/<month>.json], which is
    also the normal form of the path as the model writes it; devices.json is
    the normalised data directory followed by [devices.json]. Hence each of
    the three locations is injective in the month, an hourly file is never a
    daily file, a legacy file is never an hourly or a daily file, and none
    of them is devices.json. *)
Theorem paths_do_not_collide (dataDir deviceId : string) :
  dataDir ≠ "" → noSeparator deviceId →
  let hourly := PathManagerNormal.getHourlyFilePath dataDir deviceId in
  let daily := PathManagerNormal.getDailyFilePath dataDir deviceId in
  let legacy := PathManagerNormal.getLegacyMonthlyFilePath dataDir deviceId in
  let devicesFile := PathManagerNormal.getDeviceMetadataPath dataDir in
  (∀ month, noSeparator month →
     hourly month
     = Path.base dataDir +:+ "device_" +:+ deviceId +:+ "/hourly/" +:+ month +:+ ".json"
     ∧ daily month
       = Path.base dataDir +:+ "device_" +:+ deviceId +:+ "/daily/" +:+ month +:+ ".json"
     ∧ legacy month
       = Path.base dataDir +:+ "device_" +:+ deviceId +:+ "/" +:+ month +:+ ".json"
     ∧ Path.normalize (PathManager.getHourlyFilePath dataDir deviceId month) = hourly month
     ∧ Path.normalize (PathManager.getDailyFilePath dataDir deviceId month) = daily month
     ∧ Path.normalize (PathManager.getLegacyMonthlyFilePath dataDir deviceId month)
       = legacy month)
  ∧ devicesFile = Path.base dataDir +:+ "devices.json"
  ∧ Path.normalize (PathManager.getDeviceMetadataPath dataDir) = devicesFile
  ∧ (∀ m1 m2, noSeparator m1 → noSeparator m2 →
       (hourly m1 = hourly m2 → m1 = m2)
       ∧ (daily m1 = daily m2 → m1 = m2)
       ∧ (legacy m1 = legacy m2 → m1 = m2)
       ∧ hourly m1 ≠ daily m2
       ∧ legacy m1 ≠ hourly m2
       ∧ legacy m1 ≠ daily m2
       ∧ hourly m1 ≠ devicesFile
       ∧ daily m1 ≠ devicesFile
       ∧ legacy m1 ≠ devicesFile).
Proof.
  intros Hdir Hid hourly daily legacy devicesFile.
  destruct (normal_metadata_path dataDir Hdir) as [Hfile Hwritten].
  split; [|split; [done|split; [done|]]].
  - intros month Hmonth.
    destruct (normal_device_paths dataDir deviceId month) as (? & ? & ?); try done.
    destruct (written_device_paths dataDir deviceId month) as (? & ? & ?); try done.
  - intros m1 m2 Hm1 Hm2.
    destruct (normal_device_paths dataDir deviceId m1) as (Hh1 & Hd1 & Hl1); try done.
    destruct (normal_device_paths dataDir deviceId m2) as (Hh2 & Hd2 & Hl2); try done.
    subst hourly daily legacy devicesFile. cbv beta.
    rewrite Hh1, Hd1, Hl1, Hh2, Hd2, Hl2, Hfile.
    assert (separatorFree (m1 +:+ ".json") = true) as Hfree
      by (by rewrite separatorFree_app, Hm1).
    repeat split.
    + intros Heq. do 3 apply String.app_inj in Heq.
      apply (String.app_inj "/hourly/") in Heq. by apply string_app_cancel_r in Heq.
    + intros Heq. do 3 apply String.app_inj in Heq.
      apply (String.app_inj "/daily/") in Heq. by apply string_app_cancel_r in Heq.
    + intros Heq. do 3 apply String.app_inj in Heq.
      apply (String.app_inj "/") in Heq. by apply string_app_cancel_r in Heq.
    + intros Heq. do 3 apply String.app_inj in Heq. discriminate.
    + intros Heq. do 3 apply String.app_inj in Heq.
      apply (String.app_inj "/" _ ("hourly/" +:+ m2 +:+ ".json")) in Heq.
      rewrite Heq in Hfree. by rewrite separatorFree_app in Hfree.
    + intros Heq. do 3 apply String.app_inj in Heq.
      apply (String.app_inj "/" _ ("daily/" +:+ m2 +:+ ".json")) in Heq.
      rewrite Heq in Hfree. by rewrite separatorFree_app in Hfree.
    + intros Heq. apply String.app_inj in Heq. discriminate.
    + intros Heq. apply String.app_inj in Heq. discriminate.
    + intros Heq. apply String.app_inj in Heq. discriminate.
Qed.

(** The locations of device 9000008311 below the default data directory. *)
Lemma paths_do_not_collide_witness :
  PathManagerNormal.getHourlyFilePath FILESYSTEM.DATA_DIR "9000008311" "2024-05"
  = "docs/data/device_9000008311/hourly/2024-05.json"
  ∧ Path.normalize (PathManager.getHourlyFilePath FILESYSTEM.DATA_DIR "9000008311" "2024-05")
    = "docs/data/device_9000008311/hourly/2024-05.json"
  ∧ PathManagerNormal.getLegacyMonthlyFilePath FILESYSTEM.DATA_DIR "9000008311" "devices"
    = "docs/data/device_9000008311/devices.json"
  ∧ PathManagerNormal.getDeviceMetadataPath FILESYSTEM.DATA_DIR = "docs/data/devices.json".
Proof.
  destruct (paths_do_not_collide FILESYSTEM.DATA_DIR "9000008311") as (Hpaths & Hfile & _);
    [done|reflexivity|].
  destruct (Hpaths "2024-05" eq_refl) as (Hhourly & _ & _ & Hwritten & _).
  destruct (Hpaths "devices" eq_refl) as (_ & _ & Hlegacy & _).
  rewrite Hwritten, Hhourly, Hlegacy, Hfile. done.
Defined.

(** Values of [path.normalize], [path.join] and [path.resolve]. With a month
    that climbs out of the device directory the hourly and the legacy
    file of a device are one file. *)
Example path_normal_forms :
  Path.normalize "./docs/data" = "docs/data"
  ∧ Path.normalize "/srv/data/../index.html" = "/srv/index.html"
  ∧ Path.normalize "" = "." ∧ Path.normalize "/" = "/" ∧ Path.normalize "./" = "./"
  ∧ Path.normalize "a/" = "a/" ∧ Path.normalize "../a/../../b" = "../../b"
  ∧ Path.normalize "/../a" = "/a" ∧ Path.normalize "a//b/./c/" = "a/b/c/"
  ∧ Path.normalize "a/.." = "." ∧ Path.normalize ".../x" = ".../x"
  ∧ Path.join ["./docs/data"; "device_9"; "hourly"; "2024-05.json"]
    = "docs/data/device_9/hourly/2024-05.json"
  ∧ PathManagerNormal.getHourlyFilePath "./docs/data" "9" "2024-05"
    = "docs/data/device_9/hourly/2024-05.json"
  ∧ PathManagerNormal.getHourlyFilePath "/" "9" "../../x" = "/x.json"
  ∧ PathManagerNormal.getLegacyMonthlyFilePath "/" "9" "../../x" = "/x.json"
  ∧ PathManagerNormal.getHourlyFilePath "." "9" "m" = "device_9/hourly/m.json"
  ∧ Path.base "./docs/data" = "docs/data/" ∧ Path.base "." = "" ∧ Path.base "/" = "/"
  ∧ Path.base "../x/" = "../x/" ∧ Path.join [""; "a"] = "a" ∧ Path.join [] = "."
  ∧ Path.resolve "/srv/app" ["./docs/data"; ".."] = "/srv/app/docs"
  ∧ Path.resolve "/srv/app" ["/var/data"; ".."] = "/var"
  ∧ Path.resolve "/srv/app" ["/"; ".."] = "/"
  ∧ Path.resolve "/srv/app" [] = "/srv/app"
  ∧ Path.resolve "/srv/app" ["a/"; ""; "b/"] = "/srv/app/a/b"
  ∧ PathManagerNormal.getDocsRoot "/srv/app" FILESYSTEM.DATA_DIR = "/srv/app/docs"
  ∧ PathManagerNormal.getLandingPagePath "/srv/app" FILESYSTEM.DATA_DIR
    = "/srv/app/docs/index.html"
  ∧ PathManagerNormal.getLandingPagePath "/srv/app" "/" = "/index.html".
Proof. vm_compute. repeat split. Qed.

(** ** DataCollector: a device writes the files of its months *)

Lemma saveMonthlyData_frame dataDir deviceId monthlyData w p :
  p ≠ PathManager.getHourlyFilePath dataDir deviceId (MonthlyData.month monthlyData) →
  p ≠ PathManager.getLegacyMonthlyFilePath dataDir deviceId (MonthlyData.month monthlyData) →
  files (Storage.saveMonthlyData dataDir deviceId monthlyData w).2 !! p = files w !! p.
Proof.
  intros Hcur Hleg. rewrite saveMonthlyData_run.
  destruct (Storage.loadMonthlyData _ _ _ w) as [[existing|e] w1]; [|done].
  destruct (faulty w OpWrite _); [done|]. destruct (faulty w OpDelete _); simpl.
  - by rewrite lookup_insert_ne.
  - by rewrite lookup_delete_ne, lookup_insert_ne.
Qed.

Lemma saveDailyData_frame dataDir deviceId month entries w p :
  p ≠ PathManager.getDailyFilePath dataDir deviceId month →
  files (Storage.saveDailyData dataDir deviceId month entries w).2 !! p = files w !! p.
Proof.
  intros Hp. rewrite saveDailyData_run.
  destruct (faulty w OpRead _); [done|]. destruct (faulty w OpWrite _); [done|]. simpl.
  by rewrite lookup_insert_ne.
Qed.

Lemma onlyMonths_refl dataDir deviceId months w : onlyMonths dataDir deviceId months w w.
Proof. by intros p _. Qed.

Lemma onlyMonths_trans dataDir deviceId months w1 w2 w3 :
  onlyMonths dataDir deviceId months w1 w2 → onlyMonths dataDir deviceId months w2 w3 →
  onlyMonths dataDir deviceId months w1 w3.
Proof. intros H12 H23 p Hp. by rewrite H23, H12. Qed.

Lemma onlyMonths_mono dataDir deviceId months months' w w' :
  months ⊆ months' → onlyMonths dataDir deviceId months w w' →
  onlyMonths dataDir deviceId months' w w'.
Proof. intros Hsub Hw p Hp. apply Hw. intros month Hin. by apply Hp, Hsub. Qed.

Lemma saveMonthlyData_onlyMonths dataDir deviceId monthlyData w :
  onlyMonths dataDir deviceId [MonthlyData.month monthlyData] w
    (Storage.saveMonthlyData dataDir deviceId monthlyData w).2.
Proof.
  intros p Hp. specialize (Hp (MonthlyData.month monthlyData) ltac:(left)).
  unfold monthFiles in Hp.
  apply saveMonthlyData_frame; intros ->; apply Hp; [left|right; right; left].
Qed.

Lemma saveDailyData_onlyMonths dataDir deviceId month entries w :
  onlyMonths dataDir deviceId [month] w
    (Storage.saveDailyData dataDir deviceId month entries w).2.
Proof.
  intros p Hp. specialize (Hp month ltac:(left)). unfold monthFiles in Hp.
  apply saveDailyData_frame; intros ->; apply Hp; right; left.
Qed.

Section DeviceFiles.
Context `{JsDate}.

Lemma saveDeviceData_loop_onlyMonths cfg deviceId
    (groups : list (string * list TrafficDataPoint.t)) (acc : nat) w :
  onlyMonths (CollectorConfig.dataDir cfg) deviceId groups.*1 w
    (forEach
       (λ totalPoints '(month, monthData),
          now <- nowISO ;;
          let monthlyData :=
            {| MonthlyData.device_id := deviceId;
               MonthlyData.month := month;
               MonthlyData.data := monthData;
               MonthlyData.lastUpdated := now |} in
          Storage.saveMonthlyData (CollectorConfig.dataDir cfg) deviceId monthlyData ;;;
          let dailyEntries := Storage.buildDailyEntries monthData in
          Storage.saveDailyData (CollectorConfig.dataDir cfg) deviceId month dailyEntries ;;;
          ret (totalPoints + length monthData))
       groups acc w).2.
Proof.
  revert acc w. induction groups as [|[month monthData] groups IH]; intros acc w.
  - apply onlyMonths_refl.
  - assert ([month] ⊆ ((month, monthData) :: groups).*1) as Hhead.
    { intros m Hm. apply list_elem_of_singleton in Hm as ->. left. }
    assert (groups.*1 ⊆ ((month, monthData) :: groups).*1) as Htail.
    { intros m Hm. by right. }
    simpl. unfold bind at 1. unfold bind at 1. rewrite nowISO_run.
    unfold bind at 1.
    pose proof (saveMonthlyData_onlyMonths (CollectorConfig.dataDir cfg) deviceId
      {| MonthlyData.device_id := deviceId; MonthlyData.month := month;
         MonthlyData.data := monthData;
         MonthlyData.lastUpdated := isoString w (ticks w) |}
      (setTicks (S (ticks w)) w)) as Hm.
    apply (onlyMonths_mono _ _ _ _ _ _ Hhead) in Hm.
    destruct (Storage.saveMonthlyData _ _ _ _) as [[[]|e] w2]; simpl in Hm; [|exact Hm].
    unfold bind at 1.
    pose proof (saveDailyData_onlyMonths (CollectorConfig.dataDir cfg) deviceId month
      (Storage.buildDailyEntries monthData) w2) as Hd.
    apply (onlyMonths_mono _ _ _ _ _ _ Hhead) in Hd.
    destruct (Storage.saveDailyData _ _ _ _ w2) as [[[]|e] w3]; simpl in Hd.
    + unfold ret at 1. eapply onlyMonths_trans; [|eapply onlyMonths_mono; [exact Htail|apply IH]].
      by eapply onlyMonths_trans.
    + simpl. by eapply onlyMonths_trans.
Qed.

Lemma collectSingleDevice_onlyMonths cfg device w :
  onlyMonths (CollectorConfig.dataDir cfg) (DeviceConfig.id device)
    match nextResponse cfg device w with
    | Ok dataPoints => (Storage.groupDataByMonth dataPoints).*1
    | Throw _ => []
    end
    w (collectSingleDevice cfg device w).2.
Proof.
  unfold collectSingleDevice, tryCatch, nextResponse.
  unfold bind at 1, calculateDateRange. unfold bind at 1. rewrite nowISO_run.
  unfold ret at 1. unfold bind at 1, fetchTrafficData. simpl.
  destruct (responses w (calls w) (DeviceConfig.id device) _) as [dataPoints|e];
    [|by intros p _].
  destruct (length dataPoints =? 0); [by intros p _|].
  unfold bind, saveDeviceData.
  pose proof (saveDeviceData_loop_onlyMonths cfg (DeviceConfig.id device)
                (Storage.groupDataByMonth dataPoints) 0
                (setCalls (S (calls w)) (setTicks (S (ticks w)) w))) as Hloop.
  destruct (forEach _ _ _ _) as [[n|e] w2]; exact Hloop.
Qed.

(** X10. The collection of a device changes only the files of the months
    it has fetched. When the fetch answers, every path that names, for a
    process working in [cwd], no hourly, daily or legacy file of that device
    for a month of the fetched batch holds after [collectSingleDevice] what
    it held before, whether the saves succeed or fail. When the fetch fails,
    no file changes. *)
Theorem device_collection_writes_its_months
    (cfg : CollectorConfig.t) (device : DeviceConfig.t) (cwd : string) (w : World) :
  match nextResponse cfg device w with
  | Throw _ => files (collectSingleDevice cfg device w).2 = files w
  | Ok dataPoints =>
      onlyMonthFiles cwd (CollectorConfig.dataDir cfg) (DeviceConfig.id device)
        (Storage.groupDataByMonth dataPoints).*1
        w (collectSingleDevice cfg device w).2
  end.
Proof.
  pose proof (collectSingleDevice_onlyMonths cfg device w) as Hfiles.
  destruct (nextResponse cfg device w) as [dataPoints|e].
  - intros p Hp. apply Hfiles. intros month Hmonth Hin.
    by apply (Hp month p Hmonth Hin).
  - apply map_eq. intros p. apply Hfiles. intros month Hmonth.
    by apply elem_of_nil in Hmonth.
Qed.

End DeviceFiles.

(** Device A fetches readings of two months: devices.json, which names
    none of A's files of those months, is what it was. *)
Lemma device_collection_writes_its_months_witness :
  let cfg := Sample.config ["A"] in
  let w := Sample.world Incident.withPriorDevices Sample.healthy Incident.apiUp in
  let w' := (collectSingleDevice (H := isoDateTime) cfg (Sample.device "A") w).2 in
  files w' !! PathManager.getDeviceMetadataPath FILESYSTEM.DATA_DIR
  = Some (JDevices Sample.priorDevices)
  ∧ is_Some (files w' !! PathManager.getHourlyFilePath FILESYSTEM.DATA_DIR "A" "2024-05").
Proof.
  cbv zeta. split; [|vm_compute; eauto].
  pose proof (device_collection_writes_its_months (H := isoDateTime)
                (Sample.config ["A"]) (Sample.device "A") "/srv/app"
                (Sample.world Incident.withPriorDevices Sample.healthy Incident.apiUp))
    as Hfiles.
  change (nextResponse _ _ _) with (Ok Sample.batch) in Hfiles.
  cbv iota in Hfiles. rewrite Hfiles; [done|].
  intros month file Hmonth Hfile Hsame.
  apply list_elem_of_In in Hmonth. apply list_elem_of_In in Hfile.
  vm_compute in Hmonth.
  destruct Hmonth as [<-|[<-|[]]]; simpl in Hfile;
    destruct Hfile as [<-|[<-|[<-|[]]]]; vm_compute in Hsame; discriminate.
Defined.

(** ** Worked instances of the round trips *)

Lemma monthly_save_load_round_trip_witness :
  let w := Sample.world Sample.legacyOnly Sample.healthy Sample.apiWithBDown in
  let incoming := Sample.monthly "A" "2024-06" [Sample.reading "2024-06-02" 1 9] in
  let w' := (Storage.saveMonthlyData FILESYSTEM.DATA_DIR "A" incoming w).2 in
  Storage.saveMonthlyData FILESYSTEM.DATA_DIR "A" incoming w = (Ok tt, w')
  ∧ ∃ stored,
      Storage.loadMonthlyData FILESYSTEM.DATA_DIR "A" "2024-06" w'
      = (Ok (Some (JMonthly stored)), w')
      ∧ MonthlyData.data stored
        = [Sample.reading "2024-06-01" 3 2; Sample.reading "2024-06-02" 1 9].
Proof.
  intros w incoming w'.
  assert (Storage.saveMonthlyData FILESYSTEM.DATA_DIR "A" incoming w = (Ok tt, w'))
    as Hsave by (vm_compute; reflexivity).
  split; [exact Hsave|].
  destruct (monthly_save_load_round_trip FILESYSTEM.DATA_DIR "A" incoming w w' Hsave eq_refl)
    as (stored & Hload & _ & _ & Hdata).
  exists stored. split; [exact Hload|]. rewrite Hdata. vm_compute. reflexivity.
Defined.

Lemma monthly_save_twice_witness :
  let w := Sample.world Sample.legacyOnly Sample.healthy Sample.apiWithBDown in
  let incoming := Sample.monthly "A" "2024-06" [Sample.reading "2024-06-02" 1 9] in
  let w1 := (Storage.saveMonthlyData FILESYSTEM.DATA_DIR "A" incoming w).2 in
  let w2 := (Storage.saveMonthlyData FILESYSTEM.DATA_DIR "A" incoming w1).2 in
  Storage.saveMonthlyData FILESYSTEM.DATA_DIR "A" incoming w = (Ok tt, w1)
  ∧ Storage.saveMonthlyData FILESYSTEM.DATA_DIR "A" incoming w1 = (Ok tt, w2)
  ∧ Storage.dataOrEmpty
      (files w2 !! PathManager.getHourlyFilePath FILESYSTEM.DATA_DIR "A" "2024-06")
    = [Sample.reading "2024-06-01" 3 2; Sample.reading "2024-06-02" 1 9].
Proof.
  intros w incoming w1 w2.
  assert (Storage.saveMonthlyData FILESYSTEM.DATA_DIR "A" incoming w = (Ok tt, w1))
    as Hsave1 by (vm_compute; reflexivity).
  assert (Storage.saveMonthlyData FILESYSTEM.DATA_DIR "A" incoming w1 = (Ok tt, w2))
    as Hsave2 by (vm_compute; reflexivity).
  split; [exact Hsave1|]. split; [exact Hsave2|].
  etrans; [exact (monthly_save_twice FILESYSTEM.DATA_DIR "A" incoming w w1 w2 Hsave1 Hsave2)|].
  vm_compute. reflexivity.
Defined.

Lemma daily_save_load_round_trip_witness :
  let w := Sample.world Sample.legacyOnly Sample.healthy Sample.apiWithBDown in
  let entries := [Sample.dailyEntry "2024-06-02" 9 1; Sample.dailyEntry "2024-06-01" 2 1] in
  let w' := (Storage.saveDailyData FILESYSTEM.DATA_DIR "A" "2024-06" entries w).2 in
  Storage.saveDailyData FILESYSTEM.DATA_DIR "A" "2024-06" entries w = (Ok tt, w')
  ∧ ∃ stored,
      Storage.loadDailyData FILESYSTEM.DATA_DIR "A" "2024-06" w'
      = (Ok (Some (JDaily stored)), w')
      ∧ DailyData.days stored
        = [Sample.dailyEntry "2024-06-01" 2 1; Sample.dailyEntry "2024-06-02" 9 1].
Proof.
  intros w entries w'.
  assert (Storage.saveDailyData FILESYSTEM.DATA_DIR "A" "2024-06" entries w = (Ok tt, w'))
    as Hsave by (vm_compute; reflexivity).
  split; [exact Hsave|].
  destruct (daily_save_load_round_trip FILESYSTEM.DATA_DIR "A" "2024-06" entries w w' Hsave)
    as [(stored & Hload & _ & _ & Hdays) _].
  exists stored. split; [exact Hload|]. rewrite Hdays. vm_compute. reflexivity.
Defined.

(** ** DataCollector: fetches and pauses of a run *)

Section Pacing.
Context `{JsDate}.

Lemma deviceLoop_pacing cfg previous remaining acc w r w' :
  deviceLoop cfg previous remaining acc w = (r, w') →
  ∃ k, trace w' = trace w ++ replicate k (EvDelay (CollectorConfig.requestDelayMs cfg))
       ∧ k ≤ pauses cfg (length remaining)
       ∧ calls w' ≤ calls w + length remaining
       ∧ (∀ out, r = Ok out →
            k = pauses cfg (length remaining)
            ∧ calls w' = calls w + length remaining).
Proof.
  revert acc w. induction remaining as [|device rest IH]; intros acc w Hrun; simpl in Hrun.
  - unfold ret in Hrun. simplify_eq. exists 0. simpl. rewrite app_nil_r.
    split; [done|]. split; [lia|]. split; [lia|]. intros out _. split; [|lia].
    unfold pauses. by destruct (0 <? _).
  - destruct (collectSingleDevice_spec cfg device w)
      as (res & w1 & Hdev & _ & Hcalls1 & Htrace1 & _).
    apply bind_inv in Hrun as [(res' & w1' & Hdev' & Hrun)|(e & Hdev' & _)];
      [|by rewrite Hdev in Hdev'].
    rewrite Hdev in Hdev'. injection Hdev' as <- <-.
    apply bind_inv in Hrun as [(total & w2 & Htotal & Hrun)|(e & Htotal & ->)].
    2:{ apply getTotalHourlyDataPoints_spec in Htotal as [-> _].
        exists 0. simpl. rewrite app_nil_r. split; [done|]. split; [lia|].
        split; [lia|]. by intros out. }
    apply getTotalHourlyDataPoints_spec in Htotal as [-> _].
    apply bind_inv in Hrun as [(lastUpdated & w3 & Hlu & Hrun)|(e & Hlu & ->)].
    2:{ repeat case_match; by simplify_eq. }
    assert (calls w3 = calls w1 ∧ trace w3 = trace w1) as [Hcalls3 Htrace3].
    { repeat case_match; unfold ret in Hlu; rewrite ?nowISO_run in Hlu; by simplify_eq. }
    apply bind_inv in Hrun as [([] & w4 & Hdelay & Hrun)|(e & Hdelay & ->)].
    2:{ unfold delay, emit, ret in Hdelay. repeat case_match; by simplify_eq. }
    apply IH in Hrun as (k & Htrace & Hk & Hcalls & Hok).
    unfold pauses in *. simpl length.
    destruct (length rest =? 0) eqn:Hrest; simpl in Hdelay.
    + apply Nat.eqb_eq in Hrest. unfold ret in Hdelay. injection Hdelay as <-.
      rewrite Hrest in *. exists 0.
      assert (k = 0) as -> by (destruct (0 <? _); lia).
      simpl in Htrace. rewrite app_nil_r in *.
      split; [congruence|]. split; [lia|]. split; [lia|].
      intros out Hout. destruct (Hok out Hout) as [_ Hc].
      split; [by destruct (0 <? _)|lia].
    + apply Nat.eqb_neq in Hrest.
      destruct (0 <? CollectorConfig.requestDelayMs cfg) eqn:Hms; simpl in Hdelay.
      * unfold delay, emit in Hdelay. injection Hdelay as <-. simpl in Htrace, Hcalls, Hok.
        exists (S k). simpl. rewrite Htrace, Htrace3, Htrace1, <-app_assoc.
        split; [done|]. split; [lia|]. split; [lia|].
        intros out Hout. destruct (Hok out Hout) as [-> Hc]. lia.
      * unfold ret in Hdelay. injection Hdelay as <-.
        exists 0. assert (k = 0) as -> by lia. simpl in Htrace. rewrite app_nil_r in *.
        split; [congruence|]. split; [lia|]. split; [lia|].
        intros out Hout. destruct (Hok out Hout) as [_ Hc]. lia.
Qed.

Lemma collectAllDevices_tail_trace cfg results deviceMetadata startTime w r w' :
  (Storage.saveDeviceMetadata (CollectorConfig.dataDir cfg) deviceMetadata ;;;
   Storage.generateLandingPage (CollectorConfig.dataDir cfg) ;;;
   endTime <- nowISO ;;
   let summary := createSummary results startTime endTime in
   logSummary summary ;;;
   if 0 <? CollectionSummary.failedDevices summary
   then throw (Error (failureMessage (CollectionSummary.failedDevices summary)))
   else ret summary) w = (r, w') →
  calls w' = calls w
  ∧ ((∃ e, r = Throw e ∧ isFileSystemError e = true ∧ trace w' = trace w)
     ∨ (∃ endTime,
          let summary := createSummary results startTime endTime in
          r = (if 0 <? CollectionSummary.failedDevices summary
               then Throw (Error (failureMessage (CollectionSummary.failedDevices summary)))
               else Ok summary)
          ∧ trace w' = trace w ++ [EvSummary summary])).
Proof.
  set (dataDir := CollectorConfig.dataDir cfg).
  set (devicesPath := PathManager.getDeviceMetadataPath dataDir).
  intros Hrun.
  apply bind_inv in Hrun as [([] & w1 & Hsave & Hrun)|(e & Hsave & ->)].
  2:{ unfold Storage.saveDeviceMetadata, writeJson in Hsave. fold dataDir devicesPath in Hsave.
      destruct (faulty w OpWrite devicesPath) eqn:Hf; simplify_eq.
      split; [done|]. left. eauto. }
  unfold Storage.saveDeviceMetadata, writeJson in Hsave. fold dataDir devicesPath in Hsave.
  destruct (faulty w OpWrite devicesPath) eqn:Hf; simplify_eq.
  apply bind_inv in Hrun as [([] & w2 & Hpage & Hrun)|(e & Hpage & ->)].
  2:{ unfold Storage.generateLandingPage, bind, collectJsonFiles, writeText, writeJson
        in Hpage.
      fold dataDir in Hpage. unfold PathManager.getDataDirectory in Hpage.
      rewrite dirExists_written in Hpage by apply under_join. simpl in Hpage.
      destruct (faulty w OpList dataDir) eqn:Hl; simplify_eq.
      { split; [done|]. left. eauto. }
      change (faulty (setFiles _ w)) with (faulty w) in Hpage.
      destruct (faulty w OpWrite (PathManager.getLandingPagePath dataDir)) eqn:Hw;
        simplify_eq.
      split; [done|]. left. eauto. }
  unfold Storage.generateLandingPage, bind, collectJsonFiles, writeText, writeJson in Hpage.
  fold dataDir in Hpage. unfold PathManager.getDataDirectory in Hpage.
  rewrite dirExists_written in Hpage by apply under_join. simpl in Hpage.
  destruct (faulty w OpList dataDir) eqn:Hl; simplify_eq.
  change (faulty (setFiles _ w)) with (faulty w) in Hpage.
  destruct (faulty w OpWrite (PathManager.getLandingPagePath dataDir)) eqn:Hw; simplify_eq.
  apply bind_inv in Hrun as [(endTime & w3 & Hnow & Hrun)|(e & Hnow & ->)];
    [|by rewrite nowISO_run in Hnow].
  rewrite nowISO_run in Hnow. simplify_eq. simpl in Hrun.
  apply bind_inv in Hrun as [([] & w4 & Hlog & Hrun)|(e & Hlog & ->)];
    [|by unfold logSummary, emit in Hlog].
  unfold logSummary, emit in Hlog. simplify_eq.
  assert (w' = setTrace (trace w ++ [EvSummary (createSummary results startTime
            (isoString w (ticks w)))])
            (setTicks (S (ticks w))
               (setFiles (<[PathManager.getLandingPagePath dataDir := JText (landingHtml w)]>
                            (<[devicesPath := JDevices deviceMetadata]> (files w))) w)))
    as ->.
  { destruct (0 <? _); unfold throw, ret in Hrun; by simplify_eq. }
  split; [done|]. right. eexists. split; [|done].
  destruct (0 <? _); unfold throw, ret in Hrun; by simplify_eq.
Qed.

(** X11. Fetches and pauses of a run, as counts. [calls] counts the
    invocations of the client's [fetchTrafficData]; what the client does
    inside one invocation, its retries among it, is not seen here. A run
    never invokes it more often than there are configured devices. A run
    that reaches its summary has invoked it exactly once per device, has
    logged one pause of [requestDelayMs] fewer than there are devices when
    the delay is positive and none when it is 0, and has logged its summary
    once, as the last event. A run cut short by an error outside the
    per-device boundary has logged no summary. *)
Theorem run_requests_and_pauses (cfg : CollectorConfig.t) (w : World)
    (r : Outcome CollectionSummary.t) (w' : World) :
  collectAllDevices cfg w = (r, w') →
  calls w' ≤ calls w + length (CollectorConfig.devices cfg)
  ∧ ((∃ summary,
        r = (if 0 <? CollectionSummary.failedDevices summary
             then Throw (Error (failureMessage (CollectionSummary.failedDevices summary)))
             else Ok summary)
        ∧ calls w' = calls w + length (CollectorConfig.devices cfg)
        ∧ trace w'
          = trace w
            ++ replicate (pauses cfg (length (CollectorConfig.devices cfg)))
                 (EvDelay (CollectorConfig.requestDelayMs cfg))
            ++ [EvSummary summary])
     ∨ (∃ e k,
          r = Throw e ∧ (∀ n, e ≠ Error (failureMessage n))
          ∧ k ≤ pauses cfg (length (CollectorConfig.devices cfg))
          ∧ trace w'
            = trace w ++ replicate k (EvDelay (CollectorConfig.requestDelayMs cfg)))).
Proof.
  set (dataDir := CollectorConfig.dataDir cfg).
  set (devicesPath := PathManager.getDeviceMetadataPath dataDir).
  unfold collectAllDevices. fold dataDir. intros Hrun.
  apply bind_inv in Hrun as [(startTime & w1 & Hnow & Hrun)|(e & Hnow & ->)];
    [|by rewrite nowISO_run in Hnow].
  rewrite nowISO_run in Hnow. injection Hnow as <- <-.
  apply bind_inv in Hrun as [(existing & w2 & Hload & Hrun)|(e & Hload & ->)].
  2:{ rewrite loadDeviceMetadata_run in Hload. fold devicesPath in Hload.
      change (faulty (setTicks _ w)) with (faulty w) in Hload.
      destruct (faulty w OpRead devicesPath) eqn:Hf; simplify_eq. simpl.
      split; [lia|]. right. exists (ioError "loading device metadata"), 0.
      simpl. rewrite app_nil_r. split; [done|]. split; [done|]. split; [lia|done]. }
  rewrite loadDeviceMetadata_run in Hload. fold devicesPath in Hload.
  change (faulty (setTicks _ w)) with (faulty w) in Hload.
  change (files (setTicks _ w)) with (files w) in Hload.
  destruct (faulty w OpRead devicesPath) eqn:Hf; [done|]. injection Hload as <- <-.
  destruct (match files w !! devicesPath with
            | Some data => data | None => JDevices [] end) as [| |existing|];
    try (unfold throw in Hrun; simplify_eq; simpl; split; [lia|]; right;
         eexists _, 0; simpl; rewrite app_nil_r;
         split; [done|]; split; [apply failureMessage_ne_type_error|]; split; [lia|done]).
  apply bind_inv in Hrun as [([results deviceMetadata] & w3 & Hloop & Hrun)|(e & Hloop & ->)].
  2:{ pose proof Hloop as Hloop'. apply deviceLoop_spec in Hloop' as [_ [Hfs _]].
      apply deviceLoop_pacing in Hloop as (k & Htrace & Hk & Hcalls & _).
      simpl in Htrace, Hcalls. split; [done|]. right. exists e, k.
      split; [done|]. split; [intros n ->; done|]. done. }
  apply deviceLoop_pacing in Hloop as (k & Htrace & Hk & _ & Hok).
  destruct (Hok _ eq_refl) as [-> Hcalls]. simpl in Htrace, Hcalls.
  apply collectAllDevices_tail_trace in Hrun
    as [Hcalls' [(e & -> & Hfs & Htrace')|(endTime & Hr & Htrace')]].
  - split; [lia|]. right. eexists e, _. split; [done|]. split; [intros n ->; done|].
    split; [done|]. congruence.
  - split; [lia|]. left. eexists. split; [exact Hr|]. split; [lia|].
    rewrite Htrace', Htrace. by rewrite <-app_assoc.
Qed.

End Pacing.

Lemma run_requests_and_pauses_witness :
  let cfg := Sample.config ["A"; "B"; "C"] in
  let w := Sample.world ∅ Sample.healthy Sample.apiWithBDown in
  let r := (collectAllDevices (H := isoDateTime) cfg w).1 in
  let w' := (collectAllDevices (H := isoDateTime) cfg w).2 in
  r = Throw (Error "Collection completed with 1 error(s)")
  ∧ calls w' = 3
  ∧ ∃ summary, trace w' = [EvDelay 2000; EvDelay 2000; EvSummary summary].
Proof.
  intros cfg w r w'.
  assert (r = Throw (Error "Collection completed with 1 error(s)")) as Hthrown
    by (vm_compute; reflexivity).
  destruct (run_requests_and_pauses (H := isoDateTime) cfg w r w' (surjective_pairing _))
    as [_ [(summary & _ & Hcalls & Htrace)|(e & k & Hr & Hne & _)]].
  - split; [exact Hthrown|]. split; [exact Hcalls|]. exists summary. exact Htrace.
  - exfalso. rewrite Hthrown in Hr. injection Hr as <-. apply (Hne 1).
    vm_compute. reflexivity.
Defined.

(** ** Validation and configuration *)

Lemma isInteger_iff (q : Q) : isInteger (Finite q) = true ↔ ∃ z, (q == inject_Z z)%Q.
Proof.
  unfold isInteger, Qeq. simpl. rewrite Z.eqb_eq. split.
  - intros Hmod. exists (Qnum q / Zpos (Qden q))%Z.
    rewrite Z.mul_1_r, Z.mul_comm. by apply Z.div_exact.
  - intros [z Hz]. rewrite Z.mul_1_r in Hz. rewrite Hz. apply Z.mod_mul. done.
Qed.

Lemma Qle_bool_inject_l (q : Q) (z a : Z) :
  (q == inject_Z z)%Q → Qle_bool (inject_Z a) q = true ↔ (a ≤ z)%Z.
Proof. intros Hq. by rewrite Qle_bool_iff, Hq, <-Zle_Qle. Qed.

Lemma Qle_bool_inject_r (q : Q) (z a : Z) :
  (q == inject_Z z)%Q → Qle_bool q (inject_Z a) = true ↔ (z ≤ a)%Z.
Proof. intros Hq. by rewrite Qle_bool_iff, Hq, <-Zle_Qle. Qed.

Lemma inject_Z_eq (z z' : Z) : (inject_Z z == inject_Z z')%Q → z = z'.
Proof. unfold Qeq. simpl. lia. Qed.

Lemma integerIn_ofZ (lo hi z : Z) : (lo ≤ z ≤ hi)%Z → integerIn lo hi (ofZ z).
Proof. intros Hz. by exists (inject_Z z), z. Qed.

Lemma validateDaysToFetch_valid (days : JsNumber) :
  ValidationResult.valid (Validation.validateDaysToFetch days) = true
  ↔ integerIn COLLECTION.MIN_DAYS_TO_FETCH COLLECTION.MAX_DAYS_TO_FETCH days.
Proof.
  unfold Validation.validateDaysToFetch, integerIn.
  destruct days as [|negative|q].
  - simpl. split; [done|]. by intros (q & z & ? & _).
  - destruct negative; simpl; (split; [done|]); by intros (q & z & ? & _).
  - unfold ofZ, numLt. destruct (isInteger (Finite q)) eqn:Hint; simpl.
    + apply isInteger_iff in Hint as [z Hz].
      pose proof (Qle_bool_inject_l q z COLLECTION.MIN_DAYS_TO_FETCH Hz) as Hlo.
      pose proof (Qle_bool_inject_r q z COLLECTION.MAX_DAYS_TO_FETCH Hz) as Hhi.
      destruct (Qle_bool (inject_Z COLLECTION.MIN_DAYS_TO_FETCH) q) eqn:Hl;
        destruct (Qle_bool q (inject_Z COLLECTION.MAX_DAYS_TO_FETCH)) eqn:Hh; simpl.
      * split; [|done]. intros _. exists q, z. split; [done|]. split; [done|].
        split; [by apply Hlo|by apply Hhi].
      * split; [done|]. intros (q' & z' & [= <-] & Hz' & Hlo' & Hhi').
        assert (inject_Z z == inject_Z z')%Q as Heq by (by rewrite <-Hz).
        apply inject_Z_eq in Heq. subst z'. apply Hhi in Hhi'. done.
      * split; [done|]. intros (q' & z' & [= <-] & Hz' & Hlo' & Hhi').
        assert (inject_Z z == inject_Z z')%Q as Heq by (by rewrite <-Hz).
        apply inject_Z_eq in Heq. subst z'. apply Hlo in Hlo'. done.
      * split; [done|]. intros (q' & z' & [= <-] & Hz' & Hlo' & Hhi').
        assert (inject_Z z == inject_Z z')%Q as Heq by (by rewrite <-Hz).
        apply inject_Z_eq in Heq. subst z'. apply Hlo in Hlo'. done.
    + assert (¬ ∃ z, (q == inject_Z z)%Q) as Hno.
      { intros Hz. apply isInteger_iff in Hz. congruence. }
      split.
      * by destruct (negb (Qle_bool q (inject_Z COLLECTION.MAX_DAYS_TO_FETCH))).
      * intros (q' & z' & [= <-] & Hz' & _). destruct Hno. eauto.
Qed.

Lemma validateDaysToFetch_errors (days : JsNumber) :
  ValidationResult.errors (Validation.validateDaysToFetch days)
  = (if negb (isInteger days) || numLt days (ofZ COLLECTION.MIN_DAYS_TO_FETCH)
     then [ERRORS.INVALID_DAYS] else [])
    ++ (if numLt (ofZ COLLECTION.MAX_DAYS_TO_FETCH) days
        then ["daysToFetch cannot exceed 90 (API limit: 3 months)"] else []).
Proof.
  unfold Validation.validateDaysToFetch.
  by destruct (negb (isInteger days) || _), (numLt (ofZ COLLECTION.MAX_DAYS_TO_FETCH) days).
Qed.

Lemma valid_errors_nil (result : ValidationResult.t) (errors : list string) :
  result = {| ValidationResult.valid := length errors =? 0;
              ValidationResult.errors := errors |} →
  ValidationResult.valid result = true ↔ ValidationResult.errors result = [].
Proof. intros ->. simpl. rewrite Nat.eqb_eq. apply length_zero_iff_nil. Qed.

(** X12. [validateDaysToFetch] accepts exactly the integers from 1 to 90.
    It reports [INVALID_DAYS] for everything that is not an integer of at
    least 1 (NaN, an infinity, a fraction, 0, a negative number), and the
    API limit for +Infinity and every finite number above 90; a fraction
    above 90 gets both messages. *)
Theorem validateDaysToFetch_spec (days : JsNumber) :
  (ValidationResult.valid (Validation.validateDaysToFetch days) = true
   ↔ integerIn 1 90 days)
  ∧ (ERRORS.INVALID_DAYS ∈ ValidationResult.errors (Validation.validateDaysToFetch days)
     ↔ ¬ ∃ q z, days = Finite q ∧ (q == inject_Z z)%Q ∧ (1 ≤ z)%Z)
  ∧ ("daysToFetch cannot exceed 90 (API limit: 3 months)"
       ∈ ValidationResult.errors (Validation.validateDaysToFetch days)
     ↔ days = Infinity false ∨ ∃ q, days = Finite q ∧ (inject_Z 90 < q)%Q).
Proof.
  split; [apply validateDaysToFetch_valid|].
  rewrite validateDaysToFetch_errors. split.
  - rewrite elem_of_app.
    assert (ERRORS.INVALID_DAYS
              ∉ (if numLt (ofZ COLLECTION.MAX_DAYS_TO_FETCH) days
                 then ["daysToFetch cannot exceed 90 (API limit: 3 months)"] else []))
      as Hother.
    { destruct (numLt _ days); [|apply not_elem_of_nil].
      intros Hin. apply list_elem_of_singleton in Hin. discriminate. }
    destruct days as [|negative|q].
    + simpl. split; [|intros _; left; left]. intros _ (q & z & ? & _). done.
    + simpl. split; [|intros _; left; left]. intros _ (q & z & ? & _). done.
    + unfold ofZ, numLt at 1. destruct (isInteger (Finite q)) eqn:Hint; simpl.
      * apply isInteger_iff in Hint as [z Hz].
        pose proof (Qle_bool_inject_l q z COLLECTION.MIN_DAYS_TO_FETCH Hz) as Hlo.
        destruct (Qle_bool (inject_Z COLLECTION.MIN_DAYS_TO_FETCH) q); simpl.
        -- split.
           ++ intros [Hin|Hin]; [by apply elem_of_nil in Hin|done].
           ++ intros Hno. destruct Hno. exists q, z. split; [done|]. split; [done|].
              by apply Hlo.
        -- split; [|intros _; left; left].
           intros _ (q' & z' & [= <-] & Hz' & Hlo').
           assert (inject_Z z == inject_Z z')%Q as Heq by (by rewrite <-Hz).
           apply inject_Z_eq in Heq. subst z'. apply Hlo in Hlo'. done.
      * split; [|intros _; left; left].
        intros _ (q' & z' & [= <-] & Hz' & _).
        assert (isInteger (Finite q) = true) by (apply isInteger_iff; eauto). congruence.
  - rewrite elem_of_app.
    assert ("daysToFetch cannot exceed 90 (API limit: 3 months)"
              ∉ (if negb (isInteger days) || numLt days (ofZ COLLECTION.MIN_DAYS_TO_FETCH)
                 then [ERRORS.INVALID_DAYS] else [])) as Hother.
    { destruct (negb _ || _); [|apply not_elem_of_nil].
      intros Hin. apply list_elem_of_singleton in Hin. discriminate. }
    destruct days as [|negative|q].
    + simpl. split; [intros [?|Hin]; [done|by apply elem_of_nil in Hin]|].
      intros [?|(q & ? & _)]; done.
    + destruct negative; simpl.
      * split; [intros [?|Hin]; [done|by apply elem_of_nil in Hin]|].
        intros [?|(q & ? & _)]; done.
      * split; [by left|]. intros _. right. left.
    + unfold ofZ, numLt.
      destruct (Qle_bool q (inject_Z COLLECTION.MAX_DAYS_TO_FETCH)) eqn:Hle; simpl.
      * apply Qle_bool_iff in Hle.
        split; [intros [?|Hin]; [done|by apply elem_of_nil in Hin]|].
        intros [?|(q' & [= <-] & Hlt)]; [done|]. by apply Qlt_not_le in Hlt.
      * split; [|intros _; right; left]. intros _. right. exists q. split; [done|].
        apply Qnot_le_lt. intros Hq. apply Qle_bool_iff in Hq.
        unfold COLLECTION.MAX_DAYS_TO_FETCH in Hle. congruence.
Qed.

Lemma deviceErrors_app (index : nat) (device : DeviceConfig.t) (errors : list string) :
  Validation.deviceErrors index device errors
  = errors ++ Validation.deviceErrors index device [].
Proof.
  unfold Validation.deviceErrors.
  destruct (Validation.missing (Some (DeviceConfig.id device))),
    (Validation.missing (Some (DeviceConfig.name device))),
    (Validation.missing (Some (DeviceConfig.location device)));
    simpl; rewrite <-?app_assoc, ?app_nil_r; done.
Qed.

Lemma deviceErrors_elem (index : nat) (device : DeviceConfig.t) (msg : string) :
  msg ∈ Validation.deviceErrors index device []
  ↔ (Validation.missing (Some (DeviceConfig.id device)) = true
     ∧ msg = "Device at index " +:+ pretty index +:+ ": id is required")
    ∨ (Validation.missing (Some (DeviceConfig.name device)) = true
       ∧ msg = "Device at index " +:+ pretty index +:+ ": name is required")
    ∨ (Validation.missing (Some (DeviceConfig.location device)) = true
       ∧ msg = "Device at index " +:+ pretty index +:+ ": location is required").
Proof.
  unfold Validation.deviceErrors.
  destruct (Validation.missing (Some (DeviceConfig.id device))),
    (Validation.missing (Some (DeviceConfig.name device))),
    (Validation.missing (Some (DeviceConfig.location device)));
    simpl; rewrite ?elem_of_cons, ?elem_of_nil; intuition congruence.
Qed.

Lemma deviceErrors_nil (index : nat) (device : DeviceConfig.t) :
  Validation.deviceErrors index device [] = []
  ↔ Validation.missing (Some (DeviceConfig.id device)) = false
    ∧ Validation.missing (Some (DeviceConfig.name device)) = false
    ∧ Validation.missing (Some (DeviceConfig.location device)) = false.
Proof.
  unfold Validation.deviceErrors.
  destruct (Validation.missing (Some (DeviceConfig.id device))),
    (Validation.missing (Some (DeviceConfig.name device))),
    (Validation.missing (Some (DeviceConfig.location device)));
    simpl; intuition congruence.
Qed.

Lemma foldl_deviceErrors (f : nat → nat) (devices : list DeviceConfig.t)
    (errors : list string) :
  foldl (λ errors '(index, device), Validation.deviceErrors index device errors)
    errors (imap (λ i d, (f i, d)) devices)
  = errors ++ mjoin (imap (λ i d, Validation.deviceErrors (f i) d []) devices).
Proof.
  revert f errors. induction devices as [|device devices IH]; intros f errors.
  - simpl. by rewrite app_nil_r.
  - simpl. rewrite (IH (f ∘ S)). rewrite (deviceErrors_app (f 0)), <-app_assoc. done.
Qed.

Lemma validateDevices_errors (devices : list DeviceConfig.t) :
  devices ≠ [] →
  Validation.validateDevices devices
  = {| ValidationResult.valid :=
         length (mjoin (imap (λ i d, Validation.deviceErrors i d []) devices)) =? 0;
       ValidationResult.errors :=
         mjoin (imap (λ i d, Validation.deviceErrors i d []) devices) |}.
Proof.
  intros Hne. unfold Validation.validateDevices.
  destruct devices as [|device devices]; [done|].
  change (length (device :: devices) =? 0) with false. cbv iota.
  change (imap pair (device :: devices))
    with (imap (λ i d, ((λ i, i) i, d)) (device :: devices)).
  by rewrite foldl_deviceErrors.
Qed.

Lemma mjoin_imap_elem {A} (g : nat → A → list string) (l : list A) (msg : string) :
  msg ∈ mjoin (imap g l) ↔ ∃ i x, l !! i = Some x ∧ msg ∈ g i x.
Proof.
  rewrite list_elem_of_join. split.
  - intros (errors & Hmsg & Hin). apply list_elem_of_lookup in Hin as [i Hi].
    rewrite list_lookup_imap in Hi. destruct (l !! i) as [x|] eqn:Hx; [|done].
    simpl in Hi. injection Hi as <-. eauto.
  - intros (i & x & Hx & Hmsg). exists (g i x). split; [done|].
    apply list_elem_of_lookup. exists i. by rewrite list_lookup_imap, Hx.
Qed.

Lemma mjoin_imap_nil {A} (g : nat → A → list string) (l : list A) :
  mjoin (imap g l) = [] ↔ ∀ i x, l !! i = Some x → g i x = [].
Proof.
  split.
  - intros Hnil i x Hx. destruct (g i x) as [|msg rest] eqn:Hg; [done|].
    assert (msg ∈ mjoin (imap g l)) as Hin.
    { apply mjoin_imap_elem. exists i, x. split; [done|]. rewrite Hg. left. }
    rewrite Hnil in Hin. by apply elem_of_nil in Hin.
  - intros Hall. destruct (mjoin (imap g l)) as [|msg rest] eqn:Hj; [done|].
    assert (msg ∈ mjoin (imap g l)) as Hin by (rewrite Hj; left).
    apply mjoin_imap_elem in Hin as (i & x & Hx & Hin).
    rewrite (Hall i x Hx) in Hin. by apply elem_of_nil in Hin.
Qed.

Lemma validateDevices_valid (devices : list DeviceConfig.t) :
  ValidationResult.valid (Validation.validateDevices devices) = true
  ↔ devices ≠ []
    ∧ Forall (λ device,
                Validation.missing (Some (DeviceConfig.id device)) = false
                ∧ Validation.missing (Some (DeviceConfig.name device)) = false
                ∧ Validation.missing (Some (DeviceConfig.location device)) = false)
        devices.
Proof.
  destruct (decide (devices = [])) as [->|Hne].
  - simpl. split; [done|]. by intros [? _].
  - rewrite validateDevices_errors by done. simpl.
    rewrite Nat.eqb_eq, length_zero_iff_nil, mjoin_imap_nil, Forall_lookup. split.
    + intros Hall. split; [done|]. intros i device Hd.
      apply (deviceErrors_nil i). by apply Hall.
    + intros [_ Hall] i device Hd. apply deviceErrors_nil. by apply (Hall i).
Qed.

(** X13. [validateDevices] rejects an empty list with [NO_DEVICES] alone.
    A list with devices is valid exactly when no device has an empty or
    blank id, name or location; its errors are, for every device and every
    such field, the message that names the index of the device and the
    field, and nothing else. *)
Theorem validateDevices_spec (devices : list DeviceConfig.t) :
  (ValidationResult.valid (Validation.validateDevices devices) = true
   ↔ devices ≠ []
     ∧ Forall (λ device,
                 Validation.missing (Some (DeviceConfig.id device)) = false
                 ∧ Validation.missing (Some (DeviceConfig.name device)) = false
                 ∧ Validation.missing (Some (DeviceConfig.location device)) = false)
         devices)
  ∧ (devices = [] →
     ValidationResult.errors (Validation.validateDevices devices) = [ERRORS.NO_DEVICES])
  ∧ (devices ≠ [] →
     ∀ msg,
       msg ∈ ValidationResult.errors (Validation.validateDevices devices)
       ↔ ∃ index device,
           devices !! index = Some device
           ∧ ((Validation.missing (Some (DeviceConfig.id device)) = true
               ∧ msg = "Device at index " +:+ pretty index +:+ ": id is required")
              ∨ (Validation.missing (Some (DeviceConfig.name device)) = true
                 ∧ msg = "Device at index " +:+ pretty index +:+ ": name is required")
              ∨ (Validation.missing (Some (DeviceConfig.location device)) = true
                 ∧ msg = "Device at index " +:+ pretty index
                           +:+ ": location is required"))).
Proof.
  split; [apply validateDevices_valid|]. split; [by intros ->|].
  intros Hne msg. rewrite validateDevices_errors by done. simpl.
  rewrite mjoin_imap_elem. by setoid_rewrite deviceErrors_elem.
Qed.

Lemma validateApiKey_errors (apiKey : option string) :
  ValidationResult.errors (Validation.validateApiKey apiKey)
  = if Validation.missing apiKey then [ERRORS.MISSING_API_KEY] else [].
Proof. unfold Validation.validateApiKey. by destruct (Validation.missing apiKey). Qed.

Lemma validateDevices_valid_nil (devices : list DeviceConfig.t) :
  ValidationResult.valid (Validation.validateDevices devices) = true
  ↔ ValidationResult.errors (Validation.validateDevices devices) = [].
Proof.
  destruct (decide (devices = [])) as [->|Hne]; [done|].
  rewrite validateDevices_errors by done. simpl.
  by rewrite Nat.eqb_eq, length_zero_iff_nil.
Qed.

Lemma validateDaysToFetch_valid_nil (days : JsNumber) :
  ValidationResult.valid (Validation.validateDaysToFetch days) = true
  ↔ ValidationResult.errors (Validation.validateDaysToFetch days) = [].
Proof.
  unfold Validation.validateDaysToFetch. simpl.
  by rewrite Nat.eqb_eq, length_zero_iff_nil.
Qed.

Lemma validateConfiguration_errors (config : ConfigurationInput.t) :
  ValidationResult.errors (Validation.validateConfiguration config)
  = ValidationResult.errors (Validation.validateApiKey (ConfigurationInput.apiKey config))
    ++ ValidationResult.errors
         (Validation.validateDevices (ConfigurationInput.devices config))
    ++ ValidationResult.errors
         (Validation.validateDaysToFetch (ConfigurationInput.daysToFetch config))
    ++ ValidationResult.errors
         (Validation.validateDaysToFetch (ConfigurationInput.initialDaysToFetch config)).
Proof. unfold Validation.validateConfiguration. simpl. by rewrite app_nil_r. Qed.

(** X14. [validateConfiguration] checks all four parts and reports the
    errors of all of them together, those of the API key first, then the
    devices, then the two day counts. The configuration is valid exactly
    when the API key is neither unset nor blank, there is a device and every
    device has its three fields, and both day counts are integers from 1 to
    90. *)
Theorem validateConfiguration_spec (config : ConfigurationInput.t) :
  (ValidationResult.valid (Validation.validateConfiguration config) = true
   ↔ Validation.missing (ConfigurationInput.apiKey config) = false
     ∧ ConfigurationInput.devices config ≠ []
     ∧ Forall (λ device,
                 Validation.missing (Some (DeviceConfig.id device)) = false
                 ∧ Validation.missing (Some (DeviceConfig.name device)) = false
                 ∧ Validation.missing (Some (DeviceConfig.location device)) = false)
         (ConfigurationInput.devices config)
     ∧ integerIn 1 90 (ConfigurationInput.daysToFetch config)
     ∧ integerIn 1 90 (ConfigurationInput.initialDaysToFetch config))
  ∧ ValidationResult.errors (Validation.validateConfiguration config)
    = ValidationResult.errors (Validation.validateApiKey (ConfigurationInput.apiKey config))
      ++ ValidationResult.errors
           (Validation.validateDevices (ConfigurationInput.devices config))
      ++ ValidationResult.errors
           (Validation.validateDaysToFetch (ConfigurationInput.daysToFetch config))
      ++ ValidationResult.errors
           (Validation.validateDaysToFetch (ConfigurationInput.initialDaysToFetch config)).
Proof.
  split; [|apply validateConfiguration_errors].
  assert (ValidationResult.valid (Validation.validateConfiguration config) = true
          ↔ ValidationResult.errors (Validation.validateConfiguration config) = []) as ->.
  { unfold Validation.validateConfiguration. simpl.
    by rewrite Nat.eqb_eq, length_zero_iff_nil. }
  rewrite validateConfiguration_errors, !app_nil.
  rewrite <-validateDevices_valid_nil, <-!validateDaysToFetch_valid_nil.
  rewrite validateDevices_valid, !validateDaysToFetch_valid, validateApiKey_errors.
  destruct (Validation.missing (ConfigurationInput.apiKey config)); intuition congruence.
Qed.

(** ** Configuration: the values read from the environment *)

Lemma clamp_spec (lo hi : Z) (q : Q) (z : Z) :
  (lo ≤ hi)%Z → (q == inject_Z z)%Q →
  integerIn lo hi (mathMin (mathMax (Finite q) (ofZ lo)) (ofZ hi))
  ∧ ((lo ≤ z ≤ hi)%Z → mathMin (mathMax (Finite q) (ofZ lo)) (ofZ hi) = Finite q)
  ∧ ((z < lo)%Z → mathMin (mathMax (Finite q) (ofZ lo)) (ofZ hi) = ofZ lo)
  ∧ ((hi < z)%Z → mathMin (mathMax (Finite q) (ofZ lo)) (ofZ hi) = ofZ hi).
Proof.
  intros Hlohi Hq. unfold mathMax, mathMin, ofZ, numLt.
  pose proof (Qle_bool_inject_l q z lo Hq) as Hlo.
  pose proof (Qle_bool_inject_r q z hi Hq) as Hhi.
  destruct (Qle_bool (inject_Z lo) q) eqn:Hl; simpl.
  - assert (lo ≤ z)%Z as Hlz by (by apply Hlo).
    destruct (Qle_bool q (inject_Z hi)) eqn:Hh; simpl.
    + assert (z ≤ hi)%Z as Hzh by (by apply Hhi).
      split; [by exists q, z|]. split; [done|]. split; intros; lia.
    + assert (¬ (z ≤ hi)%Z) as Hzh by (intros Hzh; apply Hhi in Hzh; congruence).
      split; [apply integerIn_ofZ; lia|]. split; [intros; lia|]. split; [intros; lia|done].
  - assert (¬ (lo ≤ z)%Z) as Hlz by (intros Hlz; apply Hlo in Hlz; congruence).
    assert (Qle_bool (inject_Z lo) (inject_Z hi) = true) as ->.
    { apply Qle_bool_iff. by rewrite <-Zle_Qle. }
    simpl. split; [apply integerIn_ofZ; lia|]. split; [intros; lia|].
    split; [done|intros; lia].
Qed.

Section Environment.
Context `{JsParseInt}.

Lemma parsedEnv_cases (envValue : option string) :
  (isFinite (Config.parsedEnv envValue) = false
   ∧ (envValue = None ∨ envValue = Some ""
      ∨ ∃ s, envValue = Some s ∧ s ≠ "" ∧ isFinite (parseInt s) = false))
  ∨ (∃ s q z, envValue = Some s ∧ s ≠ "" ∧ parseInt s = Finite q
              ∧ Config.parsedEnv envValue = Finite q ∧ (q == inject_Z z)%Q).
Proof.
  unfold Config.parsedEnv. destruct envValue as [s|]; [|left; eauto].
  destruct (decide (s = "")) as [->|Hs]; [left; eauto|].
  destruct (parseInt s) as [|negative|q] eqn:Hparse.
  - left. split; [done|]. right. right. exists s. by rewrite Hparse.
  - left. split; [done|]. right. right. exists s. by rewrite Hparse.
  - right. destruct (parseInt_integer s q Hparse) as [z Hz]. exists s, q, z. eauto.
Qed.

Lemma resolveDaysToFetch_integerIn (envValue : option string) (defaultValue : JsNumber) :
  integerIn 1 90 defaultValue →
  integerIn 1 90 (Config.resolveDaysToFetch envValue defaultValue).
Proof.
  intros Hdefault. unfold Config.resolveDaysToFetch.
  destruct (parsedEnv_cases envValue) as [[-> _]|(s & q & z & _ & _ & _ & -> & Hz)];
    [done|].
  cbn [isFinite]. by destruct (clamp_spec 1 90 q z) as (? & _); [lia|done|].
Qed.

Lemma resolveRequestDelay_integerIn (envValue : option string) :
  integerIn 0 30000 (Config.resolveRequestDelay envValue).
Proof.
  unfold Config.resolveRequestDelay.
  destruct (parsedEnv_cases envValue) as [[-> _]|(s & q & z & _ & _ & _ & -> & Hz)].
  - apply integerIn_ofZ. unfold COLLECTION.DEFAULT_REQUEST_DELAY_MS. lia.
  - cbn [isFinite]. by destruct (clamp_spec 0 30000 q z) as (? & _); [lia|done|].
Qed.

(** X15. The values taken from the environment. A day count or a request
    delay that is unset, empty or that [parseInt] cannot read as a finite
    number falls back to the default; a readable one is clamped, to 1..90
    for the days and to 0..30000 for the delay, and is kept as it is when it
    lies within. So the delay is always an integer from 0 to 30000, and a
    day count is always an integer from 1 to 90 when its default is. *)
Theorem environment_values_are_clamped (envValue : option string)
    (defaultValue : JsNumber) :
  (∀ s, envValue = Some s → s ≠ "" → ∀ z,
        parseInt s = ofZ z →
        Config.resolveDaysToFetch envValue defaultValue = ofZ (Z.min (Z.max z 1) 90)
        ∧ Config.resolveRequestDelay envValue = ofZ (Z.min (Z.max z 0) 30000))
  ∧ (envValue = None ∨ envValue = Some ""
     ∨ (∃ s, envValue = Some s ∧ s ≠ "" ∧ isFinite (parseInt s) = false) →
     Config.resolveDaysToFetch envValue defaultValue = defaultValue
     ∧ Config.resolveRequestDelay envValue = ofZ 2000)
  ∧ (integerIn 1 90 defaultValue →
     integerIn 1 90 (Config.resolveDaysToFetch envValue defaultValue))
  ∧ integerIn 0 30000 (Config.resolveRequestDelay envValue).
Proof.
  split; [|split; [|split]].
  - intros s -> Hs z Hparse.
    unfold Config.resolveDaysToFetch, Config.resolveRequestDelay, Config.parsedEnv.
    destruct (decide (s = "")); [done|]. rewrite Hparse.
    change (isFinite (ofZ z)) with true. cbv iota.
    destruct (clamp_spec 1 90 (inject_Z z) z) as (_ & Hin & Hlo & Hhi); [lia|done|].
    destruct (clamp_spec 0 30000 (inject_Z z) z) as (_ & Hin' & Hlo' & Hhi'); [lia|done|].
    change (Finite (inject_Z z)) with (ofZ z) in *.
    change COLLECTION.MIN_DAYS_TO_FETCH with 1%Z.
    change COLLECTION.MAX_DAYS_TO_FETCH with 90%Z.
    change COLLECTION.MIN_REQUEST_DELAY_MS with 0%Z.
    change COLLECTION.MAX_REQUEST_DELAY_MS with 30000%Z.
    split.
    + destruct (decide (z < 1)%Z); [rewrite Hlo by done; f_equal; lia|].
      destruct (decide (90 < z)%Z); [rewrite Hhi by done; f_equal; lia|].
      rewrite Hin by lia. f_equal. lia.
    + destruct (decide (z < 0)%Z); [rewrite Hlo' by done; f_equal; lia|].
      destruct (decide (30000 < z)%Z); [rewrite Hhi' by done; f_equal; lia|].
      rewrite Hin' by lia. f_equal. lia.
  - intros Hcase. unfold Config.resolveDaysToFetch, Config.resolveRequestDelay.
    assert (isFinite (Config.parsedEnv envValue) = false) as ->; [|done].
    unfold Config.parsedEnv. destruct Hcase as [->|[->|(s & -> & Hs & Hinf)]]; [done..|].
    by destruct (decide (s = "")).
  - apply resolveDaysToFetch_integerIn.
  - apply resolveRequestDelay_integerIn.
Qed.

Lemma devices_valid :
  ValidationResult.errors (Validation.validateDevices Config.devices) = [].
Proof. vm_compute. reflexivity. Qed.

(** X16. [loadConfig] fails only for the API key: when TELRAAM_API_KEY is
    unset, empty or blank it throws the error whose message is
    [MISSING_API_KEY], and otherwise it returns a configuration, whatever
    the other variables hold, with that key, the data directory ./docs/data,
    both day counts integers from 1 to 90 and the request delay an integer
    from 0 to 30000. *)
Theorem loadConfig_spec (env : gmap string string) :
  (Validation.missing (Some (default "" (env !! "TELRAAM_API_KEY"))) = true →
   Config.loadConfig env = Throw (Error ERRORS.MISSING_API_KEY))
  ∧ (Validation.missing (Some (default "" (env !! "TELRAAM_API_KEY"))) = false →
     ∃ config,
       Config.loadConfig env = Ok config
       ∧ AppConfig.apiKey config = default "" (env !! "TELRAAM_API_KEY")
       ∧ AppConfig.apiUrl config = "https://telraam-api.net"
       ∧ AppConfig.dataDir config = "./docs/data"
       ∧ integerIn 1 90 (AppConfig.daysToFetch config)
       ∧ integerIn 1 90 (AppConfig.initialDaysToFetch config)
       ∧ integerIn 0 30000 (AppConfig.requestDelayMs config)).
Proof.
  pose proof (resolveDaysToFetch_integerIn (env !! "TELRAAM_DAYS_TO_FETCH")
                (ofZ COLLECTION.DEFAULT_DAYS_TO_FETCH)
                (integerIn_ofZ 1 90 3 ltac:(lia))) as Hdays.
  pose proof (resolveDaysToFetch_integerIn (env !! "TELRAAM_INITIAL_DAYS_TO_FETCH")
                (ofZ COLLECTION.DEFAULT_INITIAL_DAYS_TO_FETCH)
                (integerIn_ofZ 1 90 90 ltac:(lia))) as Hinitial.
  pose proof (resolveRequestDelay_integerIn (env !! "TELRAAM_REQUEST_DELAY_MS")) as Hdelay.
  unfold Config.loadConfig. cbv zeta.
  set (input := {| ConfigurationInput.apiKey := _ |}).
  assert (ValidationResult.valid (Validation.validateConfiguration input)
          = negb (Validation.missing (Some (default "" (env !! "TELRAAM_API_KEY"))))
          ∧ ValidationResult.errors (Validation.validateConfiguration input)
            = if Validation.missing (Some (default "" (env !! "TELRAAM_API_KEY")))
              then [ERRORS.MISSING_API_KEY] else []) as [-> ->].
  { assert (ValidationResult.errors (Validation.validateConfiguration input)
            = if Validation.missing (Some (default "" (env !! "TELRAAM_API_KEY")))
              then [ERRORS.MISSING_API_KEY] else []) as Herrors.
    { rewrite validateConfiguration_errors. subst input. cbn [ConfigurationInput.apiKey
        ConfigurationInput.devices ConfigurationInput.daysToFetch
        ConfigurationInput.initialDaysToFetch AppConfig.apiKey AppConfig.daysToFetch
        AppConfig.initialDaysToFetch].
      rewrite devices_valid, validateApiKey_errors.
      apply validateDaysToFetch_valid, validateDaysToFetch_valid_nil in Hdays as ->.
      apply validateDaysToFetch_valid, validateDaysToFetch_valid_nil in Hinitial as ->.
      by rewrite !app_nil_r. }
    split; [|done].
    change (ValidationResult.valid (Validation.validateConfiguration input))
      with (length (ValidationResult.errors (Validation.validateConfiguration input)) =? 0).
    rewrite Herrors. by destruct (Validation.missing _). }
  split; intros ->; [done|]. simpl. eexists. split; [done|]. by repeat split.
Qed.

End Environment.

(** ** DataCollector: what the result of a device says *)

Lemma saveMonthlyData_throw dataDir deviceId monthlyData w e w' :
  Storage.saveMonthlyData dataDir deviceId monthlyData w = (Throw e, w') → saveFailure e.
Proof.
  rewrite saveMonthlyData_run.
  destruct (Storage.loadMonthlyData _ _ _ w) as [[existing|cause] w1] eqn:Hload.
  - destruct (faulty w OpWrite _); [|destruct (faulty w OpDelete _)];
      intros [= <- <-]; eexists (ioError _); by left.
  - intros [= <- <-]. exists cause. by left.
Qed.

Lemma saveDailyData_throw dataDir deviceId month entries w e w' :
  Storage.saveDailyData dataDir deviceId month entries w = (Throw e, w') → saveFailure e.
Proof.
  rewrite saveDailyData_run.
  destruct (faulty w OpRead _); [|destruct (faulty w OpWrite _)];
    intros [= <- <-]; eexists (ioError _); by right.
Qed.

Section DeviceResult.
Context `{JsDate}.

Lemma saveDeviceData_throw cfg deviceId dataPoints w e w' :
  saveDeviceData cfg deviceId dataPoints w = (Throw e, w') → saveFailure e.
Proof.
  unfold saveDeviceData. generalize (Storage.groupDataByMonth dataPoints) 0.
  intros groups. revert w. induction groups as [|[month monthData] groups IH];
    intros w acc Hrun; simpl in Hrun.
  - by unfold ret in Hrun.
  - apply bind_inv in Hrun as [(acc' & w4 & Hbody & Hrest)|(e' & Hbody & [= <-])].
    + by eapply IH.
    + apply bind_inv in Hbody as [(now & w1 & Hnow & Hbody)|(e' & Hnow & ?)];
        [|by rewrite nowISO_run in Hnow].
      apply bind_inv in Hbody as [([] & w2 & Hm & Hbody)|(e' & Hm & [= <-])];
        [|by eapply saveMonthlyData_throw].
      apply bind_inv in Hbody as [([] & w3 & Hd & Hbody)|(e' & Hd & [= <-])];
        [by unfold ret in Hbody|by eapply saveDailyData_throw].
Qed.

(** X17. What the result of a device says. [collectSingleDevice] always
    returns a result, for the device it was given. The result is a success
    exactly when it carries no error message; a failure counts 0 data points
    and has no timestamp. When the request to the API failed the message is
    the formatted API error; when the API answered, the only possible
    failure is a failed save, and the message is that of its error. *)
Theorem collectSingleDevice_result (cfg : CollectorConfig.t) (device : DeviceConfig.t)
    (w : World) :
  ∃ res w',
    collectSingleDevice cfg device w = (Ok res, w')
    ∧ CollectionResult.deviceId res = DeviceConfig.id device
    ∧ (CollectionResult.success res = true ↔ CollectionResult.error res = None)
    ∧ (CollectionResult.success res = false →
       CollectionResult.dataPointsCollected res = 0
       ∧ CollectionResult.lastUpdated res = None)
    ∧ match nextResponse cfg device w with
      | Throw e => CollectionResult.error res = Some (formatError e)
      | Ok dataPoints =>
          CollectionResult.error res = None
          ∨ ∃ e, saveFailure e ∧ CollectionResult.error res = Some (errMessage e)
      end.
Proof.
  unfold collectSingleDevice, tryCatch, nextResponse.
  unfold bind at 1, calculateDateRange. unfold bind at 1. rewrite nowISO_run.
  unfold ret at 1. unfold bind at 1, fetchTrafficData. simpl.
  destruct (responses w (calls w) (DeviceConfig.id device) _) as [dataPoints|e].
  - destruct (length dataPoints =? 0).
    + unfold ret. eexists _, _. split; [done|]. simpl. split; [done|].
      split; [done|]. split; [done|]. by left.
    + unfold bind.
      destruct (saveDeviceData cfg (DeviceConfig.id device) dataPoints _)
        as [[n|e] w2] eqn:Hsave.
      * unfold ret. eexists _, _. split; [done|]. simpl. split; [done|].
        split; [done|]. split; [done|]. by left.
      * apply saveDeviceData_throw in Hsave.
        unfold ret. eexists _, _. split; [done|]. simpl. split; [done|].
        split; [done|]. split; [done|]. right. exists e. split; [done|].
        destruct Hsave as (cause & [->| ->]); done.
  - unfold ret. eexists _, _. split; [done|]. simpl. by repeat split.
Qed.

End DeviceResult.

(** ** A worked configuration *)

Lemma parseDecimal_integer (s : string) (q : Q) :
  parseDecimal s = Finite q → ∃ z, (q == inject_Z z)%Q.
Proof.
  unfold parseDecimal.
  destruct (match trimStart s with
            | String "-" rest => (true, rest)
            | String "+" rest => (false, rest)
            | _ => (false, trimStart s)
            end) as [negative rest].
  destruct (leadingDigits rest) as [|d digits]; [done|].
  destruct (2 ^ 1024 <=? _)%Z; [done|]. intros [= <-]. by eexists.
Qed.

Definition decimalParseInt : JsParseInt :=
  {| parseInt := parseDecimal; parseInt_integer := parseDecimal_integer |}.

(** A day count beyond the API limit is cut to 90, an unreadable one gives
    way to its default and a negative delay becomes 0; a blank API key is
    refused whatever else is set. *)
Example loadConfig_clamps_the_environment :
  Config.loadConfig (H := decimalParseInt)
    (<["TELRAAM_API_KEY" := "secret"]>
       (<["TELRAAM_DAYS_TO_FETCH" := "365"]>
          (<["TELRAAM_INITIAL_DAYS_TO_FETCH" := "soon"]>
             (<["TELRAAM_REQUEST_DELAY_MS" := "-5"]> ∅))))
  = Ok {| AppConfig.apiUrl := "https://telraam-api.net";
          AppConfig.apiKey := "secret";
          AppConfig.dataDir := "./docs/data";
          AppConfig.daysToFetch := ofZ 90;
          AppConfig.initialDaysToFetch := ofZ 90;
          AppConfig.requestDelayMs := ofZ 0 |}
  ∧ Config.loadConfig (H := decimalParseInt)
      (<["TELRAAM_API_KEY" := "   "]> (<["TELRAAM_DAYS_TO_FETCH" := "7"]> ∅))
    = Throw (Error ERRORS.MISSING_API_KEY)
  ∧ ValidationResult.errors (Validation.validateDaysToFetch (Finite (201 # 2)))
    = [ERRORS.INVALID_DAYS; "daysToFetch cannot exceed 90 (API limit: 3 months)"].
Proof. vm_compute. repeat split. Qed.

(** * The run as a whole: isolation, aggregate failure and the metadata fallback *)

(** ** The loop over the devices, device by device *)

Lemma getTotalHourlyDataPoints_ok dataDir deviceId w :
  faulty w OpList (PathManager.getHourlyDirectory dataDir deviceId) = false →
  (∀ p, under (PathManager.getHourlyDirectory dataDir deviceId) p = true →
        faulty w OpRead p = false) →
  ∃ n, Storage.getTotalHourlyDataPoints dataDir deviceId w = (Ok n, w).
Proof.
  intros Hlist Hreads. unfold Storage.getTotalHourlyDataPoints.
  set (hourlyDir := PathManager.getHourlyDirectory dataDir deviceId) in *.
  unfold bind at 1. unfold tryCatch, bind at 1, collectJsonFiles.
  destruct (dirExists hourlyDir w); [|simpl; unfold ret; eauto].
  rewrite Hlist. unfold ret at 1. rewrite forEach_total_run; [eauto|].
  intros p Hp. apply Hreads. unfold jsonFilesUnder, pathsUnder in Hp.
  apply list_elem_of_filter in Hp as [_ Hp]. by apply list_elem_of_filter in Hp as [? _].
Qed.

Lemma recountWorks_sameEnv cfg w w0 : sameEnv w w0 → recountWorks cfg w → recountWorks cfg w0.
Proof. intros (Hf & _) Hw device Hdevice. rewrite Hf. by apply Hw. Qed.

Section DeviceRecords.
Context `{JsDate}.

Lemma collectedFrom_sameEnv cfg w w0 device res :
  sameEnv w w0 → collectedFrom cfg w0 device res → collectedFrom cfg w device res.
Proof.
  intros Henv (w1 & w2 & Henv' & Hrun). exists w1, w2. split; [|done].
  by eapply sameEnv_trans.
Qed.

Lemma recordFor_sameEnv w w0 previous device res meta :
  sameEnv w w0 → recordFor w0 previous device res meta → recordFor w previous device res meta.
Proof.
  intros (_ & _ & Hiso & _) (Hid & Hname & Hloc & Hlast). rewrite Hiso in Hlast.
  by repeat split.
Qed.

(** What the loop has done when it returns, and the one way it throws. *)
Lemma deviceLoop_records cfg previous remaining acc w r w' :
  deviceLoop cfg previous remaining acc w = (r, w') →
  sameEnv w w'
  ∧ match r with
    | Ok (allResults, allMetadata) =>
        ∃ entries : list (CollectionResult.t * DeviceMetadata.t),
          allResults = acc.1 ++ entries.*1 ∧ allMetadata = acc.2 ++ entries.*2
          ∧ Forall2 (λ device entry,
                       collectedFrom cfg w device entry.1
                       ∧ recordFor w previous device entry.1 entry.2)
              remaining entries
    | Throw e =>
        ∃ device w0,
          device ∈ remaining ∧ sameEnv w w0
          ∧ Storage.getTotalHourlyDataPoints (CollectorConfig.dataDir cfg)
              (DeviceConfig.id device) w0 = (Throw e, w0)
    end.
Proof.
  revert acc w. induction remaining as [|device rest IH]; intros acc w Hrun; simpl in Hrun.
  - unfold ret in Hrun. simplify_eq. split; [apply sameEnv_refl|].
    destruct acc as [rs ms]. exists []. simpl. rewrite !app_nil_r.
    repeat split; constructor.
  - destruct (collectSingleDevice_spec cfg device w)
      as (res & w1 & Hdev & Henv1 & _).
    apply bind_inv in Hrun as [(res' & w1' & Hdev' & Hrun)|(e & Hdev' & _)];
      [|by rewrite Hdev in Hdev'].
    rewrite Hdev in Hdev'. injection Hdev' as <- <-.
    apply bind_inv in Hrun as [(total & w2 & Htotal & Hrun)|(e & Htotal & ->)].
    2:{ pose proof Htotal as Htotal'.
        apply getTotalHourlyDataPoints_spec in Htotal' as [-> _].
        split; [done|]. exists device, w1. split; [left|]. done. }
    apply getTotalHourlyDataPoints_spec in Htotal as [-> _].
    apply bind_inv in Hrun as [(lastUpdated & w3 & Hlu & Hrun)|(e & Hlu & ->)].
    2:{ repeat case_match; by simplify_eq. }
    assert (sameEnv w1 w3
            ∧ match CollectionResult.lastUpdated res with
              | Some t => lastUpdated = t
              | None =>
                  match previous !! DeviceConfig.id device with
                  | Some prior => lastUpdated = DeviceMetadata.lastUpdated prior
                  | None => ∃ n, lastUpdated = isoString w n
                  end
              end) as [Henv3 Hlast].
    { destruct (CollectionResult.lastUpdated res) as [t|] eqn:Ht.
      - unfold ret in Hlu. simplify_eq. split; [apply sameEnv_refl|done].
      - destruct (previous !! DeviceConfig.id device) as [meta|].
        + unfold ret in Hlu. simplify_eq. split; [apply sameEnv_refl|done].
        + rewrite nowISO_run in Hlu. simplify_eq. split; [by repeat split|].
          exists (ticks w1). by destruct Henv1 as (_ & _ & -> & _). }
    apply bind_inv in Hrun as [([] & w4 & Hdelay & Hrun)|(e & Hdelay & ->)].
    2:{ unfold delay, emit, ret in Hdelay. repeat case_match; by simplify_eq. }
    assert (sameEnv w3 w4) as Henv4.
    { unfold delay, emit, ret in Hdelay. repeat case_match; simplify_eq;
        by repeat split. }
    assert (sameEnv w w4) as Henv.
    { eapply sameEnv_trans; [done|]. by eapply sameEnv_trans. }
    apply IH in Hrun as [Henv' Hrest]. split; [by eapply sameEnv_trans|].
    destruct r as [[allResults allMetadata]|e].
    + destruct Hrest as (entries & -> & -> & Hall). simpl.
      eexists ((res, _) :: entries). rewrite !fmap_cons, <-!app_assoc. simpl.
      split; [done|]. split; [done|]. constructor.
      * split; [exists w, w1; split; [apply sameEnv_refl|done]|].
        split; [done|]. split; [done|]. split; [done|]. simpl. exact Hlast.
      * eapply Forall2_impl; [done|]. intros d entry [Hc Hr]. split.
        -- by eapply collectedFrom_sameEnv.
        -- by eapply recordFor_sameEnv.
    + destruct Hrest as (d & w0 & Hin & Henv0 & Hcount). exists d, w0.
      split; [by right|]. split; [by eapply sameEnv_trans|done].
Qed.

End DeviceRecords.

(** ** The end of a run *)

Section WholeRun.
Context `{JsDate}.

(** How the steps after the loop run: the metadata, the landing page, the
    summary, the verdict. *)
Lemma collectAllDevices_tail_run cfg results deviceMetadata startTime w :
  (Storage.saveDeviceMetadata (CollectorConfig.dataDir cfg) deviceMetadata ;;;
   Storage.generateLandingPage (CollectorConfig.dataDir cfg) ;;;
   endTime <- nowISO ;;
   let summary := createSummary results startTime endTime in
   logSummary summary ;;;
   if 0 <? CollectionSummary.failedDevices summary
   then throw (Error (failureMessage (CollectionSummary.failedDevices summary)))
   else ret summary) w
  = let dataDir := CollectorConfig.dataDir cfg in
    let devicesPath := PathManager.getDeviceMetadataPath dataDir in
    let landingPath := PathManager.getLandingPagePath dataDir in
    if faulty w OpWrite devicesPath then (Throw (ioError "saving device metadata"), w)
    else
      let w1 := setFiles (<[devicesPath := JDevices deviceMetadata]> (files w)) w in
      if faulty w OpList dataDir then (Throw (ioError ("listing " +:+ dataDir)), w1)
      else if faulty w OpWrite landingPath
      then (Throw (ioError "writing landing page"), w1)
      else
        let summary := createSummary results startTime (isoString w (ticks w)) in
        (if 0 <? CollectionSummary.failedDevices summary
         then Throw (Error (failureMessage (CollectionSummary.failedDevices summary)))
         else Ok summary,
         setTrace (trace w ++ [EvSummary summary])
           (setTicks (S (ticks w))
              (setFiles (<[landingPath := JText (landingHtml w)]>
                           (<[devicesPath := JDevices deviceMetadata]> (files w))) w))).
Proof.
  cbv zeta.
  set (dataDir := CollectorConfig.dataDir cfg).
  set (devicesPath := PathManager.getDeviceMetadataPath dataDir).
  unfold bind at 1. unfold Storage.saveDeviceMetadata, writeJson. fold devicesPath.
  destruct (faulty w OpWrite devicesPath); [done|].
  unfold bind at 1.
  unfold Storage.generateLandingPage, bind at 1. unfold bind at 1.
  unfold collectJsonFiles, PathManager.getDataDirectory. fold dataDir.
  rewrite dirExists_written by apply under_join.
  change (faulty (setFiles _ w)) with (faulty w).
  destruct (faulty w OpList dataDir); [done|].
  unfold writeText, writeJson.
  change (faulty (setFiles _ w)) with (faulty w).
  destruct (faulty w OpWrite (PathManager.getLandingPagePath dataDir)); [done|].
  unfold bind at 1. rewrite nowISO_run. unfold bind at 1, logSummary, emit.
  simpl. by destruct (0 <? _).
Qed.


(** How a run starts when devices.json can be read and is absent or well
    formed. *)
Lemma collectAllDevices_start cfg w prior :
  faulty w OpRead (PathManager.getDeviceMetadataPath (CollectorConfig.dataDir cfg)) = false →
  priorMetadata (CollectorConfig.dataDir cfg) w = Some prior →
  collectAllDevices cfg w
  = (collected <- deviceLoop cfg (metadataById prior) (CollectorConfig.devices cfg)
                    ([], []) ;;
     let '(results, deviceMetadata) := collected in
     Storage.saveDeviceMetadata (CollectorConfig.dataDir cfg) deviceMetadata ;;;
     Storage.generateLandingPage (CollectorConfig.dataDir cfg) ;;;
     endTime <- nowISO ;;
     let summary := createSummary results (isoString w (ticks w)) endTime in
     logSummary summary ;;;
     if 0 <? CollectionSummary.failedDevices summary
     then throw (Error (failureMessage (CollectionSummary.failedDevices summary)))
     else ret summary) (setTicks (S (ticks w)) w).
Proof.
  intros Hread Hprior. unfold collectAllDevices.
  unfold bind at 1. rewrite nowISO_run. unfold bind at 1.
  rewrite loadDeviceMetadata_run.
  change (faulty (setTicks _ w)) with (faulty w).
  change (files (setTicks _ w)) with (files w). rewrite Hread.
  unfold priorMetadata in Hprior.
  destruct (files w !! _) as [[| |existing|]|]; simplify_eq; done.
Qed.

(** A run that has read its prior metadata and whose recounts work gets
    through the loop: it has collected every device, and built a record for
    each, when it comes to persist the metadata. *)
Lemma collectAllDevices_loop cfg w prior r w' :
  faulty w OpRead (PathManager.getDeviceMetadataPath (CollectorConfig.dataDir cfg)) = false →
  priorMetadata (CollectorConfig.dataDir cfg) w = Some prior →
  recountWorks cfg w →
  collectAllDevices cfg w = (r, w') →
  ∃ (entries : list (CollectionResult.t * DeviceMetadata.t)) w3 k,
    Forall2 (λ device entry,
               collectedFrom cfg w device entry.1
               ∧ recordFor w (metadataById prior) device entry.1 entry.2)
      (CollectorConfig.devices cfg) entries
    ∧ sameEnv w w3
    ∧ trace w3 = trace w ++ replicate k (EvDelay (CollectorConfig.requestDelayMs cfg))
    ∧ (Storage.saveDeviceMetadata (CollectorConfig.dataDir cfg) entries.*2 ;;;
       Storage.generateLandingPage (CollectorConfig.dataDir cfg) ;;;
       endTime <- nowISO ;;
       let summary := createSummary entries.*1 (isoString w (ticks w)) endTime in
       logSummary summary ;;;
       if 0 <? CollectionSummary.failedDevices summary
       then throw (Error (failureMessage (CollectionSummary.failedDevices summary)))
       else ret summary) w3 = (r, w').
Proof.
  intros Hread Hprior Hrecount Hrun. rewrite (collectAllDevices_start _ _ prior) in Hrun
    by done.
  assert (sameEnv w (setTicks (S (ticks w)) w)) as Henv1 by (by repeat split).
  apply bind_inv in Hrun as [([results deviceMetadata] & w3 & Hloop & Hrun)|(e & Hloop & ->)].
  - pose proof Hloop as Hpace. apply deviceLoop_pacing in Hpace as (k & Htrace & _).
    apply deviceLoop_records in Hloop as [Henv3 (entries & -> & -> & Hall)].
    exists entries, w3, k. split.
    { eapply Forall2_impl; [done|]. intros d entry [Hc Hr]. split.
      - by eapply collectedFrom_sameEnv.
      - by eapply recordFor_sameEnv. }
    split; [by eapply sameEnv_trans|]. split; [done|]. done.
  - apply deviceLoop_records in Hloop as [_ (device & w0 & Hin & Henv0 & Hcount)].
    assert (sameEnv w w0) as Henv by (by eapply sameEnv_trans).
    destruct (recountWorks_sameEnv cfg w w0 Henv Hrecount device Hin) as [Hlist Hreads].
    destruct (getTotalHourlyDataPoints_ok _ _ _ Hlist Hreads) as [n Hok].
    rewrite Hok in Hcount. done.
Qed.

(** C6 (as amended). Take a run that has read its prior metadata and whose
    recounts work. It collects every configured device, in order, and builds
    a metadata record for each. If devices.json cannot be written, it throws
    the error of that write and logs no summary. Otherwise the full metadata
    list is persisted; if the landing page cannot then be regenerated, the
    run throws the error of that step and logs no summary. Otherwise the
    landing page is written and the summary is logged, and only then does
    the run throw the aggregate failure, exactly when at least one device
    has failed, or return the summary, exactly when none has. *)
Theorem aggregate_failure_after_persisting (cfg : CollectorConfig.t) (w : World)
    (prior : list DeviceMetadata.t) (r : Outcome CollectionSummary.t) (w' : World) :
  faulty w OpRead (PathManager.getDeviceMetadataPath (CollectorConfig.dataDir cfg)) = false →
  priorMetadata (CollectorConfig.dataDir cfg) w = Some prior →
  recountWorks cfg w →
  collectAllDevices cfg w = (r, w') →
  ∃ (entries : list (CollectionResult.t * DeviceMetadata.t)) startTime endTime,
    let results := entries.*1 in
    let deviceMetadata := entries.*2 in
    let summary := createSummary results startTime endTime in
    let devicesPath := PathManager.getDeviceMetadataPath (CollectorConfig.dataDir cfg) in
    let landingPath := PathManager.getLandingPagePath (CollectorConfig.dataDir cfg) in
    let noSummary :=
      ∃ k, trace w'
           = trace w ++ replicate k (EvDelay (CollectorConfig.requestDelayMs cfg)) in
    Forall2 (λ device entry,
               collectedFrom cfg w device entry.1
               ∧ recordFor w (metadataById prior) device entry.1 entry.2)
      (CollectorConfig.devices cfg) entries
    ∧ if faulty w OpWrite devicesPath then
        r = Throw (ioError "saving device metadata") ∧ noSummary
      else
        files w' !! devicesPath = Some (JDevices deviceMetadata)
        ∧ if faulty w OpList (CollectorConfig.dataDir cfg) then
            r = Throw (ioError ("listing " +:+ CollectorConfig.dataDir cfg)) ∧ noSummary
          else if faulty w OpWrite landingPath then
            r = Throw (ioError "writing landing page") ∧ noSummary
          else
            files w' !! landingPath = Some (JText (landingHtml w))
            ∧ last (trace w') = Some (EvSummary summary)
            ∧ ((∃ res, res ∈ results ∧ CollectionResult.success res = false)
               ↔ r = Throw (Error (failureMessage
                                     (CollectionSummary.failedDevices summary))))
            ∧ ((∀ res, res ∈ results → CollectionResult.success res = true)
               ↔ r = Ok summary).
Proof.
  intros Hread Hprior Hrecount Hrun.
  destruct (collectAllDevices_loop cfg w prior r w' Hread Hprior Hrecount Hrun)
    as (entries & w3 & k & Hall & Henv & Htrace & Htail).
  rewrite collectAllDevices_tail_run in Htail. cbv zeta in Htail.
  destruct Henv as (Hf & _ & Hiso & Hhtml & _). rewrite Hf, Hhtml in Htail.
  exists entries, (isoString w (ticks w)), (isoString w3 (ticks w3)). cbv zeta.
  split; [done|].
  destruct (faulty w OpWrite (PathManager.getDeviceMetadataPath _)).
  { injection Htail as <- <-. eauto. }
  destruct (faulty w OpList (CollectorConfig.dataDir cfg)).
  { injection Htail as <- <-. simpl. rewrite lookup_insert_eq. eauto. }
  destruct (faulty w OpWrite (PathManager.getLandingPagePath _)).
  { injection Htail as <- <-. simpl. rewrite lookup_insert_eq. eauto. }
  injection Htail as <- <-. simpl.
  rewrite lookup_insert_ne by apply landing_path_ne. rewrite !lookup_insert_eq.
  rewrite last_snoc. split; [done|]. split; [done|]. split; [done|].
  pose proof (failed_count_pos entries.*1) as Hpos.
  destruct (0 <? length (filter (λ r, CollectionResult.success r = false) entries.*1))
    eqn:Hfailed.
  - apply Nat.ltb_lt in Hfailed. split; [by rewrite <-Hpos|].
    split; [|done]. intros Hsucc. apply Hpos in Hfailed as (res & Hin & Hs).
    rewrite (Hsucc res Hin) in Hs. done.
  - apply Nat.ltb_ge in Hfailed. split.
    + rewrite <-Hpos. split; [lia|done].
    + split; [done|]. intros _ res Hin.
      destruct (CollectionResult.success res) eqn:Hs; [done|].
      assert (0 < length (filter (λ r, CollectionResult.success r = false) entries.*1));
        [apply Hpos; eauto|lia].
Qed.

End WholeRun.

(** ** The metadata written by a run that reaches its summary *)

Section Fallback.
Context `{JsDate}.

Lemma collectAllDevices_unreadable cfg w :
  faulty w OpRead (PathManager.getDeviceMetadataPath (CollectorConfig.dataDir cfg)) = true →
  collectAllDevices cfg w
  = (Throw (ioError "loading device metadata"), setTicks (S (ticks w)) w).
Proof.
  intros Hread. unfold collectAllDevices.
  unfold bind at 1. rewrite nowISO_run. unfold bind at 1.
  rewrite loadDeviceMetadata_run.
  change (faulty (setTicks _ w)) with (faulty w). by rewrite Hread.
Qed.

(** An error of the file system is neither the aggregate failure nor a
    return, and there is none when no operation is set to fail. *)
Lemma summary_not_cut_short w (r : Outcome CollectionSummary.t) e op p :
  (noFaults w ∨ (∃ n, r = Throw (Error (failureMessage n))) ∨ ∃ summary, r = Ok summary) →
  r = Throw e → isFileSystemError e = true → faulty w op p = true → False.
Proof.
  intros [Hno|[[n ->]|[s ->]]] Hr He Hfault.
  - by rewrite Hno in Hfault.
  - by injection Hr as <-.
  - done.
Qed.

(** A run that ends with its summary, as every run does when storage works
    and devices.json is absent or well formed, has collected every device,
    persisted a record for each and logged the summary of the results. *)
Lemma collectAllDevices_summary cfg w prior r w' :
  priorMetadata (CollectorConfig.dataDir cfg) w = Some prior →
  collectAllDevices cfg w = (r, w') →
  (noFaults w ∨ (∃ n, r = Throw (Error (failureMessage n))) ∨ ∃ summary, r = Ok summary) →
  ∃ (entries : list (CollectionResult.t * DeviceMetadata.t)) endTime,
    Forall2 (λ device entry,
               collectedFrom cfg w device entry.1
               ∧ recordFor w (metadataById prior) device entry.1 entry.2)
      (CollectorConfig.devices cfg) entries
    ∧ files w' !! PathManager.getDeviceMetadataPath (CollectorConfig.dataDir cfg)
      = Some (JDevices entries.*2)
    ∧ last (trace w')
      = Some (EvSummary (createSummary entries.*1 (isoString w (ticks w)) endTime)).
Proof.
  intros Hprior Hrun Hdone.
  destruct (faulty w OpRead (PathManager.getDeviceMetadataPath (CollectorConfig.dataDir cfg)))
    eqn:Hread.
  { rewrite collectAllDevices_unreadable in Hrun by done. injection Hrun as <- <-.
    destruct (summary_not_cut_short w _ _ _ _ Hdone eq_refl eq_refl Hread). }
  rewrite (collectAllDevices_start _ _ prior) in Hrun by done.
  assert (sameEnv w (setTicks (S (ticks w)) w)) as Henv1 by (by repeat split).
  apply bind_inv in Hrun as [([results deviceMetadata] & w3 & Hloop & Hrun)|(e & Hloop & ->)].
  - apply deviceLoop_records in Hloop as [Henv3 (entries & -> & -> & Hall)].
    assert (sameEnv w w3) as Henv by (by eapply sameEnv_trans).
    rewrite collectAllDevices_tail_run in Hrun. cbv zeta in Hrun.
    destruct Henv as (Hf & _ & Hiso & Hhtml & _). rewrite Hf, Hhtml in Hrun.
    destruct (faulty w OpWrite (PathManager.getDeviceMetadataPath _)) eqn:Hw1.
    { injection Hrun as <- <-.
      destruct (summary_not_cut_short w _ _ _ _ Hdone eq_refl eq_refl Hw1). }
    destruct (faulty w OpList (CollectorConfig.dataDir cfg)) eqn:Hl.
    { injection Hrun as <- <-.
      destruct (summary_not_cut_short w _ _ _ _ Hdone eq_refl eq_refl Hl). }
    destruct (faulty w OpWrite (PathManager.getLandingPagePath _)) eqn:Hw2.
    { injection Hrun as <- <-.
      destruct (summary_not_cut_short w _ _ _ _ Hdone eq_refl eq_refl Hw2). }
    injection Hrun as <- <-. exists entries, (isoString w3 (ticks w3)). split.
    { eapply Forall2_impl; [done|]. intros d entry [Hc Hr]. split.
      - by eapply collectedFrom_sameEnv.
      - by eapply recordFor_sameEnv. }
    simpl. rewrite lookup_insert_ne by apply landing_path_ne.
    rewrite lookup_insert_eq, last_snoc. done.
  - apply deviceLoop_records in Hloop as [_ (device & w0 & Hin & Henv0 & Hcount)].
    apply getTotalHourlyDataPoints_spec in Hcount as [_ Hthrow].
    destruct (Hthrow e eq_refl) as [He Hno].
    destruct Hdone as [Hno'|[[n [= ->]]|[s [=]]]]; [|done].
    destruct Hno. eapply noFaults_sameEnv; [|done]. by eapply sameEnv_trans.
Qed.

(** C7. Metadata fallback. In a run that ends with its summary, as every
    run does when storage works, the record written to devices.json for a
    device carries the timestamp of its result when the result has one, and
    otherwise, whenever [result.lastUpdated] is undefined, the [lastUpdated]
    of the record stored for that device before the run, not the time of the
    run. The result has no timestamp when the fetch failed and when the
    fetched batch, empty or not, holds no usable date. *)
Theorem lastUpdated_falls_back (cfg : CollectorConfig.t) (w : World)
    (prior : list DeviceMetadata.t) (r : Outcome CollectionSummary.t) (w' : World) :
  priorMetadata (CollectorConfig.dataDir cfg) w = Some prior →
  collectAllDevices cfg w = (r, w') →
  (noFaults w ∨ (∃ n, r = Throw (Error (failureMessage n))) ∨ ∃ summary, r = Ok summary) →
  ∃ results deviceMetadata,
    files w' !! PathManager.getDeviceMetadataPath (CollectorConfig.dataDir cfg)
    = Some (JDevices deviceMetadata)
    ∧ (∃ startTime endTime,
         last (trace w') = Some (EvSummary (createSummary results startTime endTime)))
    ∧ ∀ i device,
        CollectorConfig.devices cfg !! i = Some device →
        ∃ res meta w0 w1,
          results !! i = Some res
          ∧ deviceMetadata !! i = Some meta
          ∧ sameEnv w w0
          ∧ collectSingleDevice cfg device w0 = (Ok res, w1)
          ∧ DeviceMetadata.id meta = DeviceConfig.id device
          ∧ (CollectionResult.lastUpdated res = None →
             ∀ previousMeta,
               metadataById prior !! DeviceConfig.id device = Some previousMeta →
               DeviceMetadata.lastUpdated meta = DeviceMetadata.lastUpdated previousMeta)
          ∧ (∀ t, CollectionResult.lastUpdated res = Some t →
                  DeviceMetadata.lastUpdated meta = t)
          ∧ match nextResponse cfg device w0 with
            | Throw _ => CollectionResult.lastUpdated res = None
            | Ok dataPoints =>
                getLatestDataTimestamp dataPoints = None →
                CollectionResult.lastUpdated res = None
            end.
Proof.
  intros Hprior Hrun Hdone.
  destruct (collectAllDevices_summary cfg w prior r w' Hprior Hrun Hdone)
    as (entries & endTime & Hall & Hfile & Hlog).
  exists entries.*1, entries.*2. split; [done|]. split; [eauto|].
  intros i device Hdevice.
  destruct (Forall2_lookup_l _ _ _ _ _ Hall Hdevice)
    as ([res meta] & Hentry & (w0 & w1 & Henv & Hcollect) & Hid & _ & _ & Hlast).
  simpl in *. exists res, meta, w0, w1.
  split; [by rewrite list_lookup_fmap, Hentry|].
  split; [by rewrite list_lookup_fmap, Hentry|].
  split; [done|]. split; [done|]. split; [done|]. split; [|split].
  - intros Hnone previousMeta Hprevious. by rewrite Hnone, Hprevious in Hlast.
  - intros t Ht. by rewrite Ht in Hlast.
  - destruct (collectSingleDevice_spec cfg device w0)
      as (res' & w1' & Hcollect' & _ & _ & _ & _ & Hfailed & Hcase).
    rewrite Hcollect in Hcollect'. injection Hcollect' as <- <-.
    destruct (nextResponse cfg device w0) as [dataPoints|e].
    + intros Hlatest. destruct Hcase as (Hok & _).
      destruct (CollectionResult.success res) eqn:Hs; [|by apply Hfailed].
      destruct (Hok eq_refl) as [_ ->]. done.
    + destruct Hcase as [Hs _]. by apply Hfailed.
Qed.

End Fallback.

(** ** Worked instances of the run *)

(** C5. The recount escapes the per-device boundary. Devices A, B and C
    are configured; the fetch of A always fails, those of B and C answer;
    the month 2024-05 that A has stored cannot be read. [collectSingleDevice]
    turns the failed fetch of A into a failed result, but the recount of A's
    stored points, which [collectAllDevices] makes outside that boundary,
    throws the error of the read. The run ends with that error after one
    fetch: B and C are never collected, no summary is logged and no file is
    written, devices.json included. *)
Theorem recount_failure_aborts_the_run :
  let cfg := Sample.config ["A"; "B"; "C"] in
  let w := Sample.world Sample.twoMonths Incident.unreadableMonth Incident.apiWithADown in
  let run := collectAllDevices (H := isoDateTime) cfg w in
  let readError :=
    ErrnoException "EIO"
      "I/O error while loading monthly data for device A while computing totals" in
  alwaysFails w "A" ∧ alwaysAnswers w "B" ∧ alwaysAnswers w "C"
  ∧ (∃ res,
       (collectSingleDevice (H := isoDateTime) cfg (Sample.device "A") (setTicks 1 w)).1
       = Ok res
       ∧ CollectionResult.success res = false)
  ∧ (Storage.getTotalHourlyDataPoints FILESYSTEM.DATA_DIR "A" w).1 = Throw readError
  ∧ run.1 = Throw readError
  ∧ calls run.2 = 1
  ∧ trace run.2 = []
  ∧ files run.2 = files w
  ∧ files run.2 !! PathManager.getDeviceMetadataPath FILESYSTEM.DATA_DIR = None.
Proof.
  intros cfg w run readError.
  split; [intros n range; eexists; reflexivity|].
  split; [intros n range; eexists; reflexivity|].
  split; [intros n range; eexists; reflexivity|].
  split; [eexists; split; vm_compute; reflexivity|].
  repeat split; vm_compute; reflexivity.
Qed.

(** The hourly file of A cannot be written: A fails, B and C are collected,
    the three records and the landing page are persisted, and the run then
    throws the aggregate failure. *)
Lemma aggregate_failure_after_persisting_witness :
  let cfg := Sample.config ["A"; "B"; "C"] in
  let w := Sample.world ∅ Incident.hourlyWriteFails Incident.apiUp in
  let r := (collectAllDevices (H := isoDateTime) cfg w).1 in
  let w' := (collectAllDevices (H := isoDateTime) cfg w).2 in
  faulty w OpRead (PathManager.getDeviceMetadataPath (CollectorConfig.dataDir cfg)) = false
  ∧ priorMetadata (CollectorConfig.dataDir cfg) w = Some []
  ∧ recountWorks cfg w
  ∧ r = Throw (Error "Collection completed with 1 error(s)")
  ∧ ∃ entries : list (CollectionResult.t * DeviceMetadata.t),
      length entries = 3
      ∧ (∃ res, res ∈ entries.*1 ∧ CollectionResult.success res = false)
      ∧ files w' !! PathManager.getDeviceMetadataPath (CollectorConfig.dataDir cfg)
        = Some (JDevices entries.*2)
      ∧ files w' !! PathManager.getLandingPagePath (CollectorConfig.dataDir cfg)
        = Some (JText (landingHtml w)).
Proof.
  intros cfg w r w'.
  assert (recountWorks cfg w) as Hrecount.
  { intros device _. split; [reflexivity|]. intros p _. reflexivity. }
  assert (r = Throw (Error "Collection completed with 1 error(s)")) as Hthrown
    by (vm_compute; reflexivity).
  split; [reflexivity|]. split; [reflexivity|]. split; [exact Hrecount|].
  split; [exact Hthrown|].
  destruct (aggregate_failure_after_persisting (H := isoDateTime) cfg w [] r w'
              eq_refl eq_refl Hrecount (surjective_pairing _))
    as (entries & startTime & endTime & Hall & Hend).
  change (faulty w OpWrite
            (PathManager.getDeviceMetadataPath (CollectorConfig.dataDir cfg)))
    with false in Hend.
  change (faulty w OpList (CollectorConfig.dataDir cfg)) with false in Hend.
  change (faulty w OpWrite (PathManager.getLandingPagePath (CollectorConfig.dataDir cfg)))
    with false in Hend.
  destruct Hend as (Hdevices & Hlanding & Hlog & Hfailed & _).
  exists entries. split; [symmetry; exact (Forall2_length _ _ _ Hall)|].
  split; [|split; [exact Hdevices|exact Hlanding]].
  assert ((λ e, match e with
                | EvSummary summary => CollectionSummary.failedDevices summary
                | _ => 0
                end) <$> last (trace w') = Some 1) as Hcount
    by (vm_compute; reflexivity).
  rewrite Hlog in Hcount. injection Hcount as Hcount.
  apply Hfailed. unfold createSummary. cbn [CollectionSummary.failedDevices].
  rewrite Hcount. exact Hthrown.
Defined.

(** The fetch of A fails, or brings one reading whose date does not parse:
    either way A's result has no timestamp, and A's record keeps the stored
    ["2024-05-30"]. *)
Lemma lastUpdated_falls_back_witness :
  let cfg := Sample.config ["A"; "B"] in
  let down := Sample.world Incident.withPriorDevices Sample.healthy Incident.apiWithADown in
  let unusable :=
    Sample.world Incident.withPriorDevices Sample.healthy Incident.apiWithUnusableDate in
  (∃ deviceMetadata meta,
     files (collectAllDevices (H := isoDateTime) cfg down).2
       !! PathManager.getDeviceMetadataPath FILESYSTEM.DATA_DIR
     = Some (JDevices deviceMetadata)
     ∧ deviceMetadata !! 0 = Some meta
     ∧ DeviceMetadata.id meta = "A"
     ∧ DeviceMetadata.lastUpdated meta = "2024-05-30")
  ∧ (∃ deviceMetadata meta,
       files (collectAllDevices (H := isoDateTime) cfg unusable).2
         !! PathManager.getDeviceMetadataPath FILESYSTEM.DATA_DIR
       = Some (JDevices deviceMetadata)
       ∧ deviceMetadata !! 0 = Some meta
       ∧ DeviceMetadata.id meta = "A"
       ∧ DeviceMetadata.lastUpdated meta = "2024-05-30").
Proof.
  intros cfg down unusable. split.
  - destruct (lastUpdated_falls_back (H := isoDateTime) cfg down Sample.priorDevices
                (collectAllDevices (H := isoDateTime) cfg down).1
                (collectAllDevices (H := isoDateTime) cfg down).2)
      as (results & deviceMetadata & Hfile & _ & Hdevices).
    + vm_compute. reflexivity.
    + apply surjective_pairing.
    + left. intros op p. reflexivity.
    + destruct (Hdevices 0 (Sample.device "A") eq_refl)
        as (res & meta & w0 & w1 & _ & Hmeta & Henv & _ & Hid & Hfallback & _ & Hnone).
      exists deviceMetadata, meta. split; [exact Hfile|]. split; [exact Hmeta|].
      split; [exact Hid|].
      destruct Henv as (_ & Hresponses & _). unfold nextResponse in Hnone.
      rewrite Hresponses in Hnone.
      exact (Hfallback Hnone
               {| DeviceMetadata.id := "A"; DeviceMetadata.name := "Telraam A";
                  DeviceMetadata.location := "Karlsruhe, Germany";
                  DeviceMetadata.lastUpdated := "2024-05-30";
                  DeviceMetadata.totalDataPoints := 48 |} eq_refl).
  - destruct (lastUpdated_falls_back (H := isoDateTime) cfg unusable Sample.priorDevices
                (collectAllDevices (H := isoDateTime) cfg unusable).1
                (collectAllDevices (H := isoDateTime) cfg unusable).2)
      as (results & deviceMetadata & Hfile & _ & Hdevices).
    + vm_compute. reflexivity.
    + apply surjective_pairing.
    + left. intros op p. reflexivity.
    + destruct (Hdevices 0 (Sample.device "A") eq_refl)
        as (res & meta & w0 & w1 & _ & Hmeta & Henv & _ & Hid & Hfallback & _ & Hnone).
      exists deviceMetadata, meta. split; [exact Hfile|]. split; [exact Hmeta|].
      split; [exact Hid|].
      destruct Henv as (_ & Hresponses & _). unfold nextResponse in Hnone.
      rewrite Hresponses in Hnone.
      exact (Hfallback (Hnone eq_refl)
               {| DeviceMetadata.id := "A"; DeviceMetadata.name := "Telraam A";
                  DeviceMetadata.location := "Karlsruhe, Germany";
                  DeviceMetadata.lastUpdated := "2024-05-30";
                  DeviceMetadata.totalDataPoints := 48 |} eq_refl).
Defined.
